(** * geo-shift-spy: the post-inference analytics core, embedded in Rocq

    Shallow embedding of the analytic services of the ML backend:

    - [ml_backend/services/disaster_analyzer.py]   (module [DisasterAnalyzer])
    - [ml_backend/services/multiclass_analyzer.py] (module [MultiClassAnalyzer])
    - [ml_backend/services/geospatial_processor.py] (module [GeospatialProcessor])

    Conventions of the embedding.

    - Python [int] is [Z] (or [nat] for class ids, counts and array indices).
    - Python and numpy floating-point numbers are modelled by exact rationals
      [Q]; the value a numpy division yields on a zero denominator (nan, inf)
      is kept apart in [npfloat].  Rounding of binary64 is not modelled
      there.  The class fractions of [_is_disaster_pattern], whose
      difference is compared with 0.3, are computed in binary64
      ([PrimFloat]), as numpy does.
    - A Python exception is a [Raise] result.
    - A 2-D numpy array is its shape together with its cells in row-major
      order ([ndarray]).
    - What OpenCV and scikit-learn compute (contours, connected components,
      polygon filling, DBSCAN) is not code of this repository: contours and
      component labellings are inputs of the embedded functions, polygon
      filling and DBSCAN are modelled after the library's documented
      algorithm. *)

From Stdlib Require Import PrimFloat.
From Stdlib Require Uint63.
From Stdlib Require Import ZArith QArith Qminmax String Bool Arith Lia Lqa.
From Stdlib Require Import List Permutation.
Import ListNotations.

Set Warnings "-inexact-float".

Open Scope Q_scope.

(* ================================================================== *)
(** * Part I: the embedded program                                     *)
(* ================================================================== *)

(** ** Python results *)

Module Py.

(** [OutOfFuel] is no Python exception: it marks a loop of the embedding
    that reached its bound on the number of turns. *)
Inductive exn : Type :=
| ZeroDivisionError
| ValueError
| IndexError
| OutOfFuel.

Inductive result (A : Type) : Type :=
| Ok (a : A)
| Raise (e : exn).

Arguments Ok {A} a.
Arguments Raise {A} e.

Definition bind {A B : Type} (r : result A) (k : A -> result B) : result B :=
  match r with
  | Ok a => k a
  | Raise e => Raise e
  end.

(** [a / b] on Python numbers. *)
Definition truediv (a b : Q) : result Q :=
  if Qeq_bool b 0 then Raise ZeroDivisionError else Ok (a / b).

End Py.

Import Py.

Notation "x <- r ;; k" := (Py.bind r (fun x => k))
  (at level 61, r at next level, right associativity).

(** ** Python results, with lookups that can fail *)

Module PyExc.

(** The exceptions of code that reads attributes and dict entries. *)
Inductive exc : Type :=
| KeyError
| AttributeError
| Builtin (e : Py.exn).

Inductive outcome (A : Type) : Type :=
| Return (a : A)
| Throw (e : exc).

Arguments Return {A} a.
Arguments Throw {A} e.

Definition and_then {A B : Type} (r : outcome A) (k : A -> outcome B) : outcome B :=
  match r with
  | Return a => k a
  | Throw e => Throw e
  end.

Definition lift {A : Type} (r : Py.result A) : outcome A :=
  match r with
  | Py.Ok a => Return a
  | Py.Raise e => Throw (Builtin e)
  end.

(** [d[key] += v] on a dict with string keys: the key must be there. *)
Fixpoint dict_add {V : Type} (add : V -> V) (d : list (string * V)) (key : string)
  : outcome (list (string * V)) :=
  match d with
  | [] => Throw KeyError
  | (k, v) :: rest =>
      if String.eqb k key then Return ((k, add v) :: rest)
      else and_then (dict_add add rest key) (fun rest' => Return ((k, v) :: rest'))
  end.

(** [d[key]]. *)
Fixpoint dict_get {V : Type} (d : list (string * V)) (key : string) : outcome V :=
  match d with
  | [] => Throw KeyError
  | (k, v) :: rest => if String.eqb k key then Return v else dict_get rest key
  end.

End PyExc.

(** ** numpy values *)

Module Np.

(** [a > b] and [a < b] on rationals, as booleans. *)
Definition Qgtb (a b : Q) : bool := negb (Qle_bool a b).
Definition Qltb (a b : Q) : bool := negb (Qle_bool b a).

(** A numpy float: a finite value, or what a division by zero leaves. *)
Inductive npfloat : Type :=
| Fin (q : Q)
| PosInf
| NegInf
| NaN.

Definition np_sub (a b : npfloat) : npfloat :=
  match a, b with
  | NaN, _ | _, NaN => NaN
  | Fin x, Fin y => Fin (x - y)
  | Fin _, PosInf => NegInf
  | Fin _, NegInf => PosInf
  | PosInf, PosInf => NaN
  | PosInf, _ => PosInf
  | NegInf, NegInf => NaN
  | NegInf, _ => NegInf
  end.

(** numpy's true division: a zero denominator raises nothing, it yields
    nan or an infinity (and a RuntimeWarning).  Denominators here are never
    negative zero. *)
Definition np_div (a b : npfloat) : npfloat :=
  match a, b with
  | NaN, _ | _, NaN => NaN
  | Fin x, Fin y =>
      if Qeq_bool y 0
      then (if Qgtb x 0 then PosInf else if Qltb x 0 then NegInf else NaN)
      else Fin (x / y)
  | Fin _, (PosInf | NegInf) => Fin 0
  | (PosInf | NegInf), (PosInf | NegInf) => NaN
  | PosInf, Fin y => if Qltb y 0 then NegInf else PosInf
  | NegInf, Fin y => if Qltb y 0 then PosInf else NegInf
  end.

(** [a > c] for a Python constant [c]: false on nan. *)
Definition np_gt (a : npfloat) (c : Q) : bool :=
  match a with
  | Fin x => Qgtb x c
  | PosInf => true
  | NegInf | NaN => false
  end.

Definition Zsum (l : list Z) : Z := fold_left Z.add l 0%Z.

(** [np.mean] of the cells of an integer array: nan on no cell. *)
Definition np_mean (l : list Z) : npfloat :=
  np_div (Fin (inject_Z (Zsum l))) (Fin (inject_Z (Z.of_nat (length l)))).

(** A 2-D array: its shape [(rows, columns)] and its cells in row-major
    order. *)
Record ndarray (A : Type) : Type := mkArray {
  shape : nat * nat;
  data : list A
}.

Arguments mkArray {A} shape data.
Arguments shape {A} n.
Arguments data {A} n.

Definition wf_array {A : Type} (a : ndarray A) : Prop :=
  length (data a) = (fst (shape a) * snd (shape a))%nat.

(** [np.full(shape, v)]. *)
Definition full {A : Type} (sh : nat * nat) (v : A) : ndarray A :=
  mkArray sh (repeat v (fst sh * snd sh)).

(** The cells of [a] rewritten by [f row column old]. *)
Definition map_cells {A : Type} (f : Z -> Z -> A -> A) (a : ndarray A)
  : ndarray A :=
  let w := Z.of_nat (snd (shape a)) in
  mkArray (shape a)
    (map (fun kv => f (Z.of_nat (fst kv) / w)%Z (Z.of_nat (fst kv) mod w)%Z (snd kv))
         (combine (seq 0 (length (data a))) (data a))).

(** Bounds of the Python slice [start:stop] on an axis of length [n]. *)
Definition slice_bound (n : nat) (s : Z) : Z :=
  if (s <? 0)%Z then Z.max (s + Z.of_nat n) 0 else Z.min s (Z.of_nat n).

Definition in_slice (n : nat) (start stop i : Z) : bool :=
  ((slice_bound n start <=? i) && (i <? slice_bound n stop))%Z.

End Np.

Import Np.

(** ** OpenCV primitives on contours and polygons *)

Module Cv2.

(** A contour or polygon: its vertices [(x, y)]. *)
Definition contour : Type := list (Z * Z).

(** The closed chain of edges of a polygon. *)
Definition edges (pts : contour) : list ((Z * Z) * (Z * Z)) :=
  match pts with
  | [] => []
  | p :: rest => combine pts (rest ++ [p])
  end.

(** [cv2.contourArea]: the area by Green's formula over the vertices,
    without orientation. *)
Definition contourArea (c : contour) : Q :=
  let twice :=
    fold_left (fun acc e =>
                 let '((x1, y1), (x2, y2)) := e in
                 (acc + (x1 * y2 - x2 * y1))%Z)
              (edges c) 0%Z in
  inject_Z (Z.abs twice) / 2.

(** [cv2.boundingRect]: [(x, y, w, h)] of the up-right bounding rectangle
    of the vertices. *)
Definition boundingRect (c : contour) : Z * Z * Z * Z :=
  match c with
  | [] => (0, 0, 0, 0)%Z
  | (x0, y0) :: rest =>
      let xmin := fold_left Z.min (map fst rest) x0 in
      let xmax := fold_left Z.max (map fst rest) x0 in
      let ymin := fold_left Z.min (map snd rest) y0 in
      let ymax := fold_left Z.max (map snd rest) y0 in
      (xmin, ymin, xmax - xmin + 1, ymax - ymin + 1)%Z
  end.

(** Is [(x, y)] on the segment [e]? *)
Definition on_edge (x y : Z) (e : (Z * Z) * (Z * Z)) : bool :=
  let '((x1, y1), (x2, y2)) := e in
  (((x - x1) * (y2 - y1) =? (y - y1) * (x2 - x1))
   && (Z.min x1 x2 <=? x) && (x <=? Z.max x1 x2)
   && (Z.min y1 y2 <=? y) && (y <=? Z.max y1 y2))%Z.

(** Does the ray from [(x, y)] towards larger [x] cross the edge [e]? *)
Definition crosses (x y : Z) (e : (Z * Z) * (Z * Z)) : bool :=
  let '((x1, y1), (x2, y2)) := e in
  if Bool.eqb (y <? y1)%Z (y <? y2)%Z then false
  else if (y1 <? y2)%Z
       then ((x - x1) * (y2 - y1) <? (y - y1) * (x2 - x1))%Z
       else ((y - y1) * (x2 - x1) <? (x - x1) * (y2 - y1))%Z.

(** The pixels [cv2.fillPoly] paints for one polygon: its boundary and its
    interior (even-odd rule).  OpenCV rasterises slanted edges in fixed
    point; on axis-parallel polygons the two agree. *)
Definition poly_covers (pts : contour) (x y : Z) : bool :=
  existsb (on_edge x y) (edges pts)
  || Nat.odd (length (filter (crosses x y) (edges pts))).

(** [cv2.fillPoly(img, [pts], value)]: every covered pixel becomes [value],
    whatever it held. *)
Definition fillPoly (img : ndarray Z) (pts : contour) (value : Z) : ndarray Z :=
  map_cells (fun row col old => if poly_covers pts col row then value else old) img.

End Cv2.

(** ** disaster_analyzer.py *)

Module DisasterAnalyzer.

Inductive DamageZoneType : Type :=
| FLOODED
| BURNED
| COLLAPSED
| DEBRIS
| ERODED
| DAMAGED_INFRASTRUCTURE
| DISPLACED_VEGETATION.

Definition DamageZoneType_eqb (a b : DamageZoneType) : bool :=
  match a, b with
  | FLOODED, FLOODED | BURNED, BURNED | COLLAPSED, COLLAPSED
  | DEBRIS, DEBRIS | ERODED, ERODED
  | DAMAGED_INFRASTRUCTURE, DAMAGED_INFRASTRUCTURE
  | DISPLACED_VEGETATION, DISPLACED_VEGETATION => true
  | _, _ => false
  end.

Record DamageZone : Type := mkDamageZone {
  zone_type : DamageZoneType;
  severity : string;
  bbox : Z * Z * Z * Z;
  area_sq_meters : Q;
  confidence : Q;
  affected_structures : Z;
  polygon_coords : option (list (Z * Z))
}.

(** An RGB pixel of a uint8 image. *)
Definition pixel : Type := (Z * Z * Z)%type.
Definition red (p : pixel) : Z := fst (fst p).
Definition green (p : pixel) : Z := snd (fst p).
Definition blue (p : pixel) : Z := snd p.

Definition uint8 (v : Z) : Prop := (0 <= v <= 255)%Z.
Definition uint8_pixel (p : pixel) : Prop :=
  uint8 (red p) /\ uint8 (green p) /\ uint8 (blue p).

(** *** Spectral indices and ratios *)

(** The guard [1e-6] added to denominators. *)
Definition epsilon : Q := 1e-6.

(** [water_index] of [_calculate_water_change], at one pixel. *)
Definition water_index_den (p : pixel) : Q :=
  inject_Z (green p) + inject_Z (red p) + epsilon.
Definition water_index (p : pixel) : npfloat :=
  np_div (Fin (inject_Z (green p) - inject_Z (red p))) (Fin (water_index_den p)).

(** [burn_ratio] of [_calculate_burn_signature], at one pixel. *)
Definition burn_ratio_den (p : pixel) : Q :=
  inject_Z (red p) + inject_Z (blue p) + epsilon.
Definition burn_ratio (p : pixel) : npfloat :=
  np_div (Fin (inject_Z (red p) - inject_Z (blue p))) (Fin (burn_ratio_den p)).

(** [post_red_ratio] of [detect_burns], at one pixel. *)
Definition post_red_ratio_den (p : pixel) : Q :=
  inject_Z (red p + green p + blue p) + epsilon.
Definition post_red_ratio (p : pixel) : npfloat :=
  np_div (Fin (inject_Z (red p))) (Fin (post_red_ratio_den p)).

(** [burn_mask] of [detect_burns], at one pixel of the two images. *)
Definition burn_mask (pre post : pixel) : bool :=
  let pre_brightness := inject_Z (red pre + green pre + blue pre) / 3 in
  let post_brightness := inject_Z (red post + green post + blue post) / 3 in
  let darkness_increase := pre_brightness - post_brightness in
  Qgtb darkness_increase 30 && np_gt (post_red_ratio post) 0.4.

(** [vegetation_loss] of [_estimate_burn_severity]: the denominator is the
    mean green of the region before, as it is. *)
Definition vegetation_loss_den (pre_region : list pixel) : npfloat :=
  np_mean (map green pre_region).
Definition vegetation_loss (pre_region post_region : list pixel) : npfloat :=
  let pre_green := np_mean (map green pre_region) in
  let post_green := np_mean (map green post_region) in
  np_div (np_sub pre_green post_green) pre_green.

Definition _estimate_burn_severity (pre_region post_region : list pixel) : string :=
  let vegetation_loss := vegetation_loss pre_region post_region in
  if np_gt vegetation_loss 0.8 then "catastrophic"
  else if np_gt vegetation_loss 0.6 then "severe"
  else if np_gt vegetation_loss 0.4 then "moderate"
  else "minor".

(** *** Flood zones *)

(** [detect_water] of [_detect_flood_zones], at one pixel. *)
Definition detect_water (p : pixel) : bool :=
  Qgtb (inject_Z (blue p)) (inject_Z (red p) + 20)
  && Qgtb (inject_Z (blue p)) 100.

(** [flood_mask]: water after and not before. *)
Definition flood_mask (pre post : pixel) : bool :=
  (Nat.b2n (detect_water pre) <? Nat.b2n (detect_water post))%nat.

(** The unused second argument [flood_region] is left out. *)
Definition _estimate_flood_severity (area_sq_meters : Q) : string :=
  let score := 0%Z in
  let score :=
    if Qgtb area_sq_meters 10000 then (score + 2)%Z
    else if Qgtb area_sq_meters 1000 then (score + 1)%Z
    else score in
  if (score >=? 3)%Z then "catastrophic"
  else if (score >=? 2)%Z then "severe"
  else if (score >=? 1)%Z then "moderate"
  else "minor".

Definition _estimate_collapse_severity (area_sq_meters : Q) : string :=
  if Qgtb area_sq_meters 5000 then "catastrophic"
  else if Qgtb area_sq_meters 1000 then "severe"
  else if Qgtb area_sq_meters 200 then "moderate"
  else "minor".

Section Analyzer.

(** [self.pixel_to_meter_ratio]. *)
Variable pixel_to_meter_ratio : Q.

(** [_count_affected_structures] on the slices of the bounding box; it
    rests on OpenCV's edge detector. *)
Variable _count_affected_structures : Z * Z * Z * Z -> Z.

(** The loop of [_detect_flood_zones] over [contours], the external
    contours OpenCV finds in the flood mask. *)
Fixpoint flood_zones_loop (contours : list Cv2.contour) (zones : list DamageZone)
  : list DamageZone :=
  match contours with
  | [] => zones
  | contour :: rest =>
      let area_pixels := Cv2.contourArea contour in
      let area_sq_meters := area_pixels * pixel_to_meter_ratio in
      if Qltb area_sq_meters 100 then flood_zones_loop rest zones
      else
        let rect := Cv2.boundingRect contour in
        let severity := _estimate_flood_severity area_sq_meters in
        let affected_structures := _count_affected_structures rect in
        let zone :=
          mkDamageZone FLOODED severity rect area_sq_meters 0.8
                       affected_structures (Some contour) in
        flood_zones_loop rest (zones ++ [zone])
  end.

Definition _detect_flood_zones (contours : list Cv2.contour) : list DamageZone :=
  flood_zones_loop contours [].

End Analyzer.

(** *** Priority rasters *)

(** [a[y:y+h, x:x+w] = np.maximum(a[y:y+h, x:x+w], v)]. *)
Definition maximum_slice (a : ndarray Z) (x y w h : Z) (v : Z) : ndarray Z :=
  map_cells (fun row col old =>
               if in_slice (fst (shape a)) y (y + h) row
                  && in_slice (snd (shape a)) x (x + w) col
               then Z.max old v else old) a.

(** Truth value of [zone.polygon_coords]: a non-empty list. *)
Definition polygon_of (zone : DamageZone) : option (list (Z * Z)) :=
  match polygon_coords zone with
  | Some (p :: ps) => Some (p :: ps)
  | _ => None
  end.

Definition priority_value (zone : DamageZone) : Z :=
  if String.eqb (severity zone) "catastrophic" then 255
  else if String.eqb (severity zone) "severe" then 200
  else if String.eqb (severity zone) "moderate" then 150
  else 100.

(** One turn of the loop of [_generate_evacuation_priority_map]. *)
Definition evacuation_step (priority_map : ndarray Z) (zone : DamageZone)
  : ndarray Z :=
  let '(x, y, w, h) := bbox zone in
  match polygon_of zone with
  | Some points => Cv2.fillPoly priority_map points (priority_value zone)
  | None => maximum_slice priority_map x y w h (priority_value zone)
  end.

Definition _generate_evacuation_priority_map
    (damage_zones : list DamageZone) (shape : nat * nat) : ndarray Z :=
  fold_left evacuation_step damage_zones (full shape 0%Z).

Definition difficulty (zone : DamageZone) : Z :=
  if DamageZoneType_eqb (zone_type zone) FLOODED
     || DamageZoneType_eqb (zone_type zone) COLLAPSED then 255
  else if DamageZoneType_eqb (zone_type zone) DEBRIS then 200
  else 150.

(** One turn of the loop of [_generate_relief_access_map]. *)
Definition relief_step (access_map : ndarray Z) (zone : DamageZone)
  : ndarray Z :=
  let '(x, y, w, h) := bbox zone in
  match polygon_of zone with
  | Some points => Cv2.fillPoly access_map points (difficulty zone)
  | None => maximum_slice access_map x y w h (difficulty zone)
  end.

Definition _generate_relief_access_map
    (damage_zones : list DamageZone) (shape : nat * nat) : ndarray Z :=
  fold_left relief_step damage_zones (full shape 100%Z).

(** *** The other detectors *)

Inductive DisasterType : Type :=
| FLOOD
| FIRE
| EARTHQUAKE
| HURRICANE
| LANDSLIDE
| TORNADO
| UNKNOWN.

(** [img[y:y+h, x:x+w]]: the cells of the two slices, in row-major
    order. *)
Definition slice_cells {A : Type} (img : ndarray A) (x y w h : Z) : list A :=
  let width := Z.of_nat (snd (shape img)) in
  map snd
      (filter (fun kv =>
                 in_slice (fst (shape img)) y (y + h) (Z.of_nat (fst kv) / width)%Z
                 && in_slice (snd (shape img)) x (x + w)
                             (Z.of_nat (fst kv) mod width)%Z)
              (combine (seq 0 (length (data img))) (data img))).

Section Detectors.

Variable pixel_to_meter_ratio : Q.
Variable _count_affected_structures : Z * Z * Z * Z -> Z.
Variables pre_img post_img : ndarray pixel.

(** The loop of [_detect_burn_zones] over the contours of the burn mask. *)
Fixpoint burn_zones_loop (contours : list Cv2.contour) (zones : list DamageZone)
  : list DamageZone :=
  match contours with
  | [] => zones
  | contour :: rest =>
      let area_pixels := Cv2.contourArea contour in
      let area_sq_meters := area_pixels * pixel_to_meter_ratio in
      if Qltb area_sq_meters 500 then burn_zones_loop rest zones
      else
        let '(x, y, w, h) := Cv2.boundingRect contour in
        let severity :=
          _estimate_burn_severity (slice_cells pre_img x y w h)
                                  (slice_cells post_img x y w h) in
        let zone :=
          mkDamageZone BURNED severity (x, y, w, h) area_sq_meters 0.75 0
                       (Some contour) in
        burn_zones_loop rest (zones ++ [zone])
  end.

Definition _detect_burn_zones (contours : list Cv2.contour) : list DamageZone :=
  burn_zones_loop contours [].

(** The loop of [_detect_collapse_zones] over the contours of the mask of
    lost edges. *)
Fixpoint collapse_zones_loop (contours : list Cv2.contour) (zones : list DamageZone)
  : list DamageZone :=
  match contours with
  | [] => zones
  | contour :: rest =>
      let area_pixels := Cv2.contourArea contour in
      let area_sq_meters := area_pixels * pixel_to_meter_ratio in
      if Qltb area_sq_meters 50 then collapse_zones_loop rest zones
      else
        let rect := Cv2.boundingRect contour in
        let severity := _estimate_collapse_severity area_sq_meters in
        let zone :=
          mkDamageZone COLLAPSED severity rect area_sq_meters 0.7 1
                       (Some contour) in
        collapse_zones_loop rest (zones ++ [zone])
  end.

Definition _detect_collapse_zones (contours : list Cv2.contour) : list DamageZone :=
  collapse_zones_loop contours [].

(** The loop of [_detect_generic_damage_zones] over the contours of the
    thresholded difference. *)
Fixpoint generic_zones_loop (contours : list Cv2.contour) (zones : list DamageZone)
  : list DamageZone :=
  match contours with
  | [] => zones
  | contour :: rest =>
      let area_pixels := Cv2.contourArea contour in
      let area_sq_meters := area_pixels * pixel_to_meter_ratio in
      if Qltb area_sq_meters 100 then generic_zones_loop rest zones
      else
        let rect := Cv2.boundingRect contour in
        let zone :=
          mkDamageZone DEBRIS "moderate" rect area_sq_meters 0.6 0
                       (Some contour) in
        generic_zones_loop rest (zones ++ [zone])
  end.

Definition _detect_generic_damage_zones (contours : list Cv2.contour)
  : list DamageZone :=
  generic_zones_loop contours [].

(** [_detect_damage_zones]; [contours] are the contours of the mask of the
    detector the disaster type selects. *)
Definition _detect_damage_zones (disaster_type : DisasterType)
    (contours : list Cv2.contour) : list DamageZone :=
  let damage_zones := [] in
  match disaster_type with
  | FLOOD =>
      damage_zones
        ++ _detect_flood_zones pixel_to_meter_ratio _count_affected_structures contours
  | FIRE => damage_zones ++ _detect_burn_zones contours
  | EARTHQUAKE => damage_zones ++ _detect_collapse_zones contours
  | _ => damage_zones ++ _detect_generic_damage_zones contours
  end.

End Detectors.

(** *** Overall assessment *)

(** [DamageZoneType.value]. *)
Definition zone_type_value (t : DamageZoneType) : string :=
  match t with
  | FLOODED => "flooded"
  | BURNED => "burned"
  | COLLAPSED => "collapsed"
  | DEBRIS => "debris"
  | ERODED => "eroded"
  | DAMAGED_INFRASTRUCTURE => "damaged_infrastructure"
  | DISPLACED_VEGETATION => "displaced_vegetation"
  end.

Definition priority_points (zone : DamageZone) : Z :=
  if String.eqb (severity zone) "catastrophic" then 4
  else if String.eqb (severity zone) "severe" then 3
  else if String.eqb (severity zone) "moderate" then 2
  else 1.

Definition _calculate_emergency_priority (damage_zones : list DamageZone) : string :=
  let priority_score :=
    fold_left (fun score zone => (score + priority_points zone)%Z) damage_zones 0%Z in
  if (priority_score >=? 10)%Z then "critical"
  else if (priority_score >=? 6)%Z then "high"
  else if (priority_score >=? 3)%Z then "medium"
  else "low".

(** An entry of [damage_by_type]. *)
Record type_stats : Type := mkTypeStats {
  stats_count : Z;
  total_area_sq_meters : Q;
  avg_confidence : Q
}.

(** The three [+=] on the entry of [zone_type], created with zeros when
    the key is new. *)
Fixpoint type_stats_add (damage_by_type : list (string * type_stats))
         (zone_type : string) (area confidence : Q)
  : list (string * type_stats) :=
  match damage_by_type with
  | [] =>
      [(zone_type, mkTypeStats (0 + 1) (0 + area) (0 + confidence))]
  | (k, st) :: rest =>
      if String.eqb k zone_type
      then (k, mkTypeStats (stats_count st + 1)
                           (total_area_sq_meters st + area)
                           (avg_confidence st + confidence)) :: rest
      else (k, st) :: type_stats_add rest zone_type area confidence
  end.

Record assessment_state : Type := mkAssessmentState {
  damage_by_type : list (string * type_stats);
  damage_by_severity : list (string * Q);
  total_damaged_area : Q
}.

(** The loop of [_assess_overall_damage] over the zones. *)
Fixpoint assess_loop (damage_zones : list DamageZone) (st : assessment_state)
  : PyExc.outcome assessment_state :=
  match damage_zones with
  | [] => PyExc.Return st
  | zone :: rest =>
      let zone_type := zone_type_value (zone_type zone) in
      let by_type :=
        type_stats_add (damage_by_type st) zone_type
                       (area_sq_meters zone) (confidence zone) in
      PyExc.and_then
        (PyExc.dict_add (fun v => v + area_sq_meters zone)
                        (damage_by_severity st) (severity zone))
        (fun by_severity =>
           assess_loop rest
             (mkAssessmentState by_type by_severity
                                (total_damaged_area st + area_sq_meters zone)))
  end.

Record OverallAssessment : Type := mkAssessment {
  total_damage_zones : nat;
  total_damaged_area_sq_meters : Q;
  damage_percentage : Q;
  assessed_by_type : list (string * type_stats);
  assessed_by_severity : list (string * Q);
  structures_affected : Z;
  emergency_priority : string
}.

(** [stats["avg_confidence"] /= stats["count"]] when the count is
    positive. *)
Definition average_entry (entry : string * type_stats)
  : PyExc.outcome (string * type_stats) :=
  let st := snd entry in
  if (stats_count st >? 0)%Z
  then PyExc.and_then
         (PyExc.lift (truediv (avg_confidence st) (inject_Z (stats_count st))))
         (fun avg => PyExc.Return
                       (fst entry,
                        mkTypeStats (stats_count st) (total_area_sq_meters st) avg))
  else PyExc.Return entry.

Fixpoint average_entries (entries : list (string * type_stats))
  : PyExc.outcome (list (string * type_stats)) :=
  match entries with
  | [] => PyExc.Return []
  | entry :: rest =>
      PyExc.and_then (average_entry entry) (fun e =>
      PyExc.and_then (average_entries rest) (fun es => PyExc.Return (e :: es)))
  end.

Definition _assess_overall_damage (pixel_to_meter_ratio : Q)
    (damage_zones : list DamageZone) (image_shape : Z * Z)
  : PyExc.outcome OverallAssessment :=
  let total_area :=
    inject_Z (fst image_shape * snd image_shape) * pixel_to_meter_ratio in
  PyExc.and_then
    (assess_loop damage_zones
       (mkAssessmentState []
          [("minor", 0); ("moderate", 0); ("severe", 0); ("catastrophic", 0)]%string
          0))
    (fun st =>
  PyExc.and_then (average_entries (damage_by_type st)) (fun by_type =>
  PyExc.and_then
    (PyExc.lift (truediv (total_damaged_area st) total_area))
    (fun fraction =>
  let damage_percentage := fraction * 100 in
  PyExc.Return
    (mkAssessment (length damage_zones) (total_damaged_area st) damage_percentage
                  by_type (damage_by_severity st)
                  (fold_left Z.add (map affected_structures damage_zones) 0%Z)
                  (_calculate_emergency_priority damage_zones))))).

End DisasterAnalyzer.

(** ** numpy operations on label grids *)

Module NpGrid.

(** The common length of two axes under numpy's broadcasting rule. *)
Definition broadcast_dim (m n : nat) : option nat :=
  if (m =? n)%nat then Some m
  else if (m =? 1)%nat then Some n
  else if (n =? 1)%nat then Some m
  else None.

(** The cell of [a] that position [(i, j)] of a broadcast result reads: an
    axis of length 1 is read at 0. *)
Definition bget {A : Type} (d : A) (a : ndarray A) (i j : nat) : A :=
  let i' := if (fst (shape a) =? 1)%nat then 0%nat else i in
  let j' := if (snd (shape a) =? 1)%nat then 0%nat else j in
  nth (i' * snd (shape a) + j') (data a) d.

Definition tabulate {A : Type} (h w : nat) (f : nat -> nat -> A) : ndarray A :=
  mkArray (h, w) (flat_map (fun i => map (f i) (seq 0 w)) (seq 0 h)).

(** [(a != b).astype(np.uint8)]: the shapes are broadcast; shapes that
    cannot be broadcast are an error of numpy. *)
Definition not_equal (a b : ndarray nat) : result (ndarray Z) :=
  match broadcast_dim (fst (shape a)) (fst (shape b)),
        broadcast_dim (snd (shape a)) (snd (shape b)) with
  | Some h, Some w =>
      Ok (tabulate h w (fun i j =>
            if (bget 0%nat a i j =? bget 0%nat b i j)%nat then 0%Z else 1%Z))
  | _, _ => Raise ValueError
  end.

Definition shape_eqb (s t : nat * nat) : bool :=
  ((fst s =? fst t) && (snd s =? snd t))%nat.

(** [a[mask]] for a boolean mask: the cells under [True], in row-major
    order; the shapes must agree. *)
Definition select {A : Type} (a : ndarray A) (mask : ndarray bool)
  : result (list A) :=
  if shape_eqb (shape a) (shape mask)
  then Ok (map fst (filter snd (combine (data a) (data mask))))
  else Raise IndexError.

(** [labels == label_id]. *)
Definition equals (labels : ndarray nat) (label_id : nat) : ndarray bool :=
  mkArray (shape labels) (map (Nat.eqb label_id) (data labels)).

(** [counts[x] += 1]. *)
Fixpoint incr (x : nat) (counts : list nat) : list nat :=
  match counts, x with
  | [], _ => []
  | c :: rest, O => S c :: rest
  | c :: rest, S x' => c :: incr x' rest
  end.

(** [np.bincount(xs, minlength=minlength)]. *)
Definition bincount (xs : list nat) (minlength : nat) : list nat :=
  let n := match xs with
           | [] => minlength
           | _ => Nat.max minlength (S (list_max xs))
           end in
  fold_left (fun counts x => incr x counts) xs (repeat 0%nat n).

Fixpoint argmax_from (l : list nat) (i best_i best_v : nat) : nat :=
  match l with
  | [] => best_i
  | v :: rest =>
      if (best_v <? v)%nat then argmax_from rest (S i) i v
      else argmax_from rest (S i) best_i best_v
  end.

(** [counts.argmax()]: the first index of the maximum; an error on an
    empty array. *)
Definition argmax (l : list nat) : result nat :=
  match l with
  | [] => Raise ValueError
  | v :: rest => Ok (argmax_from rest 1 0 v)
  end.

(** Sum and mean of floats, [sum(l)] and [np.mean(l)]. *)
Definition Qsum (l : list Q) : Q := fold_left Qplus l 0.
Definition Qmean (l : list Q) : Q := Qsum l / inject_Z (Z.of_nat (length l)).

(** [n / d] for two counts. *)
Definition ratio (n d : nat) : Q :=
  inject_Z (Z.of_nat n) / inject_Z (Z.of_nat d).

(** [n / d] for two counts as numpy divides them: both become binary64
    numbers, then are divided in binary64 (a zero [d] gives nan or inf, no
    exception).  The counts are below 2^63, as numpy's int64 requires. *)
Definition float_of_count (n : nat) : PrimFloat.float :=
  PrimFloat.of_uint63 (Uint63.of_Z (Z.of_nat n)).

Definition float_ratio (n d : nat) : PrimFloat.float :=
  PrimFloat.div (float_of_count n) (float_of_count d).

(** [a > b] on binary64 numbers (false when one of them is nan). *)
Definition float_gt (a b : PrimFloat.float) : bool := PrimFloat.ltb b a.

(** [f(a, b)] cell by cell, the shapes being broadcast as in [not_equal]. *)
Definition broadcast_map2 {A B C : Type} (da : A) (db : B) (f : A -> B -> C)
    (a : ndarray A) (b : ndarray B) : result (ndarray C) :=
  match broadcast_dim (fst (shape a)) (fst (shape b)),
        broadcast_dim (snd (shape a)) (snd (shape b)) with
  | Some h, Some w => Ok (tabulate h w (fun i j => f (bget da a i j) (bget db b i j)))
  | _, _ => Raise ValueError
  end.

End NpGrid.

Import NpGrid.

(** ** multiclass_analyzer.py *)

Module MultiClassAnalyzer.

Inductive ChangeType : Type :=
| DEFORESTATION
| REFORESTATION
| URBANIZATION
| URBAN_DECLINE
| WATER_INCREASE
| WATER_DECREASE
| BARREN_TO_VEGETATION
| VEGETATION_TO_BARREN
| DISASTER_DAMAGE
| RECOVERY
| NO_CHANGE.

(** [ChangeType.value]. *)
Definition value (t : ChangeType) : string :=
  match t with
  | DEFORESTATION => "deforestation"
  | REFORESTATION => "reforestation"
  | URBANIZATION => "urbanization"
  | URBAN_DECLINE => "urban_decline"
  | WATER_INCREASE => "water_increase"
  | WATER_DECREASE => "water_decrease"
  | BARREN_TO_VEGETATION => "barren_to_vegetation"
  | VEGETATION_TO_BARREN => "vegetation_to_barren"
  | DISASTER_DAMAGE => "disaster_damage"
  | RECOVERY => "recovery"
  | NO_CHANGE => "no_change"
  end.

Record ChangeDetection : Type := mkChangeDetection {
  change_type : ChangeType;
  confidence : Q;
  bbox : Z * Z * Z * Z;
  area_hectares : Q;
  severity : string
}.

(** [LAND_COVER_CLASSES.get(class_id, "unknown")]. *)
Definition LAND_COVER_CLASSES_get (class_id : nat) : string :=
  match class_id with
  | 0%nat => "water"
  | 1%nat => "forest"
  | 2%nat => "urban"
  | 3%nat => "agriculture"
  | 4%nat => "barren"
  | 5%nat => "grassland"
  | 6%nat => "wetland"
  | 7%nat => "ice_snow"
  | _ => "unknown"
  end.

Definition CHANGE_RULES : list ((string * string) * ChangeType) :=
  [ (("forest", "urban"), URBANIZATION);
    (("forest", "barren"), DEFORESTATION);
    (("forest", "agriculture"), DEFORESTATION);
    (("urban", "barren"), DISASTER_DAMAGE);
    (("urban", "water"), DISASTER_DAMAGE);
    (("barren", "forest"), REFORESTATION);
    (("barren", "urban"), URBANIZATION);
    (("barren", "water"), WATER_INCREASE);
    (("water", "barren"), WATER_DECREASE);
    (("water", "urban"), URBANIZATION);
    (("agriculture", "urban"), URBANIZATION);
    (("agriculture", "barren"), VEGETATION_TO_BARREN);
    (("barren", "agriculture"), BARREN_TO_VEGETATION);
    (("grassland", "urban"), URBANIZATION);
    (("grassland", "barren"), VEGETATION_TO_BARREN) ]%string.

(** Lookup in a dict keyed by pairs of names. *)
Fixpoint rules_get (rules : list ((string * string) * ChangeType))
         (key : string * string) : option ChangeType :=
  match rules with
  | [] => None
  | (k, t) :: rest =>
      if String.eqb (fst k) (fst key) && String.eqb (snd k) (snd key)
      then Some t else rules_get rest key
  end.

Definition _generate_change_map (before after : ndarray nat) : result (ndarray Z) :=
  not_equal before after.

(** The percentages, their differences and the comparisons with 0.3 are
    in binary64. *)
Definition _is_disaster_pattern (before_classes after_classes : list nat) : bool :=
  let before_counts := bincount before_classes 8 in
  let after_counts := bincount after_classes 8 in
  let before_pct :=
    fun k => float_ratio (nth k before_counts 0%nat) (length before_classes) in
  let after_pct :=
    fun k => float_ratio (nth k after_counts 0%nat) (length after_classes) in
  let barren_increase := PrimFloat.sub (after_pct 4%nat) (before_pct 4%nat) in
  let water_increase := PrimFloat.sub (after_pct 0%nat) (before_pct 0%nat) in
  float_gt barren_increase 0.3%float || float_gt water_increase 0.3%float.

Definition _classify_region_change
    (before_seg after_seg : ndarray nat) (region_mask : ndarray bool)
  : result ChangeType :=
  before_classes <- select before_seg region_mask ;;
  after_classes <- select after_seg region_mask ;;
  before_dominant <- argmax (bincount before_classes 0) ;;
  after_dominant <- argmax (bincount after_classes 0) ;;
  let before_class_name := LAND_COVER_CLASSES_get before_dominant in
  let after_class_name := LAND_COVER_CLASSES_get after_dominant in
  let transition := (before_class_name, after_class_name) in
  match rules_get CHANGE_RULES transition with
  | Some t => Ok t
  | None =>
      if _is_disaster_pattern before_classes after_classes
      then Ok DISASTER_DAMAGE
      else Ok NO_CHANGE
  end.

(** Python's [max(a, b)] and [min(a, b)]: the first argument unless the
    second is strictly beyond it. *)
Definition py_max (a b : Q) : Q := if Qgtb b a then b else a.
Definition py_min (a b : Q) : Q := if Qltb b a then b else a.

Definition _estimate_confidence
    (before_seg after_seg : ndarray nat) (region_mask : ndarray bool)
  : result Q :=
  before_region <- select before_seg region_mask ;;
  after_region <- select after_seg region_mask ;;
  before_mode <- argmax (bincount before_region 0) ;;
  after_mode <- argmax (bincount after_region 0) ;;
  let before_consistency :=
    ratio (length (filter (Nat.eqb before_mode) before_region)) (length before_region) in
  let after_consistency :=
    ratio (length (filter (Nat.eqb after_mode) after_region)) (length after_region) in
  let confidence := (before_consistency + after_consistency) / 2 in
  Ok (py_min 0.95 (py_max 0.3 confidence)).

Definition ChangeType_eqb (a b : ChangeType) : bool :=
  String.eqb (value a) (value b).

Definition _calculate_severity
    (change_type : ChangeType) (area_hectares confidence : Q) : string :=
  let severity_score := 0%Z in
  let severity_score :=
    if Qgtb area_hectares 1000 then (severity_score + 3)%Z
    else if Qgtb area_hectares 100 then (severity_score + 2)%Z
    else if Qgtb area_hectares 10 then (severity_score + 1)%Z
    else severity_score in
  let critical_changes := [DEFORESTATION; DISASTER_DAMAGE; WATER_DECREASE] in
  let high_changes := [URBANIZATION; VEGETATION_TO_BARREN] in
  let severity_score :=
    if existsb (ChangeType_eqb change_type) critical_changes
    then (severity_score + 2)%Z
    else if existsb (ChangeType_eqb change_type) high_changes
    then (severity_score + 1)%Z
    else severity_score in
  let severity_score :=
    if Qgtb confidence 0.8 then (severity_score + 1)%Z else severity_score in
  if (severity_score >=? 5)%Z then "critical"
  else if (severity_score >=? 3)%Z then "high"
  else if (severity_score >=? 2)%Z then "medium"
  else "low".

(** A row of the statistics of [cv2.connectedComponentsWithStats]. *)
Record cc_stat : Type := mkStat {
  CC_STAT_LEFT : Z;
  CC_STAT_TOP : Z;
  CC_STAT_WIDTH : Z;
  CC_STAT_HEIGHT : Z;
  CC_STAT_AREA : Z
}.

Definition _get_bounding_box (stats : cc_stat) : Z * Z * Z * Z :=
  (CC_STAT_LEFT stats, CC_STAT_TOP stats, CC_STAT_WIDTH stats, CC_STAT_HEIGHT stats).

Section Analyzer.

(** [self.pixel_to_hectare_ratio]. *)
Variable pixel_to_hectare_ratio : Q.

Variables before_seg after_seg : ndarray nat.

(** The label grid and the statistics OpenCV returns for the change map
    (8-connectivity); row 0 of the statistics is the background. *)
Variable labels : ndarray nat.
Variable stats : list cc_stat.

Variable confidence_scores : option (ndarray Q).

(** The loop of [_detect_change_regions] over the label ids. *)
Fixpoint regions_loop (label_ids : list nat) (detections : list ChangeDetection)
  : result (list ChangeDetection) :=
  match label_ids with
  | [] => Ok detections
  | label_id :: rest =>
      let region_mask := equals labels label_id in
      match nth_error stats label_id with
      | None => Raise IndexError
      | Some st =>
          let bbox := _get_bounding_box st in
          let area_pixels := CC_STAT_AREA st in
          let area_hectares := inject_Z area_pixels * pixel_to_hectare_ratio in
          if Qltb area_hectares 0.1 then regions_loop rest detections
          else
            change_type <- _classify_region_change before_seg after_seg region_mask ;;
            region_confidence <-
              match confidence_scores with
              | Some scores =>
                  cells <- select scores region_mask ;; Ok (Qmean cells)
              | None => _estimate_confidence before_seg after_seg region_mask
              end ;;
            let severity :=
              _calculate_severity change_type area_hectares region_confidence in
            let detection :=
              mkChangeDetection change_type region_confidence bbox
                                area_hectares severity in
            regions_loop rest (detections ++ [detection])
      end
  end.

Definition _detect_change_regions : result (list ChangeDetection) :=
  let num_labels := length stats in
  regions_loop (seq 1 (num_labels - 1)) [].

End Analyzer.

(** *** Transition codes and summaries *)

(** [astype(np.uint16)] and arithmetic in [uint16]. *)
Definition uint16 (n : Z) : Z := (n mod 65536)%Z.

(** One cell of [before.astype(np.uint16) * 100 + after.astype(np.uint16)]. *)
Definition transition_code (before after : nat) : Z :=
  uint16 (uint16 (uint16 (Z.of_nat before) * 100) + uint16 (Z.of_nat after)).

Definition _generate_class_transition_map (before after : ndarray nat)
  : result (ndarray Z) :=
  broadcast_map2 0%nat 0%nat transition_code before after.

(** [_get_severity_summary]: the dict has the four keys and no other. *)
Fixpoint severity_counts_loop (detections : list ChangeDetection)
         (severity_counts : list (string * nat))
  : PyExc.outcome (list (string * nat)) :=
  match detections with
  | [] => PyExc.Return severity_counts
  | detection :: rest =>
      PyExc.and_then
        (PyExc.dict_add S severity_counts (severity detection))
        (severity_counts_loop rest)
  end.

Definition _get_severity_summary (detections : list ChangeDetection)
  : PyExc.outcome (list (string * nat)) :=
  severity_counts_loop detections
    [("low", 0%nat); ("medium", 0%nat); ("high", 0%nat); ("critical", 0%nat)]%string.

End MultiClassAnalyzer.

(** ** scikit-learn's DBSCAN *)

Module Sklearn.

Definition point : Type := (Q * Q)%type.

(** Squared Euclidean distance. *)
Definition sq_dist (p q : point) : Q :=
  (fst p - fst q) * (fst p - fst q) + (snd p - snd q) * (snd p - snd q).

(** [radius_neighbors] with radius [eps]: the indices of the points at
    distance at most [eps] of [p] (the point itself included). *)
Definition neighborhood (eps : Q) (points : list point) (p : point) : list nat :=
  map fst
      (filter (fun iq => Qle_bool (sq_dist p (snd iq)) (eps * eps))
              (combine (seq 0 (length points)) points)).

(** [labels[i]]; the indices met are below the number of points. *)
Definition label_at (labels : list Z) (i : nat) : Z := nth i labels 0%Z.

(** [labels[i] = v]. *)
Fixpoint set_label (i : nat) (v : Z) (labels : list Z) : list Z :=
  match labels, i with
  | [], _ => []
  | _ :: rest, O => v :: rest
  | x :: rest, S i' => x :: set_label i' v rest
  end.

(** The still unlabelled neighbours of a point, pushed on the stack. *)
Definition push_unlabelled (labels : list Z) (neighb : list nat) (stack : list nat)
  : list nat :=
  fold_left (fun st v => if (label_at labels v =? -1)%Z then v :: st else st)
            neighb stack.

(** The inner [while True] loop of [dbscan_inner]: depth-first growth of
    cluster [label_num] from point [i].  [None] when the bound [fuel] on
    the number of turns is reached. *)
Fixpoint expand (fuel : nat) (is_core : list bool) (neighborhoods : list (list nat))
         (label_num : Z) (labels : list Z) (stack : list nat) (i : nat)
  : option (list Z) :=
  match fuel with
  | O => None
  | S fuel' =>
      let '(labels1, stack1) :=
        if (label_at labels i =? -1)%Z then
          let labels1 := set_label i label_num labels in
          if nth i is_core false
          then (labels1, push_unlabelled labels1 (nth i neighborhoods []) stack)
          else (labels1, stack)
        else (labels, stack) in
      match stack1 with
      | [] => Some labels1
      | top :: stack2 =>
          expand fuel' is_core neighborhoods label_num labels1 stack2 top
      end
  end.

(** The outer loop of [dbscan_inner] over the points. *)
Fixpoint dbscan_inner (fuel : nat) (is_core : list bool)
         (neighborhoods : list (list nat)) (indices : list nat)
         (label_num : Z) (labels : list Z) : option (list Z) :=
  match indices with
  | [] => Some labels
  | i :: rest =>
      if negb (label_at labels i =? -1)%Z || negb (nth i is_core false)
      then dbscan_inner fuel is_core neighborhoods rest label_num labels
      else
        match expand fuel is_core neighborhoods label_num labels [] i with
        | None => None
        | Some labels' =>
            dbscan_inner fuel is_core neighborhoods rest (label_num + 1)%Z labels'
        end
  end.

(** [DBSCAN(eps=eps, min_samples=min_samples).fit(points).labels_]: noise
    is labelled -1.  [eps] must be positive.  The turns of the inner loop
    are bounded by [n * (n + 1) + 1] for [n] points, which suffices
    (lemma [expand_terminates]); [OutOfFuel] is the bound reached. *)
Definition DBSCAN_fit (eps : Q) (min_samples : nat) (points : list point)
  : result (list Z) :=
  if Qle_bool eps 0 then Raise ValueError
  else
    let n := length points in
    let neighborhoods := map (neighborhood eps points) points in
    let n_neighbors := map (@length nat) neighborhoods in
    let core_samples := map (fun k => (min_samples <=? k)%nat) n_neighbors in
    match dbscan_inner (S (n * S n)) core_samples neighborhoods (seq 0 n) 0%Z
                       (repeat (-1)%Z n) with
    | Some labels => Ok labels
    | None => Raise OutOfFuel
    end.

End Sklearn.

(** ** geospatial_processor.py *)

Module GeospatialProcessor.

Record GeoBounds : Type := mkGeoBounds {
  north : Q;
  south : Q;
  east : Q;
  west : Q
}.

(** [self.default_bounds] of [GeospatialProcessor.__init__]. *)
Definition default_bounds : GeoBounds :=
  mkGeoBounds 40 39 (-73) (-74).

(** The closure [pixel_to_geo] that [_create_pixel_to_geo_transformer]
    returns for [image_shape = (height, width)] and [geo_bounds]; the result
    is the pair [(latitude, longitude)]. *)
Definition _create_pixel_to_geo_transformer
    (image_shape : Z * Z) (geo_bounds : GeoBounds)
    (pixel_x pixel_y : Q) : result (Q * Q) :=
  let '(height, width) := image_shape in
  norm_x <- truediv pixel_x (inject_Z width) ;;
  t <- truediv pixel_y (inject_Z height) ;;
  let norm_y := 1 - t in
  let longitude := west geo_bounds + norm_x * (east geo_bounds - west geo_bounds) in
  let latitude := south geo_bounds + norm_y * (north geo_bounds - south geo_bounds) in
  Ok (latitude, longitude).

(** *** Clustering *)

Import MultiClassAnalyzer.

(** An entry of the list [cluster_nearby_changes] returns; [kind] is its
    key ["type"]. *)
Record ClusterGroup : Type := mkGroup {
  kind : string;
  detections : list ChangeDetection;
  count : nat;
  dominant_change_type : string;
  total_area_hectares : Q;
  max_severity : string;
  avg_confidence : Q
}.

(** Centre of the bounding box of a detection. *)
Definition center (detection : ChangeDetection) : Sklearn.point :=
  let '(x, y, w, h) := bbox detection in
  (inject_Z x + inject_Z w / 2, inject_Z y + inject_Z h / 2).

(** [clusters[label].append(d)], the entry being created at the end of the
    dict when the key is new. *)
Fixpoint dict_append (clusters : list (Z * list ChangeDetection))
         (label : Z) (d : ChangeDetection) : list (Z * list ChangeDetection) :=
  match clusters with
  | [] => [(label, [d])]
  | (k, ds) :: rest =>
      if (k =? label)%Z then (k, ds ++ [d]) :: rest
      else (k, ds) :: dict_append rest label d
  end.

(** The dict [clusters] after the loop over [enumerate(labels)]. *)
Definition group_by_label (labels : list Z) (change_detections : list ChangeDetection)
  : list (Z * list ChangeDetection) :=
  fold_left (fun clusters ld => dict_append clusters (fst ld) (snd ld))
            (combine labels change_detections) [].

(** Python's [max(l, key=key)]: the first element whose key is maximal; an
    error on an empty sequence. *)
Fixpoint max_by_from {A : Type} (key : A -> nat) (l : list A) (best : A) : A :=
  match l with
  | [] => best
  | x :: rest =>
      if (key best <? key x)%nat then max_by_from key rest x
      else max_by_from key rest best
  end.

Definition py_max_by {A : Type} (key : A -> nat) (l : list A) : result A :=
  match l with
  | [] => Raise ValueError
  | x :: rest => Ok (max_by_from key rest x)
  end.

(** [l.count(x)] on strings. *)
Definition str_count (l : list string) (x : string) : nat :=
  length (filter (String.eqb x) l).

(** [severity_order.index(x) if x in severity_order else 0]. *)
Definition severity_rank (x : string) : nat :=
  if String.eqb x "low" then 0
  else if String.eqb x "medium" then 1
  else if String.eqb x "high" then 2
  else if String.eqb x "critical" then 3
  else 0.

Definition individual (detection : ChangeDetection) : ClusterGroup :=
  mkGroup "individual" [detection] 1
          (value (change_type detection))
          (area_hectares detection)
          (severity detection)
          (confidence detection).

Section Clustering.

(** The order in which Python iterates over [set(l)]: it is not fixed by
    the language. *)
Variable set_order : list string -> list string.

(** The summary of one cluster. *)
Definition cluster_summary (detections : list ChangeDetection)
  : result ClusterGroup :=
  let change_types := map (fun d => value (change_type d)) detections in
  dominant_type <- py_max_by (str_count change_types) (set_order change_types) ;;
  let severities := map severity detections in
  max_severity <- py_max_by severity_rank severities ;;
  let total_area := Qsum (map area_hectares detections) in
  avg_confidence <-
    truediv (Qsum (map confidence detections))
            (inject_Z (Z.of_nat (length detections))) ;;
  Ok (mkGroup "cluster" detections (length detections) dominant_type
              total_area max_severity avg_confidence).

(** The loop over [clusters.items()]. *)
Fixpoint summarize (items : list (Z * list ChangeDetection))
         (clustered_changes : list ClusterGroup) : result (list ClusterGroup) :=
  match items with
  | [] => Ok clustered_changes
  | (cluster_id, detections) :: rest =>
      if (cluster_id =? -1)%Z
      then summarize rest (clustered_changes ++ map individual detections)
      else
        group <- cluster_summary detections ;;
        summarize rest (clustered_changes ++ [group])
  end.

Definition cluster_nearby_changes
    (change_detections : list ChangeDetection) (max_distance_meters : Q)
  : result (list ClusterGroup) :=
  match change_detections with
  | [] => Ok []
  | _ =>
      let points := map center change_detections in
      let max_distance_pixels := max_distance_meters / 10 in
      labels <- Sklearn.DBSCAN_fit max_distance_pixels 1 points ;;
      let clusters := group_by_label labels change_detections in
      summarize clusters []
  end.

End Clustering.

(** *** Export to GeoJSON and map configuration *)

(** The objects met in a list of detections: a [ChangeDetection], a
    [DamageZone], or a dict decoded from JSON (the router passes such
    dicts), which has none of the attributes read here. *)
Inductive detection_object : Type :=
| ChangeObject (d : ChangeDetection)
| ZoneObject (z : DisasterAnalyzer.DamageZone)
| JsonObject.

(** [hasattr(detection, 'polygon_coords') and detection.polygon_coords]. *)
Definition polygon_attr (o : detection_object) : option (list (Z * Z)) :=
  match o with
  | ZoneObject z =>
      match DisasterAnalyzer.polygon_coords z with
      | Some (p :: ps) => Some (p :: ps)
      | _ => None
      end
  | _ => None
  end.

(** [detection.bbox]. *)
Definition bbox_attr (o : detection_object) : PyExc.outcome (Z * Z * Z * Z) :=
  match o with
  | ChangeObject d => PyExc.Return (bbox d)
  | ZoneObject z => PyExc.Return (DisasterAnalyzer.bbox z)
  | JsonObject => PyExc.Throw PyExc.AttributeError
  end.

(** [detection.change_type], then its [value]. *)
Definition change_type_attr (o : detection_object) : PyExc.outcome string :=
  match o with
  | ChangeObject d => PyExc.Return (value (change_type d))
  | _ => PyExc.Throw PyExc.AttributeError
  end.

(** A feature: [feature_index] is the [i] of its id ["change_{i}"], the
    ring holds [[lon, lat]] pairs; the timestamps read from the clock are
    left out. *)
Record Feature : Type := mkFeature {
  feature_index : nat;
  ring : list (Q * Q);
  prop_change_type : string;
  prop_confidence : Q;
  prop_severity : string;
  prop_area_hectares : Q;
  prop_bbox : Z * Z * Z * Z
}.

Record GeoJson : Type := mkGeoJson {
  metadata_image_shape : Z * Z;
  metadata_bounds : list (string * Q);
  feature_count : nat;
  features : list Feature
}.

(** [asdict(geo_bounds)]. *)
Definition asdict (b : GeoBounds) : list (string * Q) :=
  [("north", north b); ("south", south b); ("east", east b); ("west", west b)]%string.

Section ToGeoJson.

Variable image_shape : Z * Z.
Variable geo_bounds : GeoBounds.

(** [[lon, lat]] of a pixel. *)
Definition lon_lat (pixel : Z * Z) : PyExc.outcome (Q * Q) :=
  PyExc.and_then
    (PyExc.lift (_create_pixel_to_geo_transformer image_shape geo_bounds
                   (inject_Z (fst pixel)) (inject_Z (snd pixel))))
    (fun lat_lon => PyExc.Return (snd lat_lon, fst lat_lon)).

(** The loop that converts the pixels of a ring, in order. *)
Fixpoint lon_lat_all (pixels : list (Z * Z)) : PyExc.outcome (list (Q * Q)) :=
  match pixels with
  | [] => PyExc.Return []
  | pixel :: rest =>
      PyExc.and_then (lon_lat pixel) (fun c =>
      PyExc.and_then (lon_lat_all rest) (fun cs => PyExc.Return (c :: cs)))
  end.

(** [a != b] on two [[lon, lat]] lists. *)
Definition coords_differ (a b : Q * Q) : bool :=
  negb (Qeq_bool (fst a) (fst b) && Qeq_bool (snd a) (snd b)).

(** The ring of the geometry of a detection. *)
Definition geometry_ring (o : detection_object) : PyExc.outcome (list (Q * Q)) :=
  match polygon_attr o with
  | Some polygon_coords =>
      PyExc.and_then (lon_lat_all polygon_coords) (fun geo_coords =>
      match geo_coords with
      | [] => PyExc.Throw (PyExc.Builtin IndexError)
      | first :: _ =>
          if coords_differ first (last geo_coords first)
          then PyExc.Return (geo_coords ++ [first])
          else PyExc.Return geo_coords
      end)
  | None =>
      PyExc.and_then (bbox_attr o) (fun box =>
      let '(x, y, w, h) := box in
      let corners :=
        [(x, y); (x + w, y); (x + w, y + h); (x, y + h); (x, y)]%Z in
      lon_lat_all corners)
  end.

(** The body of the loop of [convert_to_geojson] for detection [i]. *)
Definition feature_of (i : nat) (o : detection_object) : PyExc.outcome Feature :=
  PyExc.and_then (geometry_ring o) (fun geometry =>
  PyExc.and_then (change_type_attr o) (fun ct =>
  match o with
  | ChangeObject d =>
      PyExc.Return (mkFeature i geometry ct (confidence d) (severity d)
                              (area_hectares d) (bbox d))
  | _ => PyExc.Throw PyExc.AttributeError
  end)).

(** The loop over [enumerate(change_detections)]: an exception skips the
    detection. *)
Fixpoint features_loop (i : nat) (objects : list detection_object)
         (features : list Feature) : list Feature :=
  match objects with
  | [] => features
  | o :: rest =>
      match feature_of i o with
      | PyExc.Return feature => features_loop (S i) rest (features ++ [feature])
      | PyExc.Throw _ => features_loop (S i) rest features
      end
  end.

Definition feature_collection (change_detections : list detection_object) : GeoJson :=
  let features := features_loop 0 change_detections [] in
  mkGeoJson image_shape (asdict geo_bounds) (length features) features.

End ToGeoJson.

Definition convert_to_geojson (change_detections : list detection_object)
    (image_shape : Z * Z) (geo_bounds : option GeoBounds) : GeoJson :=
  let geo_bounds :=
    match geo_bounds with
    | None => default_bounds
    | Some b => b
    end in
  feature_collection image_shape geo_bounds change_detections.

(** [_get_style_id_for_change_type] and the ids of the styles that
    [_add_kml_styles] adds to the document. *)
Definition style_mapping : list (string * string) :=
  [("deforestation", "deforestation");
   ("urbanization", "urbanization");
   ("water_increase", "water_increase");
   ("water_decrease", "water_decrease");
   ("disaster_damage", "disaster_damage");
   ("burned", "burned");
   ("flooded", "flooded");
   ("collapsed", "collapsed")]%string.

(** [d.get(key, default)]. *)
Definition dict_get_default {V : Type} (d : list (string * V)) (key : string)
    (default : V) : V :=
  match PyExc.dict_get d key with
  | PyExc.Return v => v
  | PyExc.Throw _ => default
  end.

Definition _get_style_id_for_change_type (change_type : string) : string :=
  dict_get_default style_mapping change_type "default"%string.

(** The dict [styles] of [_add_kml_styles]: id, fill colour, outline. *)
Definition kml_styles : list (string * (string * string)) :=
  [("deforestation", ("ff0000ff", "ff000000"));
   ("urbanization", ("ff808080", "ff000000"));
   ("water_increase", ("ffff0000", "ff000000"));
   ("water_decrease", ("ff00ffff", "ff000000"));
   ("disaster_damage", ("ff0000ff", "ff000000"));
   ("burned", ("ff0080ff", "ff000000"));
   ("flooded", ("ffff0000", "ff000000"));
   ("collapsed", ("ff8000ff", "ff000000"));
   ("default", ("ff00ff00", "ff000000"))]%string.

Record GeoCoordinate : Type := mkGeoCoordinate {
  latitude : Q;
  longitude : Q;
  altitude : option Q
}.

(** The centre that [create_mapbox_configuration] and
    [create_leaflet_configuration] compute: the one given, else the middle
    of the bounds of the metadata when that dict is there and not empty,
    else a fixed point. *)
Definition map_center (metadata_bounds : option (list (string * Q)))
    (center_coordinate : option GeoCoordinate) : PyExc.outcome GeoCoordinate :=
  match center_coordinate with
  | Some c => PyExc.Return c
  | None =>
      match metadata_bounds with
      | Some (entry :: entries) =>
          let bounds := entry :: entries in
          PyExc.and_then (PyExc.dict_get bounds "north"%string) (fun n =>
          PyExc.and_then (PyExc.dict_get bounds "south"%string) (fun s =>
          let center_lat := (n + s) / 2 in
          PyExc.and_then (PyExc.dict_get bounds "east"%string) (fun e =>
          PyExc.and_then (PyExc.dict_get bounds "west"%string) (fun w =>
          let center_lon := (e + w) / 2 in
          PyExc.Return (mkGeoCoordinate center_lat center_lon None)))))
      | _ => PyExc.Return (mkGeoCoordinate 39.5 (-73.5) None)
      end
  end.

(** The entry ["center"] of the two configurations: Mapbox takes
    [lon, lat], Leaflet [lat, lon]. *)
Definition mapbox_center (geojson_data : GeoJson)
    (center_coordinate : option GeoCoordinate) : PyExc.outcome (list Q) :=
  PyExc.and_then (map_center (Some (metadata_bounds geojson_data)) center_coordinate)
    (fun c => PyExc.Return [longitude c; latitude c]).

Definition leaflet_center (geojson_data : GeoJson)
    (center_coordinate : option GeoCoordinate) : PyExc.outcome (list Q) :=
  PyExc.and_then (map_center (Some (metadata_bounds geojson_data)) center_coordinate)
    (fun c => PyExc.Return [latitude c; longitude c]).

End GeospatialProcessor.

(** ** Vocabulary of the properties *)

Module Props.

Import DisasterAnalyzer MultiClassAnalyzer GeospatialProcessor Sklearn.

(** The algebraic inverse of the transformer, as the round-trip property
    words it: [x = W*(lon-west)/(east-west)],
    [y = H*(1-(lat-south)/(north-south))].  It is not part of the source. *)
Definition geo_to_pixel
    (image_shape : Z * Z) (geo_bounds : GeoBounds)
    (latitude longitude : Q) : Q * Q :=
  let '(height, width) := image_shape in
  (inject_Z width * (longitude - west geo_bounds)
     / (east geo_bounds - west geo_bounds),
   inject_Z height * (1 - (latitude - south geo_bounds)
     / (north geo_bounds - south geo_bounds))).

(** A raster [b] is nowhere below a raster [a] of the same shape. *)
Definition raster_le (a b : ndarray Z) : Prop :=
  shape a = shape b /\ Forall2 Z.le (data a) (data b).

(** Number of occurrences of class [c] in [xs]. *)
Definition occurrences (c : nat) (xs : list nat) : nat :=
  count_occ Nat.eq_dec xs c.

(** [d] is the mode of [xs]: no class occurs more often, and every smaller
    class id occurs less often. *)
Definition dominant (xs : list nat) (d : nat) : Prop :=
  (forall c, (occurrences c xs <= occurrences d xs)%nat)
  /\ (forall c, (c < d)%nat -> (occurrences c xs < occurrences d xs)%nat).

(** Fraction of the cells of [xs] that hold class [c]. *)
Definition fraction (c : nat) (xs : list nat) : Q :=
  inject_Z (Z.of_nat (occurrences c xs)) / inject_Z (Z.of_nat (length xs)).

(** The same fraction as a binary64 number: the two counts, each rounded
    to binary64, divided in binary64. *)
Definition float_fraction (c : nat) (xs : list nat) : PrimFloat.float :=
  PrimFloat.div
    (PrimFloat.of_uint63 (Uint63.of_Z (Z.of_nat (occurrences c xs))))
    (PrimFloat.of_uint63 (Uint63.of_Z (Z.of_nat (length xs)))).

(** In binary64, the fraction of class [c] after, minus the fraction
    before, compares greater than the binary64 number nearest to 0.3. *)
Definition grew_in_binary64 (c : nat) (before after : list nat) : Prop :=
  PrimFloat.ltb 0.3%float
    (PrimFloat.sub (float_fraction c after) (float_fraction c before)) = true.

(** The transition table on class ids, with water = 0, forest = 1,
    urban = 2, agriculture = 3, barren = 4, grassland = 5 (wetland = 6
    and ice_snow = 7 occur in no entry). *)
Definition transition_table (before after : nat) : option ChangeType :=
  match before, after with
  | 1%nat, 2%nat => Some URBANIZATION
  | 1%nat, 4%nat => Some DEFORESTATION
  | 1%nat, 3%nat => Some DEFORESTATION
  | 2%nat, 4%nat => Some DISASTER_DAMAGE
  | 2%nat, 0%nat => Some DISASTER_DAMAGE
  | 4%nat, 1%nat => Some REFORESTATION
  | 4%nat, 2%nat => Some URBANIZATION
  | 4%nat, 0%nat => Some WATER_INCREASE
  | 0%nat, 4%nat => Some WATER_DECREASE
  | 0%nat, 2%nat => Some URBANIZATION
  | 3%nat, 2%nat => Some URBANIZATION
  | 3%nat, 4%nat => Some VEGETATION_TO_BARREN
  | 4%nat, 3%nat => Some BARREN_TO_VEGETATION
  | 5%nat, 2%nat => Some URBANIZATION
  | 5%nat, 4%nat => Some VEGETATION_TO_BARREN
  | _, _ => None
  end.

(** The cell of row [i] and column [j]. *)
Definition cell {A : Type} (d : A) (a : ndarray A) (i j : nat) : A :=
  nth (i * snd (shape a) + j) (data a) d.

(** The shapes [_generate_change_map] cannot combine: on some axis the
    lengths differ and neither is 1. *)
Definition incompatible (s t : nat * nat) : Prop :=
  (fst s <> fst t /\ fst s <> 1%nat /\ fst t <> 1%nat)
  \/ (snd s <> snd t /\ snd s <> 1%nat /\ snd t <> 1%nat).

(** The length of an axis after broadcasting two compatible lengths. *)
Definition broadcast_len (m n : nat) : nat :=
  if (m =? 1)%nat then n else m.

(** Is the label the one of noise, -1? *)
Definition is_noise (label : Z) : bool := (label =? -1)%Z.

(** Number of points still labelled -1. *)
Definition unlabelled (labels : list Z) : nat :=
  length (filter is_noise labels).

(** What a run of the loops keeps: the length, and every label already
    set. *)
Definition extends (labels labels' : list Z) : Prop :=
  length labels' = length labels
  /\ forall j, label_at labels j <> (-1)%Z -> label_at labels' j = label_at labels j.


(** What a cluster entry says of its members. *)
Definition summarizes (g : ClusterGroup) : Prop :=
  let members := detections g in
  let change_types := map (fun d => value (change_type d)) members in
  members <> []
  /\ count g = length members
  /\ total_area_hectares g = Qsum (map area_hectares members)
  /\ avg_confidence g
     = Qsum (map confidence members) / inject_Z (Z.of_nat (length members))
  /\ In (max_severity g) (map severity members)
  /\ (forall d, In d members ->
                (severity_rank (severity d) <= severity_rank (max_severity g))%nat)
  /\ In (dominant_change_type g) change_types
  /\ (forall t, (str_count change_types t
                 <= str_count change_types (dominant_change_type g))%nat).

End Props.

Import Props.

(** ** Concrete inputs *)

Module Inputs.

Import DisasterAnalyzer MultiClassAnalyzer GeospatialProcessor.

(** A square contour of side 200, of area 40000. *)
Definition square_200 : Cv2.contour :=
  [(0, 0); (0, 200); (200, 200); (200, 0)]%Z.

Definition flooded_square : DamageZone :=
  mkDamageZone FLOODED "severe" (0, 0, 201, 201)%Z
    (Cv2.contourArea square_200 * 1) 0.8 0 (Some square_200).

(** Two zones over the same 2x2 square, the second milder than the first. *)
Definition unit_square : list (Z * Z) := [(0, 0); (0, 1); (1, 1); (1, 0)]%Z.

Definition zone_first : DamageZone :=
  mkDamageZone FLOODED "catastrophic" (0, 0, 2, 2)%Z 4 0.8 0 (Some unit_square).

Definition zone_second : DamageZone :=
  mkDamageZone BURNED "minor" (0, 0, 2, 2)%Z 4 0.75 0 (Some unit_square).

(** A 4x4 grid of forest that became urban, as one component of 16
    pixels. *)
Definition forest_4x4 : ndarray nat := mkArray (4, 4)%nat (repeat 1%nat 16).

Definition urban_4x4 : ndarray nat := mkArray (4, 4)%nat (repeat 2%nat 16).

Definition labels_4x4 : ndarray nat := mkArray (4, 4)%nat (repeat 1%nat 16).

Definition whole_4x4 : ndarray bool := mkArray (4, 4)%nat (repeat true 16).

Definition stats_4x4 : list cc_stat :=
  [mkStat 0 0 4 4 0; mkStat 0 0 4 4 16].

(** A row of ten cells whose share of barren land (class 4) goes from one
    half to four fifths, the other cells being wetland (class 6). *)
Definition half_barren : ndarray nat :=
  mkArray (1, 10)%nat [4; 4; 4; 4; 4; 6; 6; 6; 6; 6]%nat.

Definition mostly_barren : ndarray nat :=
  mkArray (1, 10)%nat [4; 4; 4; 4; 4; 4; 4; 4; 6; 6]%nat.

Definition whole_row : ndarray bool := mkArray (1, 10)%nat (repeat true 10).

(** Per-pixel confidences in range, and out of range. *)
Definition scores_ok : ndarray Q := mkArray (4, 4)%nat (repeat 0.9 16).

Definition scores_high : ndarray Q := mkArray (4, 4)%nat (repeat 2 16).

(** Five detections, three near the origin and two further away. *)
Definition detection_at (x y : Z) (t : ChangeType) (s : string) : ChangeDetection :=
  mkChangeDetection t 0.5 (x, y, 2%Z, 2%Z) 1.5 s.

Definition five_detections : list ChangeDetection :=
  [detection_at 0 0 URBANIZATION "low";
   detection_at 500 0 DEFORESTATION "high";
   detection_at 10 10 URBANIZATION "medium";
   detection_at 510 0 DEFORESTATION "low";
   detection_at 20 20 DEFORESTATION "critical"].

(** One possible iteration order of a set of strings. *)
Definition first_seen (l : list string) : list string := nodup string_dec l.

End Inputs.

Import Inputs.

(** ** Further vocabulary *)

Module MoreProps.

Import DisasterAnalyzer MultiClassAnalyzer GeospatialProcessor Sklearn.

(** The three terms of the score of [_calculate_severity] and the level of
    a score. *)
Definition area_score (area_hectares : Q) : Z :=
  if Qgtb area_hectares 1000 then 3
  else if Qgtb area_hectares 100 then 2
  else if Qgtb area_hectares 10 then 1
  else 0.

Definition type_score (t : ChangeType) : Z :=
  match t with
  | DEFORESTATION | DISASTER_DAMAGE | WATER_DECREASE => 2
  | URBANIZATION | VEGETATION_TO_BARREN => 1
  | _ => 0
  end.

Definition confidence_score (confidence : Q) : Z :=
  if Qgtb confidence 0.8 then 1 else 0.

Definition level_of_score (score : Z) : string :=
  if (score >=? 5)%Z then "critical"
  else if (score >=? 3)%Z then "high"
  else if (score >=? 2)%Z then "medium"
  else "low".

(** The four levels of the change vocabulary. *)
Definition change_level (s : string) : Prop :=
  In s ["low"; "medium"; "high"; "critical"]%string.

(** Number of detections of severity [s]. *)
Definition severity_count (s : string) (detections : list ChangeDetection) : nat :=
  length (filter (fun d => String.eqb (MultiClassAnalyzer.severity d) s) detections).

(** The positions, counted from [i], of the [ChangeDetection] objects of a
    list. *)
Fixpoint change_positions (i : nat) (objects : list detection_object) : list nat :=
  match objects with
  | [] => []
  | ChangeObject _ :: rest => i :: change_positions (S i) rest
  | _ :: rest => change_positions (S i) rest
  end.

(** A ring is closed: it has a first point, and its last point is that
    point. *)
Definition closed_ring (r : list (Q * Q)) : Prop :=
  match r with
  | [] => False
  | first :: _ =>
      fst (last r first) == fst first /\ snd (last r first) == snd first
  end.

(** The four levels of the damage vocabulary, and their order. *)
Definition damage_level (s : string) : Prop :=
  In s ["minor"; "moderate"; "severe"; "catastrophic"]%string.

Definition damage_rank (s : string) : nat :=
  if String.eqb s "catastrophic" then 3
  else if String.eqb s "severe" then 2
  else if String.eqb s "moderate" then 1
  else 0.

(** The zone type each disaster type leads to. *)
Definition zone_type_of (t : DisasterType) : DamageZoneType :=
  match t with
  | FLOOD => FLOODED
  | FIRE => BURNED
  | EARTHQUAKE => COLLAPSED
  | _ => DEBRIS
  end.

(** Every cell of a raster is one of [values]. *)
Definition cells_among (values : list Z) (a : ndarray Z) : Prop :=
  Forall (fun v => In v values) (data a).

(** Number of zones and area recorded in [damage_by_type]. *)
Definition recorded_count (by_type : list (string * type_stats)) : Z :=
  fold_right Z.add 0%Z (map (fun e => stats_count (snd e)) by_type).

Definition recorded_area (by_type : list (string * type_stats)) : Q :=
  fold_right Qplus 0 (map (fun e => total_area_sq_meters (snd e)) by_type).

(** Two points of a list, given by their indices, are near: at distance at
    most [eps]. *)
Definition near (eps : Q) (points : list point) (j k : nat) : Prop :=
  (j < length points)%nat /\ (k < length points)%nat
  /\ sq_dist (nth j points (0, 0)) (nth k points (0, 0)) <= eps * eps.

(** [k] is reached from [i] by a chain of steps. *)
Inductive chain (step : nat -> nat -> Prop) : nat -> nat -> Prop :=
| chain_here (i : nat) : chain step i i
| chain_next (i j k : nat) : chain step i j -> step j k -> chain step i k.

(** The detections paired with label [k], in order. *)
Definition members_of (k : Z) (pairs : list (Z * ChangeDetection))
  : list ChangeDetection :=
  map snd (filter (fun ld => (fst ld =? k)%Z) pairs).

End MoreProps.

Import MoreProps.

(** ** Further inputs *)

Module MoreInputs.

Import DisasterAnalyzer MultiClassAnalyzer.

(** An image with no pixel. *)
Definition blank_image : ndarray pixel := mkArray (0, 0)%nat [].

(** The zone of the collapse detector for the square of side 200, at one
    square meter per pixel. *)
Definition collapsed_square : DamageZone :=
  mkDamageZone COLLAPSED "catastrophic" (0, 0, 201, 201)%Z
    (Cv2.contourArea square_200 * 1) 0.7 1 (Some square_200).

(** The detection of the one component of the 4x4 grids, at 0.01 hectare
    per pixel and without per-pixel confidences. *)
Definition urban_detection : ChangeDetection :=
  mkChangeDetection URBANIZATION 0.95 (0, 0, 4, 4)%Z 0.16 "medium".

End MoreInputs.

Import MoreInputs.

(* ================================================================== *)
(** * Part II: properties                                              *)
(* ================================================================== *)

(** ** Coordinate transformer *)

Section PixelToGeo.

Import GeospatialProcessor.

Lemma truediv_nonzero (a b : Q) :
  ~ b == 0 -> truediv a b = Ok (a / b).
Proof.
  intros Hb. unfold truediv.
  destruct (Qeq_bool b 0) eqn:E; [|reflexivity].
  apply Qeq_bool_iff in E. contradiction.
Qed.

Lemma inject_Z_pos_nonzero (n : Z) : (0 < n)%Z -> ~ inject_Z n == 0.
Proof.
  intros Hn E. unfold Qeq in E. simpl in E. lia.
Qed.

Lemma pixel_to_geo_eq (H W : Z) (b : GeoBounds) (x y : Q) :
  (0 < H)%Z -> (0 < W)%Z ->
  _create_pixel_to_geo_transformer (H, W) b x y =
    Ok (south b + (1 - y / inject_Z H) * (north b - south b),
        west b + (x / inject_Z W) * (east b - west b)).
Proof.
  intros HH HW. unfold _create_pixel_to_geo_transformer.
  rewrite (truediv_nonzero x), (truediv_nonzero y)
    by (apply inject_Z_pos_nonzero; assumption).
  reflexivity.
Qed.

(** C5: on an image of positive height and width the transformer returns,
    for every bounds and every pixel, latitude
    [south + (1 - y/H)*(north-south)] and longitude
    [west + (x/W)*(east-west)]; pixel (0,0) of a 100x100 image with bounds
    N=40, S=39, E=-73, W=-74 is sent to latitude 40 and longitude -74. *)
Theorem pixel_to_geo_formula (H W : Z) (b : GeoBounds) (x y : Q) :
  (0 < H)%Z -> (0 < W)%Z ->
  (exists lat lon,
      _create_pixel_to_geo_transformer (H, W) b x y = Ok (lat, lon)
      /\ lon == west b + (x / inject_Z W) * (east b - west b)
      /\ lat == south b + (1 - y / inject_Z H) * (north b - south b))
  /\ (exists lat0 lon0,
      _create_pixel_to_geo_transformer (100%Z, 100%Z) (mkGeoBounds 40 39 (-73) (-74)) 0 0
        = Ok (lat0, lon0)
      /\ lat0 == 40 /\ lon0 == -74).
Proof.
  intros HH HW. split.
  - eexists; eexists. split; [apply pixel_to_geo_eq; assumption|].
    split; reflexivity.
  - eexists; eexists. split; [reflexivity|]. split; reflexivity.
Qed.

Lemma pixel_to_geo_formula_witness :
  ((0 < 100)%Z /\ (0 < 100)%Z)
  /\ exists lat lon,
      _create_pixel_to_geo_transformer (100%Z, 100%Z) default_bounds 50 25
      = Ok (lat, lon)
      /\ lon == west default_bounds
                + (50 / inject_Z 100) * (east default_bounds - west default_bounds)
      /\ lat == south default_bounds
                + (1 - 25 / inject_Z 100)
                  * (north default_bounds - south default_bounds).
Proof.
  assert (H : (0 < 100)%Z) by lia.
  split; [split; exact H|].
  exact (proj1 (pixel_to_geo_formula 100 100 default_bounds 50 25 H H)).
Defined.

Lemma geo_to_pixel_left_inverse (H W : Z) (b : GeoBounds) (x y : Q) :
  (0 < H)%Z -> (0 < W)%Z -> west b < east b -> south b < north b ->
  let lat := south b + (1 - y / inject_Z H) * (north b - south b) in
  let lon := west b + (x / inject_Z W) * (east b - west b) in
  fst (geo_to_pixel (H, W) b lat lon) == x /\
  snd (geo_to_pixel (H, W) b lat lon) == y.
Proof.
  intros HH HW Hew Hsn lat lon. subst lat lon. simpl.
  assert (HW' : ~ inject_Z W == 0) by (apply inject_Z_pos_nonzero; assumption).
  assert (HH' : ~ inject_Z H == 0) by (apply inject_Z_pos_nonzero; assumption).
  assert (He : ~ east b - west b == 0) by (intro E; lra).
  assert (Hn : ~ north b - south b == 0) by (intro E; lra).
  split; field; auto.
Qed.

(** C6: with positive height and width, east > west and north > south, the
    transformer followed by its algebraic inverse gives back the pixel
    (over exact rationals), and the transformer is injective. *)
Theorem pixel_to_geo_roundtrip_injective (H W : Z) (b : GeoBounds) :
  (0 < H)%Z -> (0 < W)%Z -> west b < east b -> south b < north b ->
  (forall x y, exists lat lon,
      _create_pixel_to_geo_transformer (H, W) b x y = Ok (lat, lon)
      /\ fst (geo_to_pixel (H, W) b lat lon) == x
      /\ snd (geo_to_pixel (H, W) b lat lon) == y)
  /\ (forall x1 y1 x2 y2 lat1 lon1 lat2 lon2,
      _create_pixel_to_geo_transformer (H, W) b x1 y1 = Ok (lat1, lon1) ->
      _create_pixel_to_geo_transformer (H, W) b x2 y2 = Ok (lat2, lon2) ->
      lat1 == lat2 -> lon1 == lon2 -> x1 == x2 /\ y1 == y2).
Proof.
  intros HH HW Hew Hsn. split.
  - intros x y. eexists; eexists.
    split; [apply pixel_to_geo_eq; assumption|].
    apply geo_to_pixel_left_inverse; assumption.
  - intros x1 y1 x2 y2 lat1 lon1 lat2 lon2 E1 E2 Elat Elon.
    rewrite pixel_to_geo_eq in E1, E2 by assumption.
    injection E1 as <- <-. injection E2 as <- <-.
    destruct (geo_to_pixel_left_inverse H W b x1 y1 HH HW Hew Hsn) as [A1 B1].
    destruct (geo_to_pixel_left_inverse H W b x2 y2 HH HW Hew Hsn) as [A2 B2].
    cbv zeta in A1, B1, A2, B2. simpl in A1, B1, A2, B2.
    split.
    + rewrite <- A1, <- A2. rewrite Elon. reflexivity.
    + rewrite <- B1, <- B2. rewrite Elat. reflexivity.
Qed.

Lemma pixel_to_geo_roundtrip_injective_witness :
  ((0 < 100)%Z /\ (0 < 100)%Z
   /\ west default_bounds < east default_bounds
   /\ south default_bounds < north default_bounds)
  /\ exists lat lon,
      _create_pixel_to_geo_transformer (100%Z, 100%Z) default_bounds 30 70
      = Ok (lat, lon)
      /\ fst (geo_to_pixel (100%Z, 100%Z) default_bounds lat lon) == 30
      /\ snd (geo_to_pixel (100%Z, 100%Z) default_bounds lat lon) == 70.
Proof.
  assert (H : (0 < 100)%Z) by lia.
  assert (Hew : west default_bounds < east default_bounds) by reflexivity.
  assert (Hsn : south default_bounds < north default_bounds) by reflexivity.
  split; [repeat split; assumption|].
  exact (proj1 (pixel_to_geo_roundtrip_injective 100 100 default_bounds
                  H H Hew Hsn) 30 70).
Defined.

End PixelToGeo.

(** ** Comparisons on rationals *)

Section Comparisons.

Lemma Qgtb_true (a b : Q) : Qgtb a b = true <-> b < a.
Proof.
  unfold Qgtb. rewrite negb_true_iff.
  destruct (Qle_bool a b) eqn:E.
  - apply Qle_bool_iff in E. split; [discriminate | intros H; lra].
  - split; [intros _ | reflexivity].
    destruct (Qlt_le_dec b a) as [H | H]; [exact H|].
    apply Qle_bool_iff in H. congruence.
Qed.

Lemma Qgtb_false (a b : Q) : Qgtb a b = false <-> a <= b.
Proof.
  unfold Qgtb. rewrite negb_false_iff. apply Qle_bool_iff.
Qed.

Lemma Qltb_true (a b : Q) : Qltb a b = true <-> a < b.
Proof. apply (Qgtb_true b a). Qed.

Lemma Qltb_false (a b : Q) : Qltb a b = false <-> b <= a.
Proof. apply (Qgtb_false b a). Qed.

End Comparisons.

(** ** Flood zones *)

Section FloodZones.

Import DisasterAnalyzer.

Open Scope string_scope.

(** What [_estimate_flood_severity] returns, tier by tier. *)
Lemma flood_severity_tiers (area : Q) :
  (10000 < area -> _estimate_flood_severity area = "severe")
  /\ (area <= 10000 -> 1000 < area -> _estimate_flood_severity area = "moderate")
  /\ (area <= 1000 -> _estimate_flood_severity area = "minor")
  /\ _estimate_flood_severity area <> "catastrophic".
Proof.
  unfold _estimate_flood_severity.
  destruct (Qgtb area 10000) eqn:E1; [|destruct (Qgtb area 1000) eqn:E2]; simpl.
  - apply Qgtb_true in E1. repeat split; try reflexivity; try discriminate; intros; lra.
  - apply Qgtb_false in E1. apply Qgtb_true in E2.
    repeat split; try reflexivity; try discriminate; intros; lra.
  - apply Qgtb_false in E1. apply Qgtb_false in E2.
    repeat split; try reflexivity; try discriminate; intros; lra.
Qed.

Variable pixel_to_meter_ratio : Q.
Variable _count_affected_structures : Z * Z * Z * Z -> Z.

Let loop := flood_zones_loop pixel_to_meter_ratio _count_affected_structures.

(** A zone of the result is a zone that was already there or the zone of
    one of the contours. *)
Lemma flood_zones_loop_In (contours : list Cv2.contour) :
  forall zones z,
    In z (loop contours zones) ->
    In z zones \/
    exists contour,
      In contour contours
      /\ ~ Cv2.contourArea contour * pixel_to_meter_ratio < 100
      /\ z = mkDamageZone FLOODED
               (_estimate_flood_severity (Cv2.contourArea contour * pixel_to_meter_ratio))
               (Cv2.boundingRect contour)
               (Cv2.contourArea contour * pixel_to_meter_ratio) 0.8
               (_count_affected_structures (Cv2.boundingRect contour))
               (Some contour).
Proof.
  induction contours as [|c rest IH]; intros zones z Hz; simpl in Hz.
  - left; exact Hz.
  - unfold loop in Hz. simpl in Hz.
    destruct (Qltb (Cv2.contourArea c * pixel_to_meter_ratio) 100) eqn:E.
    + destruct (IH _ _ Hz) as [H | (c' & Hc' & Ha & Hzc)]; [left; exact H|].
      right. exists c'. split; [right; exact Hc' | split; assumption].
    + apply Qltb_false in E.
      destruct (IH _ _ Hz) as [H | (c' & Hc' & Ha & Hzc)].
      * apply in_app_or in H. destruct H as [H | [H | []]]; [left; exact H|].
        right. exists c. split; [left; reflexivity|]. split; [lra|].
        symmetry; exact H.
      * right. exists c'. split; [right; exact Hc' | split; assumption].
Qed.

(** C1 (amended): every zone of [_detect_flood_zones] is a FLOODED zone of
    at least 100 square meters whose severity is "severe" above 10000
    square meters, "moderate" above 1000 and "minor" otherwise, and never
    "catastrophic". *)
Theorem flood_zone_severity (contours : list Cv2.contour) (z : DamageZone) :
  In z (_detect_flood_zones pixel_to_meter_ratio _count_affected_structures contours) ->
  zone_type z = FLOODED
  /\ 100 <= area_sq_meters z
  /\ (10000 < area_sq_meters z -> severity z = "severe")
  /\ (area_sq_meters z <= 10000 -> 1000 < area_sq_meters z ->
      severity z = "moderate")
  /\ (area_sq_meters z <= 1000 -> severity z = "minor")
  /\ severity z <> "catastrophic".
Proof.
  intros Hz. apply flood_zones_loop_In in Hz.
  destruct Hz as [[] | (c & _ & Ha & ->)]. simpl.
  split; [reflexivity|]. split; [lra|].
  apply flood_severity_tiers.
Qed.

End FloodZones.

Section FloodScenario.

Import DisasterAnalyzer.

Open Scope string_scope.

Lemma flood_scenario_zones :
  _detect_flood_zones 1 (fun _ => 0%Z) [square_200] = [flooded_square]
  /\ area_sq_meters flooded_square == 40000.
Proof. split; reflexivity. Qed.

Lemma flood_zone_severity_witness :
  In flooded_square (_detect_flood_zones 1 (fun _ => 0%Z) [square_200])
  /\ zone_type flooded_square = FLOODED
  /\ 100 <= area_sq_meters flooded_square
  /\ (10000 < area_sq_meters flooded_square -> severity flooded_square = "severe")
  /\ (area_sq_meters flooded_square <= 10000 -> 1000 < area_sq_meters flooded_square ->
      severity flooded_square = "moderate")
  /\ (area_sq_meters flooded_square <= 1000 -> severity flooded_square = "minor")
  /\ severity flooded_square <> "catastrophic".
Proof.
  assert (H : In flooded_square (_detect_flood_zones 1 (fun _ => 0%Z) [square_200]))
    by (left; reflexivity).
  split; [exact H|].
  exact (flood_zone_severity 1 (fun _ => 0%Z) [square_200] flooded_square H).
Defined.

(** C1, as stated, fails: a flood zone of 40000 square meters (ratio 1) is
    not "catastrophic". *)
Lemma flood_40000_not_catastrophic :
  ~ (forall ratio count contours z,
        In z (_detect_flood_zones ratio count contours) ->
        10000 < area_sq_meters z -> severity z = "catastrophic").
Proof.
  intros H.
  specialize (H 1 (fun _ => 0%Z) [square_200] flooded_square
                (or_introl eq_refl) ltac:(reflexivity)).
  discriminate H.
Qed.

(** The outline OpenCV reports for a filled block of 200x200 pixels joins
    the centres of its corner pixels: its contour area is 199 * 199. *)
Example contourArea_block_200 :
  Cv2.contourArea [(0, 0); (0, 199); (199, 199); (199, 0)]%Z == 39601
  /\ _estimate_flood_severity 39601 = "severe".
Proof. split; reflexivity. Qed.

End FloodScenario.

(** ** Priority rasters *)

Section Rasters.

Import DisasterAnalyzer.

Open Scope string_scope.

Lemma map_combine_seq_Forall2 {A : Type} (R : A -> A -> Prop)
      (g : nat * A -> A) (l : list A) :
  (forall k v, R v (g (k, v))) ->
  forall start, Forall2 R l (map g (combine (seq start (length l)) l)).
Proof.
  intros Hg. induction l as [|v l IH]; intros start; simpl.
  - constructor.
  - constructor; [apply Hg | apply IH].
Qed.

Lemma map_cells_Forall2 {A : Type} (R : A -> A -> Prop)
      (f : Z -> Z -> A -> A) (a : ndarray A) :
  (forall row col old, R old (f row col old)) ->
  Forall2 R (data a) (data (map_cells f a)).
Proof.
  intros Hf. unfold map_cells. simpl.
  apply map_combine_seq_Forall2. intros k v. apply Hf.
Qed.

(** The bounding-box write takes the maximum: no cell decreases. *)
Lemma maximum_slice_le (a : ndarray Z) (x y w h v : Z) :
  raster_le a (maximum_slice a x y w h v).
Proof.
  split; [reflexivity|].
  unfold maximum_slice. apply map_cells_Forall2.
  intros row col old.
  destruct (in_slice _ _ _ _ && in_slice _ _ _ _); lia.
Qed.

(** A zone without polygon never lowers the evacuation raster, nor the
    relief raster. *)
Lemma bbox_zone_never_lowers (a : ndarray Z) (zone : DamageZone) :
  polygon_of zone = None ->
  raster_le a (evacuation_step a zone) /\ raster_le a (relief_step a zone).
Proof.
  intros Hp. unfold evacuation_step, relief_step.
  destruct (bbox zone) as [[[x y] w] h]. rewrite Hp.
  split; apply maximum_slice_le.
Qed.

(** The fill value of a zone, by severity and by type. *)
Lemma fill_values (zone : DamageZone) :
  (severity zone = "catastrophic" -> priority_value zone = 255%Z)
  /\ (severity zone = "severe" -> priority_value zone = 200%Z)
  /\ (severity zone = "moderate" -> priority_value zone = 150%Z)
  /\ (severity zone <> "catastrophic" -> severity zone <> "severe" ->
      severity zone <> "moderate" -> priority_value zone = 100%Z)
  /\ (zone_type zone = FLOODED \/ zone_type zone = COLLAPSED ->
      difficulty zone = 255%Z)
  /\ (zone_type zone = DEBRIS -> difficulty zone = 200%Z)
  /\ (zone_type zone <> FLOODED -> zone_type zone <> COLLAPSED ->
      zone_type zone <> DEBRIS -> difficulty zone = 150%Z).
Proof.
  unfold priority_value, difficulty.
  repeat split.
  - intros ->; reflexivity.
  - intros ->; reflexivity.
  - intros ->; reflexivity.
  - intros H1 H2 H3.
    apply String.eqb_neq in H1, H2, H3. rewrite H1, H2, H3. reflexivity.
  - intros [-> | ->]; reflexivity.
  - intros ->; reflexivity.
  - destruct (zone_type zone); simpl; intros; congruence.
Qed.

(** C3: on the polygon path the later zone overwrites the raster: after a
    catastrophic flooded zone every cell of the evacuation raster is 255
    and of the relief raster 255; a minor burned zone over the same polygon
    then lowers them to 100 and 150.  The same two zones without polygon
    keep 255. *)
Theorem polygon_fill_lowers_raster :
  _generate_evacuation_priority_map [zone_first] (2, 2)%nat
    = mkArray (2, 2)%nat [255; 255; 255; 255]%Z
  /\ _generate_evacuation_priority_map [zone_first; zone_second] (2, 2)%nat
    = mkArray (2, 2)%nat [100; 100; 100; 100]%Z
  /\ _generate_relief_access_map [zone_first] (2, 2)%nat
    = mkArray (2, 2)%nat [255; 255; 255; 255]%Z
  /\ _generate_relief_access_map [zone_first; zone_second] (2, 2)%nat
    = mkArray (2, 2)%nat [150; 150; 150; 150]%Z
  /\ ~ raster_le (_generate_evacuation_priority_map [zone_first] (2, 2)%nat)
                 (_generate_evacuation_priority_map [zone_first; zone_second] (2, 2)%nat)
  /\ _generate_evacuation_priority_map
       [mkDamageZone FLOODED "catastrophic" (0, 0, 2, 2)%Z 4 0.8 0 None;
        mkDamageZone BURNED "minor" (0, 0, 2, 2)%Z 4 0.75 0 None] (2, 2)%nat
    = mkArray (2, 2)%nat [255; 255; 255; 255]%Z.
Proof.
  repeat split; try reflexivity.
  intros [_ H].
  change (Forall2 Z.le [255; 255; 255; 255]%Z [100; 100; 100; 100]%Z) in H.
  inversion H as [|? ? ? ? Hle _]. lia.
Qed.

End Rasters.

(** ** Spectral indices and ratios *)

Section Ratios.

Import DisasterAnalyzer.

Open Scope string_scope.

Lemma epsilon_pos : 0 < epsilon.
Proof. reflexivity. Qed.

Lemma inject_Z_nonneg (z : Z) : (0 <= z)%Z -> 0 <= inject_Z z.
Proof. intros H. unfold Qle. simpl. lia. Qed.

Lemma np_div_guarded (a b : Q) : 0 < b -> np_div (Fin a) (Fin b) = Fin (a / b).
Proof.
  intros Hb. simpl.
  destruct (Qeq_bool b 0) eqn:E; [|reflexivity].
  apply Qeq_bool_iff in E. lra.
Qed.

(** The three guarded denominators are at least [epsilon] on every uint8
    pixel, and the quotient is a finite number. *)
Lemma guarded_ratios_finite (p : pixel) :
  uint8_pixel p ->
  epsilon <= water_index_den p
  /\ epsilon <= burn_ratio_den p
  /\ epsilon <= post_red_ratio_den p
  /\ water_index p
     = Fin ((inject_Z (green p) - inject_Z (red p)) / water_index_den p)
  /\ burn_ratio p
     = Fin ((inject_Z (red p) - inject_Z (blue p)) / burn_ratio_den p)
  /\ post_red_ratio p = Fin (inject_Z (red p) / post_red_ratio_den p).
Proof.
  intros (Hr & Hg & Hb). unfold uint8 in *.
  pose proof epsilon_pos as He.
  pose proof (inject_Z_nonneg (red p) ltac:(lia)) as Hr'.
  pose proof (inject_Z_nonneg (green p) ltac:(lia)) as Hg'.
  pose proof (inject_Z_nonneg (blue p) ltac:(lia)) as Hb'.
  pose proof (inject_Z_nonneg (red p + green p + blue p) ltac:(lia)) as Hs'.
  assert (D1 : epsilon <= water_index_den p) by (unfold water_index_den; lra).
  assert (D2 : epsilon <= burn_ratio_den p) by (unfold burn_ratio_den; lra).
  assert (D3 : epsilon <= post_red_ratio_den p) by (unfold post_red_ratio_den; lra).
  repeat split; try assumption.
  - unfold water_index. apply np_div_guarded. lra.
  - unfold burn_ratio. apply np_div_guarded. lra.
  - unfold post_red_ratio. apply np_div_guarded. lra.
Qed.

(** C9: the vegetation-loss fraction divides by the mean green before, with
    no epsilon: on a burned pixel whose green is 0 before, the denominator
    is 0, the quotient is nan (or an infinity) and the severity falls to
    "minor"; nothing is raised. *)
Theorem vegetation_loss_unguarded :
  burn_mask (200, 0, 0)%Z (50, 0, 0)%Z = true
  /\ vegetation_loss_den [(200, 0, 0)%Z] = Fin 0
  /\ vegetation_loss [(200, 0, 0)%Z] [(50, 0, 0)%Z] = NaN
  /\ _estimate_burn_severity [(200, 0, 0)%Z] [(50, 0, 0)%Z] = "minor"
  /\ vegetation_loss [(200, 0, 0)%Z] [(50, 9, 0)%Z] = NegInf.
Proof. repeat split; reflexivity. Qed.

End Ratios.

(** ** Histograms and modes *)

Section Histograms.

Lemma incr_length (x : nat) (counts : list nat) :
  length (incr x counts) = length counts.
Proof.
  revert x. induction counts as [|c rest IH]; intros [|x]; simpl; auto.
Qed.

Lemma incr_nth (x : nat) (counts : list nat) (c : nat) :
  (x < length counts)%nat ->
  nth c (incr x counts) 0%nat
  = (nth c counts 0 + if Nat.eq_dec x c then 1 else 0)%nat.
Proof.
  revert x c. induction counts as [|v rest IH]; intros x c Hx; simpl in Hx.
  - lia.
  - destruct x as [|x], c as [|c]; simpl.
    + lia.
    + lia.
    + destruct (Nat.eq_dec (S x) 0); lia.
    + rewrite IH by lia.
      destruct (Nat.eq_dec x c), (Nat.eq_dec (S x) (S c)); lia.
Qed.

Lemma fold_incr_length (xs : list nat) :
  forall counts,
    length (fold_left (fun cs x => incr x cs) xs counts) = length counts.
Proof.
  induction xs as [|x xs IH]; intros counts; simpl; [reflexivity|].
  rewrite IH. apply incr_length.
Qed.

Lemma fold_incr_nth (xs : list nat) (c : nat) :
  forall counts,
    (forall x, In x xs -> (x < length counts)%nat) ->
    nth c (fold_left (fun cs x => incr x cs) xs counts) 0%nat
    = (nth c counts 0 + occurrences c xs)%nat.
Proof.
  unfold occurrences.
  induction xs as [|x xs IH]; intros counts Hlt; simpl.
  - lia.
  - rewrite IH.
    + rewrite incr_nth by (apply Hlt; left; reflexivity).
      destruct (Nat.eq_dec x c); lia.
    + intros y Hy. rewrite incr_length. apply Hlt. right; exact Hy.
Qed.

Lemma In_le_list_max (xs : list nat) (x : nat) :
  In x xs -> (x <= list_max xs)%nat.
Proof.
  intros Hx.
  pose proof (proj1 (list_max_le xs (list_max xs)) (Nat.le_refl _)) as H.
  rewrite Forall_forall in H. apply H. exact Hx.
Qed.

Lemma bincount_length (xs : list nat) (minlength : nat) :
  length (bincount xs minlength)
  = match xs with
    | [] => minlength
    | _ => Nat.max minlength (S (list_max xs))
    end.
Proof.
  unfold bincount. rewrite fold_incr_length. apply repeat_length.
Qed.

Lemma nth_repeat_zero (n c : nat) : nth c (repeat 0%nat n) 0%nat = 0%nat.
Proof.
  revert c. induction n as [|n IH]; intros [|c]; simpl; auto.
Qed.

(** [np.bincount] counts occurrences. *)
Lemma bincount_nth (xs : list nat) (minlength c : nat) :
  nth c (bincount xs minlength) 0%nat = occurrences c xs.
Proof.
  unfold bincount. rewrite fold_incr_nth.
  - rewrite nth_repeat_zero. reflexivity.
  - intros x Hx. rewrite repeat_length.
    destruct xs as [|y ys]; [destruct Hx|].
    apply In_le_list_max in Hx. lia.
Qed.

Lemma occurrences_beyond (xs : list nat) (minlength c : nat) :
  (length (bincount xs minlength) <= c)%nat -> occurrences c xs = 0%nat.
Proof.
  intros H. rewrite <- (bincount_nth xs minlength c).
  apply nth_overflow. exact H.
Qed.

Lemma argmax_from_spec (l rest : list nat) :
  forall pre best_i best_v,
    l = pre ++ rest ->
    (best_i < length pre)%nat ->
    nth best_i l 0%nat = best_v ->
    (forall j, (j < length pre)%nat -> (nth j l 0 <= best_v)%nat) ->
    (forall j, (j < best_i)%nat -> (nth j l 0 < best_v)%nat) ->
    let k := argmax_from rest (length pre) best_i best_v in
    (k < length l)%nat
    /\ (forall j, (j < length l)%nat -> (nth j l 0 <= nth k l 0)%nat)
    /\ (forall j, (j < k)%nat -> (nth j l 0 < nth k l 0)%nat).
Proof.
  induction rest as [|v rest IH]; intros pre bi bv Hl Hbi Hnth Hle Hlt; simpl.
  - rewrite app_nil_r in Hl. subst pre. rewrite Hnth.
    split; [exact Hbi|]. split; assumption.
  - assert (Hl' : l = (pre ++ [v]) ++ rest) by (rewrite <- app_assoc; exact Hl).
    assert (Hv : nth (length pre) l 0%nat = v).
    { rewrite Hl. rewrite app_nth2 by lia. rewrite Nat.sub_diag. reflexivity. }
    assert (Hlen : length (pre ++ [v]) = S (length pre)).
    { rewrite length_app. simpl. lia. }
    destruct (bv <? v)%nat eqn:E.
    + apply Nat.ltb_lt in E.
      specialize (IH (pre ++ [v]) (length pre) v Hl').
      rewrite Hlen in IH. apply IH.
      * lia.
      * exact Hv.
      * intros j Hj. destruct (Nat.eq_dec j (length pre)) as [-> | Hne].
        -- rewrite Hv. lia.
        -- specialize (Hle j ltac:(lia)). lia.
      * intros j Hj. specialize (Hle j Hj). lia.
    + apply Nat.ltb_ge in E.
      specialize (IH (pre ++ [v]) bi bv Hl').
      rewrite Hlen in IH. apply IH.
      * lia.
      * exact Hnth.
      * intros j Hj. destruct (Nat.eq_dec j (length pre)) as [-> | Hne].
        -- rewrite Hv. exact E.
        -- apply Hle. lia.
      * exact Hlt.
Qed.

(** [argmax] returns the first position of the maximum. *)
Lemma argmax_spec (l : list nat) :
  l <> [] ->
  exists k,
    argmax l = Ok k
    /\ (k < length l)%nat
    /\ (forall j, (j < length l)%nat -> (nth j l 0 <= nth k l 0)%nat)
    /\ (forall j, (j < k)%nat -> (nth j l 0 < nth k l 0)%nat).
Proof.
  destruct l as [|v rest]; [congruence|]. intros _.
  exists (argmax_from rest 1 0 v). split; [reflexivity|].
  apply (argmax_from_spec (v :: rest) rest [v] 0%nat v); simpl; auto.
  - intros j Hj. assert (j = 0%nat) by lia. subst j. lia.
  - intros j Hj. lia.
Qed.

(** The argmax of the histogram of a non-empty list is its mode. *)
Lemma argmax_bincount_dominant (xs : list nat) :
  xs <> [] ->
  exists d, argmax (bincount xs 0) = Ok d /\ dominant xs d.
Proof.
  intros Hne.
  assert (Hlen : length (bincount xs 0) = S (list_max xs)).
  { rewrite bincount_length. destruct xs; [congruence | reflexivity]. }
  destruct (argmax_spec (bincount xs 0)) as (k & Hk & Hlt & Hmax & Hfirst).
  { intros E. rewrite E in Hlen. discriminate. }
  exists k. split; [exact Hk|]. split.
  - intros c. destruct (Nat.lt_ge_cases c (length (bincount xs 0))) as [Hc | Hc].
    + specialize (Hmax c Hc). rewrite !bincount_nth in Hmax. exact Hmax.
    + rewrite (occurrences_beyond xs 0 c Hc). lia.
  - intros c Hc. specialize (Hfirst c Hc).
    rewrite !bincount_nth in Hfirst. exact Hfirst.
Qed.

End Histograms.

(** ** Region classification *)

Section RegionClassification.

Import MultiClassAnalyzer.

Lemma shape_eqb_refl (s : nat * nat) : shape_eqb s s = true.
Proof. unfold shape_eqb. rewrite !Nat.eqb_refl. reflexivity. Qed.

Lemma select_same_shape {A : Type} (a : ndarray A) (mask : ndarray bool) :
  shape a = shape mask ->
  select a mask = Ok (map fst (filter snd (combine (data a) (data mask)))).
Proof.
  intros E. unfold select. rewrite E, shape_eqb_refl. reflexivity.
Qed.

Lemma wf_same_length {A B : Type} (a : ndarray A) (b : ndarray B) :
  wf_array a -> wf_array b -> shape a = shape b ->
  length (data a) = length (data b).
Proof. unfold wf_array. intros -> -> ->. reflexivity. Qed.

Lemma masked_nonempty {A : Type} (l : list A) :
  forall m : list bool,
    length l = length m -> In true m ->
    map fst (filter snd (combine l m)) <> [].
Proof.
  induction l as [|x l IH]; intros [|b m] Hlen Hin; simpl in *;
    try contradiction; try discriminate.
  destruct b; simpl; [discriminate|].
  destruct Hin as [Hin | Hin]; [discriminate|].
  apply IH; [lia | exact Hin].
Qed.

(** The cells of a well-formed grid under a non-empty mask of its shape. *)
Lemma select_nonempty {A : Type} (a : ndarray A) (mask : ndarray bool) :
  wf_array a -> wf_array mask -> shape a = shape mask ->
  In true (data mask) ->
  exists cells, select a mask = Ok cells /\ cells <> [].
Proof.
  intros Ha Hm Hs Hin. eexists. split; [apply select_same_shape; exact Hs|].
  apply masked_nonempty; [apply wf_same_length; assumption | exact Hin].
Qed.

Lemma disaster_pattern_spec (before_classes after_classes : list nat) :
  _is_disaster_pattern before_classes after_classes = true
  <-> (grew_in_binary64 4 before_classes after_classes
       \/ grew_in_binary64 0 before_classes after_classes).
Proof.
  unfold _is_disaster_pattern, grew_in_binary64, float_fraction, float_gt,
    float_ratio, float_of_count.
  rewrite orb_true_iff, !bincount_nth. reflexivity.
Qed.

(** The lookup of the pair of class names in [CHANGE_RULES] is the
    transition table on class ids. *)
Lemma rules_get_table (before after : nat) :
  rules_get CHANGE_RULES
            (LAND_COVER_CLASSES_get before, LAND_COVER_CLASSES_get after)
  = transition_table before after.
Proof.
  destruct before as [|[|[|[|[|[|[|[|before]]]]]]]];
    destruct after as [|[|[|[|[|[|[|[|after]]]]]]]]; reflexivity.
Qed.

(** C4: on a non-empty region, [_classify_region_change] returns the entry
    of the transition table for the pair (mode before, mode after) when
    there is one; otherwise DISASTER_DAMAGE exactly when the fraction of
    barren cells (class 4) or of water cells (class 0) of the region grew
    by more than 0.3 as binary64 arithmetic has it, and NO_CHANGE exactly
    when neither did. *)
Theorem classify_region_change_spec
    (before_seg after_seg : ndarray nat) (region_mask : ndarray bool) :
  wf_array before_seg -> wf_array after_seg -> wf_array region_mask ->
  shape before_seg = shape region_mask ->
  shape after_seg = shape region_mask ->
  In true (data region_mask) ->
  exists before_classes after_classes before_dominant after_dominant t,
    select before_seg region_mask = Ok before_classes
    /\ select after_seg region_mask = Ok after_classes
    /\ dominant before_classes before_dominant
    /\ dominant after_classes after_dominant
    /\ _classify_region_change before_seg after_seg region_mask = Ok t
    /\ let grew :=
         grew_in_binary64 4 before_classes after_classes
         \/ grew_in_binary64 0 before_classes after_classes in
       match transition_table before_dominant after_dominant with
       | Some entry => t = entry
       | None => (t = DISASTER_DAMAGE <-> grew) /\ (t = NO_CHANGE <-> ~ grew)
       end.
Proof.
  intros Hb Ha Hm Hsb Hsa Hin.
  destruct (select_nonempty before_seg region_mask Hb Hm Hsb Hin)
    as (bc & Ebc & Hbc).
  destruct (select_nonempty after_seg region_mask Ha Hm Hsa Hin)
    as (ac & Eac & Hac).
  destruct (argmax_bincount_dominant bc Hbc) as (db & Edb & Hdb).
  destruct (argmax_bincount_dominant ac Hac) as (da & Eda & Hda).
  assert (Hc : _classify_region_change before_seg after_seg region_mask
               = match transition_table db da with
                 | Some entry => Ok entry
                 | None => if _is_disaster_pattern bc ac
                           then Ok DISASTER_DAMAGE else Ok NO_CHANGE
                 end).
  { unfold _classify_region_change.
    rewrite Ebc, Eac. cbv [Py.bind]. rewrite Edb, Eda. cbv zeta.
    rewrite rules_get_table. reflexivity. }
  rewrite Hc, Ebc, Eac. clear Hc.
  destruct (transition_table db da) as [entry|] eqn:Er.
  - exists bc, ac, db, da, entry.
    split; [reflexivity|]. split; [reflexivity|]. split; [exact Hdb|].
    split; [exact Hda|]. split; [reflexivity|]. cbv zeta. rewrite Er.
    reflexivity.
  - destruct (_is_disaster_pattern bc ac) eqn:Ep.
    + exists bc, ac, db, da, DISASTER_DAMAGE.
      split; [reflexivity|]. split; [reflexivity|]. split; [exact Hdb|].
      split; [exact Hda|]. split; [reflexivity|]. cbv zeta. rewrite Er.
      apply disaster_pattern_spec in Ep.
      split; split.
      * intros _. exact Ep.
      * reflexivity.
      * discriminate.
      * intros Hn. contradiction.
    + exists bc, ac, db, da, NO_CHANGE.
      split; [reflexivity|]. split; [reflexivity|]. split; [exact Hdb|].
      split; [exact Hda|]. split; [reflexivity|]. cbv zeta. rewrite Er.
      assert (Hn : ~ (grew_in_binary64 4 bc ac \/ grew_in_binary64 0 bc ac)).
      { intros H. apply disaster_pattern_spec in H. congruence. }
      split; split.
      * discriminate.
      * intros H. contradiction.
      * intros _. exact Hn.
      * reflexivity.
Qed.

Lemma dominant_of_argmax (xs : list nat) (d : nat) :
  xs <> [] -> argmax (bincount xs 0) = Ok d -> dominant xs d.
Proof.
  intros Hne E. destruct (argmax_bincount_dominant xs Hne) as (d' & E' & Hd).
  congruence.
Qed.

(** C4, as stated, fails: when the share of barren cells goes from one
    half to four fifths, the fraction grew by 0.3 and not by more, the pair
    (barren, barren) is in no entry, and the change is DISASTER_DAMAGE: in
    binary64 the difference is 0.30000000000000004. *)
Lemma exact_increase_of_0_3_is_damage :
  ~ (forall before_seg after_seg region_mask
            before_classes after_classes before_dominant after_dominant t,
        select before_seg region_mask = Ok before_classes ->
        select after_seg region_mask = Ok after_classes ->
        dominant before_classes before_dominant ->
        dominant after_classes after_dominant ->
        _classify_region_change before_seg after_seg region_mask = Ok t ->
        transition_table before_dominant after_dominant = None ->
        (t = DISASTER_DAMAGE
         <-> (0.3 < fraction 4 after_classes - fraction 4 before_classes
              \/ 0.3 < fraction 0 after_classes - fraction 0 before_classes))).
Proof.
  intros H.
  assert (Hb : dominant (data half_barren) 4)
    by (apply dominant_of_argmax; [discriminate | reflexivity]).
  assert (Ha : dominant (data mostly_barren) 4)
    by (apply dominant_of_argmax; [discriminate | reflexivity]).
  assert (Ht : _classify_region_change half_barren mostly_barren whole_row
               = Ok DISASTER_DAMAGE) by (vm_compute; reflexivity).
  specialize (H half_barren mostly_barren whole_row _ _ 4%nat 4%nat DISASTER_DAMAGE
                eq_refl eq_refl Hb Ha Ht eq_refl).
  destruct (proj1 H eq_refl) as [Hlt | Hlt]; vm_compute in Hlt; discriminate Hlt.
Qed.

(** The same region in figures: the exact increase is 0.3, its binary64
    value is the next number above the binary64 value of 0.3. *)
Example half_to_four_fifths :
  fraction 4 (data mostly_barren) - fraction 4 (data half_barren) == 0.3
  /\ PrimFloat.sub (float_fraction 4 (data mostly_barren))
                   (float_fraction 4 (data half_barren))
     = 0x1.3333333333334p-2%float
  /\ 0.3%float = 0x1.3333333333333p-2%float
  /\ _classify_region_change half_barren mostly_barren whole_row
     = Ok DISASTER_DAMAGE.
Proof. repeat split. Qed.

End RegionClassification.

(** ** Change map *)

Section ChangeMap.

Import MultiClassAnalyzer.

Lemma flat_map_rows_nth {A : Type} (f : nat -> nat -> A) (w : nat) (d : A) :
  forall h start i j,
    (i < h)%nat -> (j < w)%nat ->
    nth (i * w + j)
        (flat_map (fun r => map (f r) (seq 0 w)) (seq start h)) d
    = f (start + i)%nat j.
Proof.
  induction h as [|h IH]; intros start i j Hi Hj; [lia|].
  simpl. destruct i as [|i].
  - simpl. rewrite app_nth1 by (rewrite length_map, length_seq; exact Hj).
    rewrite (nth_indep _ d (f start 0%nat))
      by (rewrite length_map, length_seq; exact Hj).
    rewrite map_nth, seq_nth by exact Hj.
    rewrite Nat.add_0_r. reflexivity.
  - rewrite app_nth2 by (rewrite length_map, length_seq; simpl; lia).
    rewrite length_map, length_seq.
    replace (S i * w + j - w)%nat with (i * w + j)%nat by (simpl; lia).
    rewrite IH by lia. f_equal. lia.
Qed.

Lemma tabulate_cell {A : Type} (h w : nat) (f : nat -> nat -> A) (d : A)
      (i j : nat) :
  (i < h)%nat -> (j < w)%nat -> cell d (tabulate h w f) i j = f i j.
Proof.
  intros Hi Hj. unfold cell, tabulate. simpl.
  apply (flat_map_rows_nth f w d h 0%nat i j Hi Hj).
Qed.

Lemma bget_in_range {A : Type} (d : A) (a : ndarray A) (i j : nat) :
  (i < fst (shape a))%nat -> (j < snd (shape a))%nat ->
  bget d a i j = cell d a i j.
Proof.
  intros Hi Hj. unfold bget, cell.
  assert (Ei : (if (fst (shape a) =? 1)%nat then 0%nat else i) = i).
  { destruct (fst (shape a) =? 1)%nat eqn:E; [|reflexivity].
    apply Nat.eqb_eq in E. rewrite E in Hi. lia. }
  assert (Ej : (if (snd (shape a) =? 1)%nat then 0%nat else j) = j).
  { destruct (snd (shape a) =? 1)%nat eqn:E; [|reflexivity].
    apply Nat.eqb_eq in E. rewrite E in Hj. lia. }
  rewrite Ei, Ej. reflexivity.
Qed.

Lemma broadcast_dim_None (m n : nat) :
  broadcast_dim m n = None <-> (m <> n /\ m <> 1%nat /\ n <> 1%nat).
Proof.
  unfold broadcast_dim.
  destruct (m =? n)%nat eqn:E1; [apply Nat.eqb_eq in E1 | apply Nat.eqb_neq in E1].
  - split; [discriminate | intros (H & _); contradiction].
  - destruct (m =? 1)%nat eqn:E2; [apply Nat.eqb_eq in E2 | apply Nat.eqb_neq in E2].
    + split; [discriminate | intros (_ & H & _); contradiction].
    + destruct (n =? 1)%nat eqn:E3; [apply Nat.eqb_eq in E3 | apply Nat.eqb_neq in E3].
      * split; [discriminate | intros (_ & _ & H); contradiction].
      * split; [intros _; auto | reflexivity].
Qed.

Lemma broadcast_dim_Some (m n : nat) :
  ~ (m <> n /\ m <> 1%nat /\ n <> 1%nat) ->
  broadcast_dim m n = Some (broadcast_len m n).
Proof.
  intros H. unfold broadcast_dim, broadcast_len.
  destruct (m =? n)%nat eqn:E1; [apply Nat.eqb_eq in E1 | apply Nat.eqb_neq in E1].
  - subst n. destruct (m =? 1)%nat eqn:E2; [apply Nat.eqb_eq in E2|]; congruence.
  - destruct (m =? 1)%nat eqn:E2; [reflexivity | apply Nat.eqb_neq in E2].
    destruct (n =? 1)%nat eqn:E3; [reflexivity | apply Nat.eqb_neq in E3].
    exfalso. apply H. auto.
Qed.

Lemma broadcast_len_same (n : nat) : broadcast_len n n = n.
Proof. unfold broadcast_len. destruct (n =? 1)%nat; reflexivity. Qed.

(** C2 (amended): [_generate_change_map] fails exactly on shapes numpy
    cannot broadcast, and then with numpy's own error; on equal shapes the
    map marks the cells that differ; on shapes that differ only along axes
    where one grid has length 1, that grid is repeated along the axis and a
    map of the broadcast shape is returned. *)
Theorem generate_change_map_shapes (before after : ndarray nat) :
  (incompatible (shape before) (shape after) <->
   _generate_change_map before after = Raise ValueError)
  /\ (~ incompatible (shape before) (shape after) ->
      exists change_map,
        _generate_change_map before after = Ok change_map
        /\ shape change_map
           = (broadcast_len (fst (shape before)) (fst (shape after)),
              broadcast_len (snd (shape before)) (snd (shape after)))
        /\ forall i j,
            (i < fst (shape change_map))%nat ->
            (j < snd (shape change_map))%nat ->
            cell 0%Z change_map i j
            = if (bget 0%nat before i j =? bget 0%nat after i j)%nat
              then 0%Z else 1%Z)
  /\ (shape before = shape after ->
      exists change_map,
        _generate_change_map before after = Ok change_map
        /\ shape change_map = shape before
        /\ forall i j,
            (i < fst (shape before))%nat -> (j < snd (shape before))%nat ->
            cell 0%Z change_map i j
            = if (cell 0%nat before i j =? cell 0%nat after i j)%nat
              then 0%Z else 1%Z).
Proof.
  assert (Hcompat :
    ~ incompatible (shape before) (shape after) ->
    _generate_change_map before after
    = Ok (tabulate (broadcast_len (fst (shape before)) (fst (shape after)))
                   (broadcast_len (snd (shape before)) (snd (shape after)))
                   (fun i j =>
                      if (bget 0%nat before i j =? bget 0%nat after i j)%nat
                      then 0%Z else 1%Z))).
  { intros Hn. unfold _generate_change_map, not_equal.
    rewrite (broadcast_dim_Some (fst (shape before)) (fst (shape after)))
      by (intros H; apply Hn; left; exact H).
    rewrite (broadcast_dim_Some (snd (shape before)) (snd (shape after)))
      by (intros H; apply Hn; right; exact H).
    reflexivity. }
  split; [|split].
  - split.
    + intros [H | H]; unfold _generate_change_map, not_equal.
      * apply broadcast_dim_None in H. rewrite H. reflexivity.
      * apply broadcast_dim_None in H. rewrite H.
        destruct (broadcast_dim (fst (shape before)) (fst (shape after)));
          reflexivity.
    + intros E.
      destruct (broadcast_dim (fst (shape before)) (fst (shape after))) eqn:E1;
        [destruct (broadcast_dim (snd (shape before)) (snd (shape after))) eqn:E2|].
      * unfold _generate_change_map, not_equal in E. rewrite E1, E2 in E.
        discriminate.
      * right. apply broadcast_dim_None. exact E2.
      * left. apply broadcast_dim_None. exact E1.
  - intros Hn. eexists. split; [apply Hcompat; exact Hn|].
    split; [reflexivity|]. intros i j Hi Hj. simpl in Hi, Hj.
    rewrite tabulate_cell by assumption. reflexivity.
  - intros Hs.
    assert (Hn : ~ incompatible (shape before) (shape after)).
    { rewrite Hs. intros [(H & _) | (H & _)]; congruence. }
    eexists. split; [apply Hcompat; exact Hn|].
    split; [simpl; rewrite Hs, !broadcast_len_same; destruct (shape after); reflexivity|].
    intros i j Hi Hj.
    rewrite tabulate_cell by (rewrite <- Hs, broadcast_len_same; assumption).
    rewrite !bget_in_range by (rewrite <- ?Hs; assumption).
    reflexivity.
Qed.

(** C2, as stated, fails: a 1x2 grid against a 2x2 grid gives a change map
    and no error. *)
Lemma change_map_broadcasts_silently :
  ~ (forall before after : ndarray nat,
        shape before <> shape after ->
        exists e, _generate_change_map before after = Raise e).
Proof.
  intros H.
  destruct (H (mkArray (1, 2)%nat [1; 2]%nat)
              (mkArray (2, 2)%nat [1; 2; 1; 2]%nat)) as (e & He).
  - simpl. congruence.
  - discriminate He.
Qed.

Example change_map_broadcast_value :
  _generate_change_map (mkArray (1, 2)%nat [1; 2]%nat)
                       (mkArray (2, 2)%nat [1; 2; 3; 2]%nat)
  = Ok (mkArray (2, 2)%nat [0; 0; 1; 0]%Z).
Proof. reflexivity. Qed.

End ChangeMap.

(** ** Change regions *)

Section ChangeRegions.

Import MultiClassAnalyzer.

Lemma clamp_bounds (c : Q) :
  0.3 <= py_min 0.95 (py_max 0.3 c) /\ py_min 0.95 (py_max 0.3 c) <= 0.95.
Proof.
  unfold py_min, py_max.
  destruct (Qgtb c 0.3) eqn:E1.
  - apply Qgtb_true in E1.
    destruct (Qltb c 0.95) eqn:E2.
    + apply Qltb_true in E2. split; lra.
    + split; lra.
  - destruct (Qltb 0.3 0.95) eqn:E2; split; lra.
Qed.

(** On a non-empty region [_estimate_confidence] returns a value between
    0.3 and 0.95. *)
Lemma estimate_confidence_bounds
    (before_seg after_seg : ndarray nat) (region_mask : ndarray bool) :
  wf_array before_seg -> wf_array after_seg -> wf_array region_mask ->
  shape before_seg = shape region_mask ->
  shape after_seg = shape region_mask ->
  In true (data region_mask) ->
  exists c,
    _estimate_confidence before_seg after_seg region_mask = Ok c
    /\ 0.3 <= c /\ c <= 0.95.
Proof.
  intros Hb Ha Hm Hsb Hsa Hin.
  destruct (select_nonempty before_seg region_mask Hb Hm Hsb Hin)
    as (bc & Ebc & Hbc).
  destruct (select_nonempty after_seg region_mask Ha Hm Hsa Hin)
    as (ac & Eac & Hac).
  destruct (argmax_bincount_dominant bc Hbc) as (db & Edb & _).
  destruct (argmax_bincount_dominant ac Hac) as (da & Eda & _).
  unfold _estimate_confidence.
  rewrite Ebc, Eac. cbv [Py.bind]. rewrite Edb, Eda.
  eexists. split; [reflexivity|]. apply clamp_bounds.
Qed.

(** On a non-empty region [_classify_region_change] returns a type. *)
Lemma classify_region_change_total
    (before_seg after_seg : ndarray nat) (region_mask : ndarray bool) :
  wf_array before_seg -> wf_array after_seg -> wf_array region_mask ->
  shape before_seg = shape region_mask ->
  shape after_seg = shape region_mask ->
  In true (data region_mask) ->
  exists t, _classify_region_change before_seg after_seg region_mask = Ok t.
Proof.
  intros Hb Ha Hm Hsb Hsa Hin.
  destruct (select_nonempty before_seg region_mask Hb Hm Hsb Hin)
    as (bc & Ebc & Hbc).
  destruct (select_nonempty after_seg region_mask Ha Hm Hsa Hin)
    as (ac & Eac & Hac).
  destruct (argmax_bincount_dominant bc Hbc) as (db & Edb & _).
  destruct (argmax_bincount_dominant ac Hac) as (da & Eda & _).
  unfold _classify_region_change.
  rewrite Ebc, Eac. cbv [Py.bind]. rewrite Edb, Eda.
  destruct (rules_get _ _); [eexists; reflexivity|].
  destruct (_is_disaster_pattern bc ac); eexists; reflexivity.
Qed.

Lemma Qsum_from_bounds (l : list Q) :
  Forall (fun q => 0 <= q /\ q <= 1) l ->
  forall acc,
    acc <= fold_left Qplus l acc
    /\ fold_left Qplus l acc <= acc + inject_Z (Z.of_nat (length l)).
Proof.
  induction 1 as [|q l (Hq0 & Hq1) _ IH]; intros acc.
  - simpl. unfold inject_Z. split; lra.
  - change (fold_left Qplus (q :: l) acc) with (fold_left Qplus l (acc + q)).
    destruct (IH (acc + q)) as (H1 & H2).
    replace (length (q :: l)) with (S (length l)) by reflexivity.
    rewrite Nat2Z.inj_succ. unfold Z.succ. rewrite inject_Z_plus.
    change (inject_Z 1) with 1. split; lra.
Qed.

(** The mean of per-pixel confidences in [0, 1] is in [0, 1]. *)
Lemma Qmean_bounds (l : list Q) :
  l <> [] ->
  Forall (fun q => 0 <= q /\ q <= 1) l ->
  0 <= Qmean l /\ Qmean l <= 1.
Proof.
  intros Hne Hl. unfold Qmean, Qsum.
  destruct (Qsum_from_bounds l Hl 0) as (H1 & H2).
  assert (Hn : 0 < inject_Z (Z.of_nat (length l))).
  { destruct l; [congruence|]. unfold Qlt. simpl. lia. }
  split.
  - apply Qle_shift_div_l; [exact Hn | lra].
  - apply Qle_shift_div_r; [exact Hn | lra].
Qed.

Lemma masked_Forall {A : Type} (P : A -> Prop) (l : list A) :
  Forall P l ->
  forall m : list bool, Forall P (map fst (filter snd (combine l m))).
Proof.
  induction 1 as [|x l Hx _ IH]; intros [|b m]; simpl; try constructor.
  destruct b; simpl; [constructor; [exact Hx | apply IH] | apply IH].
Qed.

Lemma skipn_cons_nth_error {A : Type} (l : list A) :
  forall s x r,
    skipn s l = x :: r -> nth_error l s = Some x /\ skipn (S s) l = r.
Proof.
  induction l as [|y l IH]; intros [|s] x r H; simpl in *; try discriminate.
  - injection H as -> ->. split; reflexivity.
  - apply IH. exact H.
Qed.

Lemma equals_mask (labels : ndarray nat) (label_id : nat) :
  wf_array labels -> In label_id (data labels) ->
  wf_array (equals labels label_id)
  /\ shape (equals labels label_id) = shape labels
  /\ In true (data (equals labels label_id)).
Proof.
  intros Hwf Hin. unfold wf_array, equals in *. simpl.
  rewrite length_map. split; [exact Hwf|]. split; [reflexivity|].
  apply in_map_iff. exists label_id. split; [apply Nat.eqb_refl | exact Hin].
Qed.

Variable pixel_to_hectare_ratio : Q.
Variables before_seg after_seg : ndarray nat.
Variable labels : ndarray nat.
Variable stats : list cc_stat.
Variable confidence_scores : option (ndarray Q).

(** The arrays are well formed and of one shape, every component of the
    statistics has a cell in the label grid, and the per-pixel confidences,
    when given, lie in [0, 1]. *)
Hypothesis before_wf : wf_array before_seg.
Hypothesis after_wf : wf_array after_seg.
Hypothesis labels_wf : wf_array labels.
Hypothesis before_shape : shape before_seg = shape labels.
Hypothesis after_shape : shape after_seg = shape labels.
Hypothesis components_nonempty :
  forall label_id,
    (1 <= label_id < length stats)%nat -> In label_id (data labels).
Hypothesis scores_in_range :
  match confidence_scores with
  | Some scores =>
      wf_array scores /\ shape scores = shape labels
      /\ Forall (fun q => 0 <= q /\ q <= 1) (data scores)
  | None => True
  end.

Let loop :=
  regions_loop pixel_to_hectare_ratio before_seg after_seg labels stats
               confidence_scores.

Let area_of (st : cc_stat) : Q :=
  inject_Z (CC_STAT_AREA st) * pixel_to_hectare_ratio.

Let accepted (d : ChangeDetection) : Prop :=
  0.1 <= area_hectares d /\ 0 <= confidence d /\ confidence d <= 1.

Lemma region_confidence_bounds (label_id : nat) :
  In label_id (data labels) ->
  exists c,
    match confidence_scores with
    | Some scores =>
        cells <- select scores (equals labels label_id) ;; Ok (Qmean cells)
    | None =>
        _estimate_confidence before_seg after_seg (equals labels label_id)
    end = Ok c
    /\ 0 <= c /\ c <= 1.
Proof.
  intros Hin.
  destruct (equals_mask labels label_id labels_wf Hin) as (Hmwf & Hms & Hmt).
  destruct confidence_scores as [scores|].
  - destruct scores_in_range as (Hswf & Hss & Hsr).
    destruct (select_nonempty scores (equals labels label_id) Hswf Hmwf
                (eq_trans Hss (eq_sym Hms)) Hmt) as (cells & Ec & Hne).
    rewrite Ec. cbv [Py.bind]. eexists. split; [reflexivity|].
    apply Qmean_bounds; [exact Hne|].
    rewrite select_same_shape in Ec by (rewrite Hss, Hms; reflexivity).
    injection Ec as <-. apply masked_Forall. exact Hsr.
  - destruct (estimate_confidence_bounds before_seg after_seg
                (equals labels label_id) before_wf after_wf Hmwf
                (eq_trans before_shape (eq_sym Hms))
                (eq_trans after_shape (eq_sym Hms)) Hmt) as (c & Ec & H1 & H2).
    exists c. split; [exact Ec|]. split; lra.
Qed.

Lemma regions_loop_spec (rest_stats : list cc_stat) :
  forall s detections,
    skipn s stats = rest_stats ->
    (1 <= s)%nat ->
    Forall accepted detections ->
    exists result,
      loop (seq s (length rest_stats)) detections = Ok result
      /\ Forall accepted result
      /\ map area_hectares result
         = map area_hectares detections
           ++ filter (fun a => negb (Qltb a 0.1)) (map area_of rest_stats).
Proof.
  induction rest_stats as [|st rest IH]; intros s detections Hskip Hs Hacc.
  - exists detections. simpl. rewrite app_nil_r. auto.
  - destruct (skipn_cons_nth_error stats s st rest Hskip) as (Hnth & Hskip').
    assert (Hlt : (s < length stats)%nat).
    { apply nth_error_Some. rewrite Hnth. discriminate. }
    pose proof (components_nonempty s (conj Hs Hlt)) as Hin.
    change (seq s (length (st :: rest))) with (s :: seq (S s) (length rest)).
    unfold loop. simpl. rewrite Hnth. fold loop. fold (area_of st).
    destruct (Qltb (area_of st) 0.1) eqn:Ea.
    + simpl. apply IH; [exact Hskip' | lia | exact Hacc].
    + simpl.
      destruct (equals_mask labels s labels_wf Hin) as (Hmwf & Hms & Hmt).
      destruct (classify_region_change_total before_seg after_seg
                  (equals labels s) before_wf after_wf Hmwf
                  (eq_trans before_shape (eq_sym Hms))
                  (eq_trans after_shape (eq_sym Hms)) Hmt) as (t & Et).
      rewrite Et. cbv [Py.bind].
      destruct (region_confidence_bounds s Hin) as (c & Ec & Hc0 & Hc1).
      cbv [Py.bind] in Ec. rewrite Ec.
      destruct (IH (S s)
                  (detections
                     ++ [mkChangeDetection t c (_get_bounding_box st) (area_of st)
                           (_calculate_severity t (area_of st) c)])
                  Hskip' ltac:(lia)) as (result & Er & Hr & Hareas).
      { apply Forall_app. split; [exact Hacc|].
        constructor; [|constructor].
        apply Qltb_false in Ea. unfold accepted. simpl. auto. }
      exists result. split; [exact Er|]. split; [exact Hr|].
      rewrite Hareas, map_app, <- app_assoc. reflexivity.
Qed.

(** C8 (amended): with well-formed inputs and per-pixel confidences, when
    supplied, in [0, 1], [_detect_change_regions] returns a list: every
    detection has at least 0.1 hectare and a confidence in [0, 1], and the
    detections are those of the components of at least 0.1 hectare, the
    others being left out without error. *)
Theorem detect_change_regions_accepted :
  exists detections,
    _detect_change_regions pixel_to_hectare_ratio before_seg after_seg
                           labels stats confidence_scores = Ok detections
    /\ Forall (fun d => 0.1 <= area_hectares d
                        /\ 0 <= confidence d /\ confidence d <= 1) detections
    /\ map area_hectares detections
       = filter (fun a => negb (Qltb a 0.1))
                (map (fun st => inject_Z (CC_STAT_AREA st) * pixel_to_hectare_ratio)
                     (tl stats)).
Proof.
  unfold _detect_change_regions.
  replace (length stats - 1)%nat with (length (tl stats))
    by (destruct stats; simpl; lia).
  destruct (regions_loop_spec (tl stats) 1%nat []) as (result & Er & Hr & Ha).
  - destruct stats; reflexivity.
  - lia.
  - constructor.
  - exists result. split; [exact Er|]. split; [exact Hr | exact Ha].
Qed.

End ChangeRegions.

(** ** DBSCAN *)

Section Dbscan.

Import Sklearn.

Lemma unlabelled_le_length (labels : list Z) :
  (unlabelled labels <= length labels)%nat.
Proof. apply filter_length_le. Qed.

Lemma set_label_length (i : nat) (v : Z) (labels : list Z) :
  length (set_label i v labels) = length labels.
Proof.
  revert i. induction labels as [|x rest IH]; intros [|i]; simpl; auto.
Qed.

Lemma label_at_set_label_same (i : nat) (v : Z) (labels : list Z) :
  (i < length labels)%nat -> label_at (set_label i v labels) i = v.
Proof.
  revert i. induction labels as [|x rest IH]; intros [|i] H; simpl in *; try lia.
  - reflexivity.
  - apply IH. lia.
Qed.

Lemma label_at_set_label_other (i j : nat) (v : Z) (labels : list Z) :
  i <> j -> label_at (set_label i v labels) j = label_at labels j.
Proof.
  revert i j. induction labels as [|x rest IH]; intros [|i] [|j] H; simpl;
    try reflexivity; try congruence.
  apply IH. congruence.
Qed.

Lemma label_at_in_range (labels : list Z) (i : nat) :
  label_at labels i = (-1)%Z -> (i < length labels)%nat.
Proof.
  intros H. destruct (Nat.lt_ge_cases i (length labels)) as [Hlt | Hge]; [exact Hlt|].
  unfold label_at in H. rewrite nth_overflow in H by exact Hge. discriminate.
Qed.

Lemma set_label_unlabelled (i : nat) (v : Z) (labels : list Z) :
  label_at labels i = (-1)%Z -> v <> (-1)%Z ->
  S (unlabelled (set_label i v labels)) = unlabelled labels.
Proof.
  unfold unlabelled, label_at.
  revert i. induction labels as [|x rest IH]; intros [|i] H Hv;
    cbn [nth] in H; try discriminate; cbn [set_label filter].
  - subst x. change (is_noise (-1)) with true.
    replace (is_noise v) with false
      by (symmetry; apply Z.eqb_neq; exact Hv).
    reflexivity.
  - destruct (is_noise x); cbn [length]; rewrite <- (IH i H Hv); reflexivity.
Qed.

Lemma push_unlabelled_length (labels : list Z) (neighb : list nat) :
  forall stack,
    (length (push_unlabelled labels neighb stack)
     <= length stack + length neighb)%nat.
Proof.
  unfold push_unlabelled.
  induction neighb as [|v neighb IH]; intros stack; simpl; [lia|].
  destruct (label_at labels v =? -1)%Z.
  - specialize (IH (v :: stack)). simpl in IH. lia.
  - specialize (IH stack). lia.
Qed.

Variable is_core : list bool.
Variable neighborhoods : list (list nat).

(** Every neighbourhood has fewer than [bound] points. *)
Variable bound : nat.
Hypothesis neighborhoods_bounded :
  forall k, (length (nth k neighborhoods []) < bound)%nat.

Lemma extends_refl (labels : list Z) : extends labels labels.
Proof. split; auto. Qed.

Lemma extends_trans (l1 l2 l3 : list Z) :
  extends l1 l2 -> extends l2 l3 -> extends l1 l3.
Proof.
  intros (H1 & H2) (H3 & H4). split; [congruence|].
  intros j Hj. rewrite H4; rewrite H2; auto.
Qed.

Lemma extends_set_label (i : nat) (v : Z) (labels : list Z) :
  label_at labels i = (-1)%Z -> extends labels (set_label i v labels).
Proof.
  intros Hi. split; [apply set_label_length|].
  intros j Hj. apply label_at_set_label_other. congruence.
Qed.

(** The inner loop ends within the bound, keeps the labels already set and
    labels its starting point. *)
Lemma expand_terminates (label_num : Z) :
  label_num <> (-1)%Z ->
  forall fuel labels stack i,
    (unlabelled labels * bound + length stack < fuel)%nat ->
    exists labels',
      expand fuel is_core neighborhoods label_num labels stack i = Some labels'
      /\ extends labels labels'
      /\ label_at labels' i <> (-1)%Z.
Proof.
  intros Hnum. induction fuel as [|fuel IH]; intros labels stack i Hfuel; [lia|].
  simpl. destruct (label_at labels i =? -1)%Z eqn:Ei.
  - apply Z.eqb_eq in Ei.
    pose proof (set_label_unlabelled i label_num labels Ei Hnum) as Hu.
    pose proof (extends_set_label i label_num labels Ei) as Hext.
    pose proof (label_at_set_label_same i label_num labels
                  (label_at_in_range labels i Ei)) as Hset.
    set (labels1 := set_label i label_num labels) in *.
    assert (Hstep : forall stack1,
               (length stack1 <= length stack + length (nth i neighborhoods []))%nat ->
               exists labels',
                 match stack1 with
                 | [] => Some labels1
                 | top :: stack2 =>
                     expand fuel is_core neighborhoods label_num labels1 stack2 top
                 end = Some labels'
                 /\ extends labels labels'
                 /\ label_at labels' i <> (-1)%Z).
    { intros stack1 Hlen. destruct stack1 as [|top stack2].
      - exists labels1. split; [reflexivity|]. split; [exact Hext|].
        rewrite Hset. exact Hnum.
      - pose proof (neighborhoods_bounded i) as Hb. simpl in Hlen.
        destruct (IH labels1 stack2 top) as (labels' & E & Hext' & _).
        { rewrite <- Hu in Hfuel. simpl in Hfuel. lia. }
        exists labels'. split; [exact E|].
        split; [exact (extends_trans _ _ _ Hext Hext')|].
        destruct Hext' as (_ & Hkeep). rewrite Hkeep; rewrite Hset; exact Hnum. }
    destruct (nth i is_core false).
    + apply Hstep. apply push_unlabelled_length.
    + apply Hstep. lia.
  - apply Z.eqb_neq in Ei. destruct stack as [|top stack2].
    + exists labels. split; [reflexivity|]. split; [apply extends_refl | exact Ei].
    + destruct (IH labels stack2 top) as (labels' & E & Hext' & _).
      { simpl in Hfuel. lia. }
      exists labels'. split; [exact E|]. split; [exact Hext'|].
      destruct Hext' as (_ & Hkeep). rewrite Hkeep; exact Ei.
Qed.

(** The outer loop ends and labels every core point it visits. *)
Lemma dbscan_inner_labels (fuel : nat) (indices : list nat) :
  forall label_num labels,
    (0 <= label_num)%Z ->
    (length labels * bound < fuel)%nat ->
    exists labels',
      dbscan_inner fuel is_core neighborhoods indices label_num labels
      = Some labels'
      /\ extends labels labels'
      /\ forall i, In i indices -> nth i is_core false = true ->
                   label_at labels' i <> (-1)%Z.
Proof.
  induction indices as [|i rest IH]; intros label_num labels Hnum Hfuel.
  - exists labels. split; [reflexivity|]. split; [apply extends_refl|].
    intros i [].
  - simpl.
    destruct (negb (label_at labels i =? -1)%Z || negb (nth i is_core false))
      eqn:Eskip.
    + destruct (IH label_num labels Hnum Hfuel) as (labels' & E & Hext & Hall).
      exists labels'. split; [exact E|]. split; [exact Hext|].
      intros j [<- | Hj] Hcore; [|apply Hall; assumption].
      rewrite Hcore in Eskip. simpl in Eskip. rewrite orb_false_r in Eskip.
      apply negb_true_iff, Z.eqb_neq in Eskip.
      destruct Hext as (_ & Hkeep). rewrite Hkeep; exact Eskip.
    + destruct (expand_terminates label_num ltac:(lia) fuel labels [] i)
        as (labels1 & E1 & Hext1 & Hi).
      { pose proof (unlabelled_le_length labels) as Hle. simpl.
        apply Nat.le_lt_trans with (length labels * bound)%nat; [|exact Hfuel].
        rewrite Nat.add_0_r. apply Nat.mul_le_mono_r. exact Hle. }
      rewrite E1.
      destruct (IH (label_num + 1)%Z labels1 ltac:(lia)) as (labels' & E & Hext & Hall).
      { destruct Hext1 as (Hlen & _). rewrite Hlen. exact Hfuel. }
      exists labels'. split; [exact E|].
      split; [exact (extends_trans _ _ _ Hext1 Hext)|].
      intros j [<- | Hj] Hcore; [|apply Hall; assumption].
      destruct Hext as (_ & Hkeep). rewrite Hkeep; exact Hi.
Qed.

End Dbscan.

(** ** DBSCAN with [min_samples = 1] *)

Section DbscanNoNoise.

Import Sklearn.

Let origin : point := (0, 0).

Lemma neighborhood_length (eps : Q) (points : list point) (p : point) :
  (length (neighborhood eps points p) <= length points)%nat.
Proof.
  unfold neighborhood. rewrite length_map.
  eapply Nat.le_trans; [apply filter_length_le|].
  rewrite length_combine, length_seq. lia.
Qed.

Lemma In_combine_seq {A : Type} (l : list A) (x : A) :
  In x l -> forall start, exists k, In (k, x) (combine (seq start (length l)) l).
Proof.
  induction l as [|y l IH]; intros Hx start; [destruct Hx|].
  simpl. destruct Hx as [-> | Hx].
  - exists start. left; reflexivity.
  - destruct (IH Hx (S start)) as (k & Hk). exists k. right; exact Hk.
Qed.

(** A point is in its own neighbourhood. *)
Lemma neighborhood_nonempty (eps : Q) (points : list point) (p : point) :
  In p points -> neighborhood eps points p <> [].
Proof.
  intros Hp. destruct (In_combine_seq points p Hp 0%nat) as (k & Hk).
  unfold neighborhood.
  assert (Hin : In (k, p)
                   (filter (fun iq => Qle_bool (sq_dist p (snd iq)) (eps * eps))
                           (combine (seq 0 (length points)) points))).
  { apply filter_In. split; [exact Hk|]. simpl.
    apply Qle_bool_iff. unfold sq_dist.
    assert (H0 : (fst p - fst p) * (fst p - fst p)
                 + (snd p - snd p) * (snd p - snd p) == 0) by ring.
    rewrite H0. nra. }
  intros E. apply (in_map fst) in Hin. rewrite E in Hin. destruct Hin.
Qed.

Lemma nth_neighborhoods_bounded (eps : Q) (points : list point) (k : nat) :
  (length (nth k (map (neighborhood eps points) points) []) < S (length points))%nat.
Proof.
  destruct (Nat.lt_ge_cases k (length points)) as [Hk | Hk].
  - rewrite (nth_indep _ [] (neighborhood eps points origin))
      by (rewrite length_map; exact Hk).
    rewrite map_nth. pose proof (neighborhood_length eps points (nth k points origin)).
    lia.
  - rewrite nth_overflow by (rewrite length_map; exact Hk). simpl. lia.
Qed.

(** With [min_samples = 1] every point is a core point. *)
Lemma all_core (eps : Q) (points : list point) (i : nat) :
  (i < length points)%nat ->
  nth i (map (fun k => (1 <=? k)%nat)
             (map (@length nat) (map (neighborhood eps points) points))) false
  = true.
Proof.
  intros Hi. rewrite !map_map.
  rewrite (nth_indep _ false
             ((1 <=? length (neighborhood eps points origin))%nat))
    by (rewrite length_map; exact Hi).
  rewrite (map_nth (fun p => (1 <=? length (neighborhood eps points p))%nat)).
  apply Nat.leb_le.
  pose proof (neighborhood_nonempty eps points (nth i points origin)
                (nth_In points origin Hi)) as Hne.
  destruct (neighborhood eps points (nth i points origin)); [congruence|].
  simpl. lia.
Qed.

Lemma Forall_label_at (labels : list Z) (P : Z -> Prop) :
  (forall i, (i < length labels)%nat -> P (label_at labels i)) ->
  Forall P labels.
Proof.
  induction labels as [|x rest IH]; intros H; constructor.
  - apply (H 0%nat). simpl. lia.
  - apply IH. intros i Hi. apply (H (S i)). simpl. lia.
Qed.

(** DBSCAN with a positive [eps] and [min_samples = 1] returns one label
    per point and labels no point -1. *)
Lemma DBSCAN_fit_no_noise (eps : Q) (points : list point) :
  0 < eps ->
  exists labels,
    DBSCAN_fit eps 1 points = Ok labels
    /\ length labels = length points
    /\ Forall (fun label => label <> (-1)%Z) labels.
Proof.
  intros Heps. unfold DBSCAN_fit.
  destruct (Qle_bool eps 0) eqn:E; [apply Qle_bool_iff in E; lra|].
  set (n := length points).
  destruct (dbscan_inner_labels
              (map (fun k => (1 <=? k)%nat)
                   (map (@length nat) (map (neighborhood eps points) points)))
              (map (neighborhood eps points) points)
              (S n) (nth_neighborhoods_bounded eps points)
              (S (n * S n)) (seq 0 n) 0%Z (repeat (-1)%Z n))
    as (labels & El & (Hlen & _) & Hall).
  - lia.
  - rewrite repeat_length. lia.
  - rewrite El. exists labels. rewrite repeat_length in Hlen.
    split; [reflexivity|]. split; [exact Hlen|].
    apply Forall_label_at. intros i Hi. rewrite Hlen in Hi.
    apply Hall.
    + apply in_seq. lia.
    + apply all_core. exact Hi.
Qed.

(** For every [min_samples], DBSCAN with a positive [eps] returns one label
    per point: the bound on the inner loop is never reached. *)
Lemma DBSCAN_fit_returns (eps : Q) (min_samples : nat) (points : list point) :
  0 < eps ->
  exists labels,
    DBSCAN_fit eps min_samples points = Ok labels
    /\ length labels = length points.
Proof.
  intros Heps. unfold DBSCAN_fit.
  destruct (Qle_bool eps 0) eqn:E; [apply Qle_bool_iff in E; lra|].
  set (n := length points).
  destruct (dbscan_inner_labels
              (map (fun k => (min_samples <=? k)%nat)
                   (map (@length nat) (map (neighborhood eps points) points)))
              (map (neighborhood eps points) points)
              (S n) (nth_neighborhoods_bounded eps points)
              (S (n * S n)) (seq 0 n) 0%Z (repeat (-1)%Z n))
    as (labels & El & (Hlen & _) & _).
  - lia.
  - rewrite repeat_length. lia.
  - rewrite El. exists labels. rewrite repeat_length in Hlen.
    split; [reflexivity | exact Hlen].
Qed.

End DbscanNoNoise.

(** ** Clusters *)

Section Clusters.

Import MultiClassAnalyzer GeospatialProcessor.

Lemma max_by_from_spec {A : Type} (key : A -> nat) (l : list A) :
  forall best,
    let m := max_by_from key l best in
    (m = best \/ In m l)
    /\ (key best <= key m)%nat
    /\ (forall x, In x l -> (key x <= key m)%nat).
Proof.
  induction l as [|x rest IH]; intros best; simpl.
  - split; [left; reflexivity|]. split; [lia | intros x []].
  - destruct (key best <? key x)%nat eqn:E.
    + apply Nat.ltb_lt in E. destruct (IH x) as (Hin & Hbest & Hall).
      split; [right; destruct Hin as [-> | Hin]; [left; reflexivity | right; exact Hin]|].
      split; [lia|]. intros y [<- | Hy]; [exact Hbest | apply Hall; exact Hy].
    + apply Nat.ltb_ge in E. destruct (IH best) as (Hin & Hbest & Hall).
      split; [destruct Hin as [Hm | Hin]; [left; exact Hm | right; right; exact Hin]|].
      split; [exact Hbest|]. intros y [<- | Hy]; [lia | apply Hall; exact Hy].
Qed.

(** [max(l, key=key)] on a non-empty list is an element of [l] of the
    largest key. *)
Lemma py_max_by_spec {A : Type} (key : A -> nat) (l : list A) :
  l <> [] ->
  exists m,
    py_max_by key l = Ok m
    /\ In m l
    /\ forall x, In x l -> (key x <= key m)%nat.
Proof.
  destruct l as [|x rest]; [congruence|]. intros _.
  destruct (max_by_from_spec key rest x) as (Hin & Hbest & Hall).
  exists (max_by_from key rest x). split; [reflexivity|]. split.
  - destruct Hin as [-> | Hin]; [left; reflexivity | right; exact Hin].
  - intros y [<- | Hy]; [exact Hbest | apply Hall; exact Hy].
Qed.

Lemma str_count_absent (l : list string) (x : string) :
  ~ In x l -> str_count l x = 0%nat.
Proof.
  intros Hx. unfold str_count.
  induction l as [|y l IH]; [reflexivity|]. simpl.
  destruct (String.eqb_spec x y) as [-> | Hne].
  - exfalso. apply Hx. left; reflexivity.
  - apply IH. intros H. apply Hx. right; exact H.
Qed.

Variable set_order : list string -> list string.

(** Iterating over [set(l)] meets the elements of [l], each once. *)
Hypothesis set_order_elements : forall l x, In x (set_order l) <-> In x l.
Hypothesis set_order_NoDup : forall l, NoDup (set_order l).

Lemma cluster_summary_spec (members : list ChangeDetection) :
  members <> [] ->
  exists g,
    cluster_summary set_order members = Ok g
    /\ kind g = "cluster"%string
    /\ detections g = members
    /\ summarizes g.
Proof.
  intros Hne. unfold cluster_summary.
  set (change_types := map (fun d => value (change_type d)) members).
  assert (Hct : change_types <> []).
  { destruct members; [congruence | discriminate]. }
  assert (Hso : set_order change_types <> []).
  { destruct change_types as [|t ts] eqn:E; [congruence|].
    intros Hnil. assert (Hin : In t (set_order (t :: ts)))
      by (apply set_order_elements; left; reflexivity).
    rewrite Hnil in Hin. destruct Hin. }
  destruct (py_max_by_spec (str_count change_types) (set_order change_types) Hso)
    as (dom & Edom & Hdom_in & Hdom_max).
  assert (Hsev : map severity members <> []).
  { destruct members; [congruence | discriminate]. }
  destruct (py_max_by_spec severity_rank (map severity members) Hsev)
    as (sev & Esev & Hsev_in & Hsev_max).
  rewrite Edom, Esev. cbv [Py.bind].
  rewrite truediv_nonzero.
  2:{ apply inject_Z_pos_nonzero. destruct members; [congruence|]. simpl. lia. }
  eexists. split; [reflexivity|]. split; [reflexivity|]. split; [reflexivity|].
  unfold summarizes. simpl. fold change_types.
  split; [exact Hne|]. split; [reflexivity|]. split; [reflexivity|].
  split; [reflexivity|]. split; [exact Hsev_in|].
  split; [intros d Hd; apply Hsev_max; apply in_map; exact Hd|].
  split; [apply set_order_elements; exact Hdom_in|].
  intros t. destruct (in_dec string_dec t change_types) as [Ht | Ht].
  - apply Hdom_max. apply set_order_elements. exact Ht.
  - rewrite (str_count_absent _ _ Ht). lia.
Qed.

(** The loop over the dict, when no key is -1 and no entry is empty:
    one "cluster" entry per key, in order, each summarizing its members. *)
Lemma summarize_clusters (items : list (Z * list ChangeDetection)) :
  Forall (fun item => fst item <> (-1)%Z /\ snd item <> []) items ->
  forall acc,
    exists groups,
      summarize set_order items acc = Ok (acc ++ groups)
      /\ map detections groups = map snd items
      /\ Forall (fun g => kind g = "cluster"%string /\ summarizes g) groups.
Proof.
  induction 1 as [|[k ds] items (Hk & Hds) _ IH]; intros acc; simpl in *.
  - exists []. rewrite app_nil_r. auto.
  - destruct (Z.eqb_spec k (-1)) as [Ek | _]; [contradiction|].
    destruct (cluster_summary_spec ds Hds) as (g & Eg & Hkind & Hdet & Hsum).
    rewrite Eg. cbv [Py.bind].
    destruct (IH (acc ++ [g])) as (groups & E & Hmap & Hall).
    exists (g :: groups). rewrite <- app_assoc in E. split; [exact E|].
    split; [simpl; congruence|]. constructor; auto.
Qed.

Lemma dict_append_spec (clusters : list (Z * list ChangeDetection))
      (label : Z) (d : ChangeDetection) :
  Forall (fun item => snd item <> []) clusters ->
  Forall (fun item => snd item <> []) (dict_append clusters label d)
  /\ (forall k, In k (map fst (dict_append clusters label d)) ->
                In k (map fst clusters) \/ k = label)
  /\ Permutation (concat (map snd (dict_append clusters label d)))
                 (d :: concat (map snd clusters)).
Proof.
  induction 1 as [|[k ds] rest Hds Hrest IH]; simpl.
  - split; [repeat constructor; discriminate|].
    split; [intros k [<- | []]; right; reflexivity | reflexivity].
  - destruct IH as (IH1 & IH2 & IH3).
    destruct (k =? label)%Z; simpl.
    + split; [constructor; [simpl; destruct ds; discriminate | exact Hrest]|].
      split; [intros k' H; left; exact H|].
      rewrite <- app_assoc. simpl.
      apply Permutation_sym.
      apply (Permutation_middle ds (concat (map snd rest)) d).
    + split; [constructor; [exact Hds | exact IH1]|].
      split.
      * intros k' [<- | H]; [left; left; reflexivity|].
        destruct (IH2 k' H) as [H' | H']; [left; right; exact H' | right; exact H'].
      * apply Permutation_trans
          with (ds ++ d :: concat (map snd rest)).
        -- apply Permutation_app_head. exact IH3.
        -- apply Permutation_sym. apply Permutation_middle.
Qed.

Lemma group_fold_spec (pairs : list (Z * ChangeDetection)) :
  forall clusters,
    Forall (fun item => snd item <> []) clusters ->
    let result :=
      fold_left (fun cl ld => dict_append cl (fst ld) (snd ld)) pairs clusters in
    Forall (fun item => snd item <> []) result
    /\ (forall k, In k (map fst result) ->
                  In k (map fst clusters) \/ In k (map fst pairs))
    /\ Permutation (concat (map snd result))
                   (concat (map snd clusters) ++ map snd pairs).
Proof.
  induction pairs as [|[l d] pairs IH]; intros clusters Hne; simpl.
  - split; [exact Hne|]. split; [auto | rewrite app_nil_r; reflexivity].
  - destruct (dict_append_spec clusters l d Hne) as (H1 & H2 & H3).
    destruct (IH (dict_append clusters l d) H1) as (I1 & I2 & I3).
    split; [exact I1|]. split.
    + intros k Hk. destruct (I2 k Hk) as [H | H]; [|right; right; exact H].
      destruct (H2 k H) as [H' | ->]; [left; exact H' | right; left; reflexivity].
    + eapply Permutation_trans; [exact I3|].
      eapply Permutation_trans; [apply Permutation_app_tail; exact H3|].
      simpl. apply Permutation_middle.
Qed.

(** The dict of clusters: its keys are labels, no entry is empty, and its
    entries hold the detections, each once. *)
Lemma group_by_label_spec (labels : list Z) (change_detections : list ChangeDetection) :
  length labels = length change_detections ->
  let clusters := group_by_label labels change_detections in
  Forall (fun item => snd item <> []) clusters
  /\ (forall k, In k (map fst clusters) -> In k labels)
  /\ Permutation (concat (map snd clusters)) change_detections.
Proof.
  intros Hlen. unfold group_by_label.
  destruct (group_fold_spec (combine labels change_detections) [] (Forall_nil _))
    as (H1 & H2 & H3).
  split; [exact H1|]. split.
  - intros k Hk. destruct (H2 k Hk) as [[] | H].
    apply in_map_iff in H. destruct H as ([l d] & <- & Hin).
    apply in_combine_l in Hin. exact Hin.
  - simpl in H3.
    replace (map snd (combine labels change_detections)) with change_detections in H3.
    + exact H3.
    + clear - Hlen. revert change_detections Hlen.
      induction labels as [|l labels IH]; intros [|d ds] Hlen; simpl in *;
        try discriminate; [reflexivity|].
      f_equal. apply IH. lia.
Qed.

Lemma count_sum (groups : list ClusterGroup) :
  Forall (fun g => count g = length (detections g)) groups ->
  fold_left Nat.add (map count groups) 0%nat
  = length (concat (map detections groups)).
Proof.
  intros H.
  assert (G : forall acc,
             fold_left Nat.add (map count groups) acc
             = (acc + length (concat (map detections groups)))%nat).
  { induction H as [|g groups Hg _ IH]; intros acc; simpl; [lia|].
    rewrite IH, length_app, Hg. lia. }
  apply (G 0%nat).
Qed.

(** What [cluster_nearby_changes] returns on a non-empty list with a
    positive distance. *)
Lemma cluster_nearby_changes_spec
      (change_detections : list ChangeDetection) (max_distance_meters : Q) :
  change_detections <> [] ->
  0 < max_distance_meters ->
  exists labels groups,
    Sklearn.DBSCAN_fit (max_distance_meters / 10) 1 (map center change_detections)
    = Ok labels
    /\ Forall (fun label => label <> (-1)%Z) labels
    /\ cluster_nearby_changes set_order change_detections max_distance_meters
       = Ok groups
    /\ Forall (fun g => kind g = "cluster"%string /\ summarizes g) groups
    /\ Permutation (concat (map detections groups)) change_detections.
Proof.
  intros Hne Hpos.
  destruct (DBSCAN_fit_no_noise (max_distance_meters / 10)
              (map center change_detections)) as (labels & El & Hlen & Hnoise).
  { apply Qlt_shift_div_l; lra. }
  rewrite length_map in Hlen.
  destruct (group_by_label_spec labels change_detections Hlen)
    as (Hds & Hkeys & Hperm).
  destruct (summarize_clusters (group_by_label labels change_detections))
    with (acc := @nil ClusterGroup) as (groups & Es & Hmap & Hall).
  { rewrite Forall_forall in *. intros item Hitem. split.
    - apply Hnoise. apply Hkeys. apply in_map. exact Hitem.
    - apply Hds. exact Hitem. }
  exists labels, groups. split; [exact El|]. split; [exact Hnoise|].
  split.
  - unfold cluster_nearby_changes.
    destruct change_detections as [|d ds]; [congruence|].
    rewrite El. cbv [Py.bind]. exact Es.
  - split; [exact Hall|]. rewrite Hmap. exact Hperm.
Qed.




(** C10: on a non-empty list (and a positive distance) DBSCAN with
    [min_samples = 1] labels no point -1; every entry returned is of type
    "cluster", the entries hold the detections, each detection once, and
    their counts add up to the number of detections. *)
Theorem no_noise_all_clusters
      (change_detections : list ChangeDetection) (max_distance_meters : Q) :
  change_detections <> [] ->
  0 < max_distance_meters ->
  exists labels groups,
    Sklearn.DBSCAN_fit (max_distance_meters / 10) 1 (map center change_detections)
    = Ok labels
    /\ Forall (fun label => label <> (-1)%Z) labels
    /\ cluster_nearby_changes set_order change_detections max_distance_meters
       = Ok groups
    /\ Forall (fun g => kind g = "cluster"%string) groups
    /\ Permutation (concat (map detections groups)) change_detections
    /\ fold_left Nat.add (map count groups) 0%nat = length change_detections.
Proof.
  intros Hne Hpos.
  destruct (cluster_nearby_changes_spec change_detections max_distance_meters
              Hne Hpos) as (labels & groups & El & Hnoise & E & Hall & Hperm).
  exists labels, groups. split; [exact El|]. split; [exact Hnoise|].
  split; [exact E|]. split; [|split; [exact Hperm|]].
  - eapply Forall_impl; [|exact Hall]. intros g (H & _). exact H.
  - rewrite count_sum.
    + apply Permutation_length. exact Hperm.
    + eapply Forall_impl; [|exact Hall].
      intros g (_ & H). unfold summarizes in H. cbv zeta in H. tauto.
Qed.

End Clusters.

(** ** The properties on concrete inputs *)

Section Instances.

Import MultiClassAnalyzer GeospatialProcessor.

Lemma classify_region_change_spec_witness :
  (wf_array forest_4x4 /\ wf_array urban_4x4 /\ wf_array whole_4x4
   /\ shape forest_4x4 = shape whole_4x4 /\ shape urban_4x4 = shape whole_4x4
   /\ In true (data whole_4x4))
  /\ exists before_classes after_classes before_dominant after_dominant t,
      select forest_4x4 whole_4x4 = Ok before_classes
      /\ select urban_4x4 whole_4x4 = Ok after_classes
      /\ dominant before_classes before_dominant
      /\ dominant after_classes after_dominant
      /\ _classify_region_change forest_4x4 urban_4x4 whole_4x4 = Ok t
      /\ let grew :=
           grew_in_binary64 4 before_classes after_classes
           \/ grew_in_binary64 0 before_classes after_classes in
         match transition_table before_dominant after_dominant with
         | Some entry => t = entry
         | None => (t = DISASTER_DAMAGE <-> grew) /\ (t = NO_CHANGE <-> ~ grew)
         end.
Proof.
  assert (H : wf_array forest_4x4 /\ wf_array urban_4x4 /\ wf_array whole_4x4
              /\ shape forest_4x4 = shape whole_4x4
              /\ shape urban_4x4 = shape whole_4x4
              /\ In true (data whole_4x4)).
  { repeat split; try reflexivity. left; reflexivity. }
  split; [exact H|].
  destruct H as (H1 & H2 & H3 & H4 & H5 & H6).
  exact (classify_region_change_spec forest_4x4 urban_4x4 whole_4x4
           H1 H2 H3 H4 H5 H6).
Defined.

Example classify_forest_to_urban :
  _classify_region_change forest_4x4 urban_4x4 whole_4x4 = Ok URBANIZATION.
Proof. reflexivity. Qed.

Lemma components_4x4 (label_id : nat) :
  (1 <= label_id < length stats_4x4)%nat -> In label_id (data labels_4x4).
Proof.
  simpl. intros H. assert (label_id = 1%nat) by lia. subst. left; reflexivity.
Qed.

Lemma scores_ok_in_range :
  wf_array scores_ok /\ shape scores_ok = shape labels_4x4
  /\ Forall (fun q => 0 <= q /\ q <= 1) (data scores_ok).
Proof.
  split; [reflexivity|]. split; [reflexivity|].
  simpl. repeat constructor; discriminate.
Qed.

Lemma detect_change_regions_accepted_witness :
  (wf_array forest_4x4 /\ wf_array urban_4x4 /\ wf_array labels_4x4
   /\ shape forest_4x4 = shape labels_4x4 /\ shape urban_4x4 = shape labels_4x4
   /\ Forall (fun q => 0 <= q /\ q <= 1) (data scores_ok))
  /\ exists detections,
      _detect_change_regions 0.01 forest_4x4 urban_4x4 labels_4x4 stats_4x4
                             (Some scores_ok) = Ok detections
      /\ Forall (fun d => 0.1 <= area_hectares d
                          /\ 0 <= confidence d /\ confidence d <= 1) detections
      /\ map area_hectares detections
         = filter (fun a => negb (Qltb a 0.1))
                  (map (fun st => inject_Z (CC_STAT_AREA st) * 0.01)
                       (tl stats_4x4)).
Proof.
  split.
  - repeat split; try reflexivity. apply scores_ok_in_range.
  - exact (detect_change_regions_accepted 0.01 forest_4x4 urban_4x4 labels_4x4
             stats_4x4 (Some scores_ok)
             eq_refl eq_refl eq_refl eq_refl eq_refl
             components_4x4 scores_ok_in_range).
Defined.

(** C8, as stated, fails: with per-pixel confidences of 2 the detection of
    the 16-pixel component (0.16 hectare) has confidence 2. *)
Lemma detection_confidence_above_one :
  ~ (forall ratio before_seg after_seg labels stats scores detections,
        _detect_change_regions ratio before_seg after_seg labels stats scores
        = Ok detections ->
        Forall (fun d => 0 <= confidence d /\ confidence d <= 1) detections).
Proof.
  intros H.
  assert (E : exists d,
             _detect_change_regions 0.01 forest_4x4 urban_4x4 labels_4x4
                                    stats_4x4 (Some scores_high) = Ok [d]
             /\ confidence d == 2).
  { eexists. split; [vm_compute; reflexivity | vm_compute; reflexivity]. }
  destruct E as (d & E & Hc).
  specialize (H _ _ _ _ _ _ _ E).
  inversion H as [|? ? (_ & Hle) _]. subst. rewrite Hc in Hle.
  apply Qle_bool_iff in Hle. discriminate Hle.
Qed.

Lemma first_seen_elements (l : list string) (x : string) :
  In x (first_seen l) <-> In x l.
Proof. apply nodup_In. Qed.


Lemma no_noise_all_clusters_witness :
  (five_detections <> [] /\ 0 < 1000)
  /\ exists labels groups,
      Sklearn.DBSCAN_fit (1000 / 10) 1 (map center five_detections) = Ok labels
      /\ Forall (fun label => label <> (-1)%Z) labels
      /\ cluster_nearby_changes first_seen five_detections 1000 = Ok groups
      /\ Forall (fun g => kind g = "cluster"%string) groups
      /\ Permutation (concat (map detections groups)) five_detections
      /\ fold_left Nat.add (map count groups) 0%nat = length five_detections.
Proof.
  assert (H1 : five_detections <> []) by discriminate.
  assert (H2 : 0 < 1000) by reflexivity.
  split; [split; assumption|].
  exact (no_noise_all_clusters first_seen first_seen_elements
           five_detections 1000 H1 H2).
Defined.

(** The five detections at 1000 m: two clusters, of 3 and 2 members.  With
    [min_samples = 3] the same library call would leave two points as
    noise. *)
Example five_detections_clusters :
  Sklearn.DBSCAN_fit (1000 / 10) 1 (map center five_detections)
  = Ok [0; 1; 0; 1; 0]%Z
  /\ Sklearn.DBSCAN_fit 15 3 (map center five_detections)
     = Ok [0; -1; 0; -1; 0]%Z
  /\ (exists groups,
         cluster_nearby_changes first_seen five_detections 1000 = Ok groups
         /\ map count groups = [3; 2]%nat
         /\ map dominant_change_type groups
            = ["urbanization"; "deforestation"]%string
         /\ map max_severity groups = ["critical"; "high"]%string).
Proof.
  split; [vm_compute; reflexivity|]. split; [vm_compute; reflexivity|].
  eexists. split; [vm_compute; reflexivity|]. repeat split.
Qed.

End Instances.

(** ** Transition codes *)

Section TransitionCodes.

Import MultiClassAnalyzer.

(** Below the wrap of [uint16] the code is [100 * before + after] and
    splits back into the two classes. *)
Lemma transition_code_decode (before after : nat) :
  (before <= 654)%nat -> (after < 100)%nat ->
  transition_code before after = (100 * Z.of_nat before + Z.of_nat after)%Z
  /\ (transition_code before after / 100)%Z = Z.of_nat before
  /\ (transition_code before after mod 100)%Z = Z.of_nat after.
Proof.
  intros Hb Ha. unfold transition_code, uint16.
  assert (E : (((Z.of_nat before mod 65536 * 100) mod 65536
                + Z.of_nat after mod 65536) mod 65536
               = Z.of_nat after + Z.of_nat before * 100)%Z).
  { rewrite (Z.mod_small (Z.of_nat before)) by lia.
    rewrite (Z.mod_small (Z.of_nat after)) by lia.
    rewrite (Z.mod_small (Z.of_nat before * 100)) by lia.
    rewrite Z.mod_small by lia. lia. }
  rewrite E. split; [lia|]. split.
  - rewrite Z.div_add by lia. rewrite Z.div_small by lia. lia.
  - rewrite Z.mod_add by lia. apply Z.mod_small. lia.
Qed.

Lemma broadcast_map2_same_shape {A B C : Type} (da : A) (db : B)
      (f : A -> B -> C) (a : ndarray A) (b : ndarray B) :
  shape a = shape b ->
  broadcast_map2 da db f a b
  = Ok (tabulate (fst (shape a)) (snd (shape a))
                 (fun i j => f (bget da a i j) (bget db b i j))).
Proof.
  intros E. unfold broadcast_map2. rewrite <- E.
  unfold broadcast_dim. rewrite !Nat.eqb_refl. reflexivity.
Qed.

(** The transition map of two grids of one shape has their shape, and each
    of its codes gives back the class before (up to 654) and the class
    after (below 100) of its cell. *)
Theorem transition_map_decodes (before after : ndarray nat) :
  shape before = shape after ->
  exists transition_map,
    _generate_class_transition_map before after = Ok transition_map
    /\ shape transition_map = shape before
    /\ forall i j,
        (i < fst (shape before))%nat -> (j < snd (shape before))%nat ->
        (cell 0%nat before i j <= 654)%nat ->
        (cell 0%nat after i j < 100)%nat ->
        (cell 0 transition_map i j / 100)%Z = Z.of_nat (cell 0%nat before i j)
        /\ (cell 0 transition_map i j mod 100)%Z = Z.of_nat (cell 0%nat after i j).
Proof.
  intros Hs. unfold _generate_class_transition_map.
  rewrite broadcast_map2_same_shape by exact Hs.
  eexists. split; [reflexivity|]. split; [simpl; destruct (shape before); reflexivity|].
  intros i j Hi Hj Hb Ha.
  rewrite (tabulate_cell _ _ _ 0%Z i j Hi Hj).
  rewrite !bget_in_range by (rewrite <- ?Hs; assumption).
  destruct (transition_code_decode _ _ Hb Ha) as (_ & H1 & H2).
  split; assumption.
Qed.

(** Beyond 654 the code wraps: class 656 before and class 0 after has the
    code of class 0 before and class 64 after. *)
Example transition_code_wraps :
  transition_code 656 0 = transition_code 0 64.
Proof. reflexivity. Qed.

Lemma nth_ext_cells {A : Type} (d : A) (a b : ndarray A) :
  wf_array a -> wf_array b -> shape a = shape b ->
  (forall i j, (i < fst (shape a))%nat -> (j < snd (shape a))%nat ->
               cell d a i j = cell d b i j) ->
  data a = data b.
Proof.
  intros Ha Hb Hs Hcells. unfold wf_array in *.
  apply (nth_ext _ _ d d); [rewrite Ha, Hb, Hs; reflexivity|].
  intros k Hk. rewrite Ha in Hk.
  unfold cell in Hcells. rewrite <- Hs in Hcells.
  set (h := fst (shape a)) in *. set (w := snd (shape a)) in *.
  assert (Hw : (0 < w)%nat).
  { destruct w; [rewrite Nat.mul_0_r in Hk; lia | lia]. }
  specialize (Hcells (k / w)%nat (k mod w)%nat).
  replace (k / w * w + k mod w)%nat with k in Hcells
    by (rewrite (Nat.div_mod_eq k w) at 1; lia).
  apply Hcells.
  - apply Nat.Div0.div_lt_upper_bound. lia.
  - apply Nat.mod_upper_bound. lia.
Qed.

(** The change map of two well-formed grids of one shape is zero
    everywhere exactly when the grids are equal; in particular a grid
    compared with itself shows no change. *)
Theorem change_map_zero_iff_equal (before after : ndarray nat) :
  wf_array before -> wf_array after -> shape before = shape after ->
  exists change_map,
    _generate_change_map before after = Ok change_map
    /\ ((forall i j,
            (i < fst (shape before))%nat -> (j < snd (shape before))%nat ->
            cell 0%Z change_map i j = 0%Z)
        <-> data before = data after).
Proof.
  intros Hb Ha Hs.
  unfold _generate_change_map, not_equal. rewrite <- Hs.
  unfold broadcast_dim. rewrite !Nat.eqb_refl.
  eexists. split; [reflexivity|]. split.
  - intros Hz. apply (nth_ext_cells 0%nat); try assumption.
    intros i j Hi Hj. specialize (Hz i j Hi Hj).
    rewrite (tabulate_cell _ _ _ 0%Z i j Hi Hj) in Hz.
    rewrite !bget_in_range in Hz by (rewrite <- ?Hs; assumption).
    destruct (Nat.eqb_spec (cell 0%nat before i j) (cell 0%nat after i j));
      [assumption | discriminate].
  - intros E i j Hi Hj.
    rewrite (tabulate_cell _ _ _ 0%Z i j Hi Hj).
    rewrite !bget_in_range by (rewrite <- ?Hs; assumption).
    unfold cell. rewrite <- Hs, E, Nat.eqb_refl. reflexivity.
Qed.

End TransitionCodes.

(** ** Severity of a change *)

Section ChangeSeverity.

Import MultiClassAnalyzer GeospatialProcessor.

Lemma calculate_severity_score (t : ChangeType) (area confidence : Q) :
  _calculate_severity t area confidence
  = level_of_score (area_score area + type_score t + confidence_score confidence).
Proof.
  unfold _calculate_severity, level_of_score, area_score, confidence_score.
  destruct (Qgtb area 1000), (Qgtb area 100), (Qgtb area 10),
    (Qgtb confidence 0.8), t; reflexivity.
Qed.

Lemma area_score_range (area : Q) : (0 <= area_score area <= 3)%Z.
Proof.
  unfold area_score.
  destruct (Qgtb area 1000), (Qgtb area 100), (Qgtb area 10); lia.
Qed.

Lemma area_score_mono (a1 a2 : Q) :
  a1 <= a2 -> (area_score a1 <= area_score a2)%Z.
Proof.
  intros H. unfold area_score.
  destruct (Qgtb a1 1000) eqn:E1; [apply Qgtb_true in E1 | apply Qgtb_false in E1];
  destruct (Qgtb a2 1000) eqn:F1; [apply Qgtb_true in F1 | apply Qgtb_false in F1
                                  | apply Qgtb_true in F1 | apply Qgtb_false in F1];
  try lia; try lra;
  destruct (Qgtb a1 100) eqn:E2; [apply Qgtb_true in E2 | apply Qgtb_false in E2
                                 | apply Qgtb_true in E2 | apply Qgtb_false in E2];
  destruct (Qgtb a2 100) eqn:F2;
  try (apply Qgtb_true in F2); try (apply Qgtb_false in F2);
  try lia; try lra;
  destruct (Qgtb a1 10) eqn:E3;
  try (apply Qgtb_true in E3); try (apply Qgtb_false in E3);
  destruct (Qgtb a2 10) eqn:F3;
  try (apply Qgtb_true in F3); try (apply Qgtb_false in F3);
  try lia; try lra.
Qed.

Lemma area_score_small (area : Q) : area <= 100 -> (area_score area <= 1)%Z.
Proof.
  intros H. unfold area_score.
  destruct (Qgtb area 1000) eqn:E1; [apply Qgtb_true in E1; lra|].
  destruct (Qgtb area 100) eqn:E2; [apply Qgtb_true in E2; lra|].
  destruct (Qgtb area 10); lia.
Qed.

Lemma type_score_range (t : ChangeType) : (0 <= type_score t <= 2)%Z.
Proof. destruct t; simpl; lia. Qed.

Lemma confidence_score_range (c : Q) : (0 <= confidence_score c <= 1)%Z.
Proof. unfold confidence_score. destruct (Qgtb c 0.8); lia. Qed.

Lemma confidence_score_mono (c1 c2 : Q) :
  c1 <= c2 -> (confidence_score c1 <= confidence_score c2)%Z.
Proof.
  intros H. unfold confidence_score.
  destruct (Qgtb c1 0.8) eqn:E1; destruct (Qgtb c2 0.8) eqn:E2; try lia.
  apply Qgtb_true in E1. apply Qgtb_false in E2. lra.
Qed.

Lemma rank_of_level (s : Z) :
  severity_rank (level_of_score s)
  = if (s >=? 5)%Z then 3%nat
    else if (s >=? 3)%Z then 2%nat
    else if (s >=? 2)%Z then 1%nat
    else 0%nat.
Proof.
  unfold level_of_score.
  destruct (s >=? 5)%Z, (s >=? 3)%Z, (s >=? 2)%Z; reflexivity.
Qed.

Lemma level_of_score_rank (s1 s2 : Z) :
  (s1 <= s2)%Z ->
  (severity_rank (level_of_score s1) <= severity_rank (level_of_score s2))%nat.
Proof.
  intros H. rewrite !rank_of_level.
  destruct (Z.geb_spec s1 5), (Z.geb_spec s2 5),
    (Z.geb_spec s1 3), (Z.geb_spec s2 3),
    (Z.geb_spec s1 2), (Z.geb_spec s2 2); lia.
Qed.

Lemma level_of_score_valid (s : Z) : change_level (level_of_score s).
Proof.
  unfold level_of_score, change_level.
  destruct (s >=? 5)%Z, (s >=? 3)%Z, (s >=? 2)%Z; simpl; auto.
Qed.

(** [_calculate_severity] returns one of the four levels, and a larger
    area or a larger confidence never gives a lower level (for the order
    low < medium < high < critical the clusters use). *)
Theorem calculate_severity_monotone (t : ChangeType) (a1 a2 c1 c2 : Q) :
  a1 <= a2 -> c1 <= c2 ->
  change_level (_calculate_severity t a1 c1)
  /\ (severity_rank (_calculate_severity t a1 c1)
      <= severity_rank (_calculate_severity t a2 c2))%nat.
Proof.
  intros Ha Hc. rewrite !calculate_severity_score.
  split; [apply level_of_score_valid|].
  apply level_of_score_rank.
  pose proof (area_score_mono a1 a2 Ha).
  pose proof (confidence_score_mono c1 c2 Hc). lia.
Qed.

Lemma calculate_severity_monotone_witness :
  (1 <= 150 /\ 0.5 <= 0.9)
  /\ change_level (_calculate_severity URBANIZATION 1 0.5)
  /\ (severity_rank (_calculate_severity URBANIZATION 1 0.5)
      <= severity_rank (_calculate_severity URBANIZATION 150 0.9))%nat.
Proof.
  assert (H1 : 1 <= 150) by discriminate.
  assert (H2 : 0.5 <= 0.9) by discriminate.
  split; [split; assumption|].
  exact (calculate_severity_monotone URBANIZATION 1 150 0.5 0.9 H1 H2).
Defined.

(** A change is "critical" only above 100 hectares and only for the types
    of the two lists of [_calculate_severity]; whatever the confidence. *)
Theorem critical_needs_area_and_type (t : ChangeType) (area confidence : Q) :
  _calculate_severity t area confidence = "critical"%string ->
  100 < area
  /\ In t [DEFORESTATION; DISASTER_DAMAGE; WATER_DECREASE;
           URBANIZATION; VEGETATION_TO_BARREN].
Proof.
  rewrite calculate_severity_score. unfold level_of_score.
  pose proof (area_score_range area) as Ha.
  pose proof (type_score_range t) as Ht.
  pose proof (confidence_score_range confidence) as Hc.
  destruct (Z.geb_spec (area_score area + type_score t + confidence_score confidence) 5)
    as [H5 | H5].
  - intros _. split.
    + destruct (Qlt_le_dec 100 area) as [H | H]; [exact H|].
      pose proof (area_score_small area H). lia.
    + destruct t; simpl in *; auto 10; lia.
  - destruct (_ >=? 3)%Z; [discriminate|]. destruct (_ >=? 2)%Z; discriminate.
Qed.

Lemma critical_needs_area_and_type_witness :
  _calculate_severity DEFORESTATION 2000 0.9 = "critical"%string
  /\ 100 < 2000
  /\ In DEFORESTATION [DEFORESTATION; DISASTER_DAMAGE; WATER_DECREASE;
                       URBANIZATION; VEGETATION_TO_BARREN].
Proof.
  assert (H : _calculate_severity DEFORESTATION 2000 0.9 = "critical"%string)
    by reflexivity.
  split; [exact H|].
  exact (critical_needs_area_and_type DEFORESTATION 2000 0.9 H).
Defined.

End ChangeSeverity.

(** ** Severity summary *)

Section SeveritySummary.

Import MultiClassAnalyzer PyExc.

Lemma severity_counts_loop_valid (detections : list ChangeDetection) :
  Forall (fun d => change_level (severity d)) detections ->
  forall low medium high critical,
    severity_counts_loop detections
      [("low", low); ("medium", medium); ("high", high); ("critical", critical)]%string
    = Return [("low", low + severity_count "low" detections);
              ("medium", medium + severity_count "medium" detections);
              ("high", high + severity_count "high" detections);
              ("critical", critical + severity_count "critical" detections)]%string%nat.
Proof.
  unfold severity_count.
  induction 1 as [|d rest Hd _ IH]; intros low medium high critical.
  - simpl. rewrite !Nat.add_0_r. reflexivity.
  - cbn [severity_counts_loop filter].
    destruct Hd as [Hd | [Hd | [Hd | [Hd | []]]]]; rewrite <- Hd;
      cbn; rewrite IH; cbn; repeat f_equal; lia.
Qed.

Lemma dict_add_missing {V : Type} (add : V -> V) (d : list (string * V))
      (key : string) :
  ~ In key (map fst d) -> dict_add add d key = Throw KeyError.
Proof.
  induction d as [|[k v] rest IH]; intros Hk; simpl; [reflexivity|].
  destruct (String.eqb_spec k key) as [-> | _].
  - exfalso. apply Hk. left; reflexivity.
  - rewrite IH; [reflexivity|]. intros H. apply Hk. right; exact H.
Qed.

Lemma severity_counts_loop_keys (detections : list ChangeDetection) :
  forall counts result,
    severity_counts_loop detections counts = Return result ->
    map fst result = map fst counts.
Proof.
  assert (Hadd : forall (d : list (string * nat)) key d',
             dict_add S d key = Return d' -> map fst d' = map fst d).
  { induction d as [|[k v] rest IH]; intros key d' H; simpl in H; [discriminate|].
    destruct (String.eqb k key).
    - injection H as <-. reflexivity.
    - destruct (dict_add S rest key) as [rest'|] eqn:E; simpl in H; [|discriminate].
      injection H as <-. simpl. f_equal. eapply IH. exact E. }
  induction detections as [|d rest IH]; intros counts result H; simpl in H.
  - injection H as <-. reflexivity.
  - destruct (dict_add S counts (severity d)) as [counts'|] eqn:E; simpl in H;
      [|discriminate].
    rewrite (IH _ _ H). eapply Hadd. exact E.
Qed.

Lemma severity_counts_loop_invalid (detections : list ChangeDetection) :
  Exists (fun d => ~ change_level (severity d)) detections ->
  forall counts,
    map fst counts = ["low"; "medium"; "high"; "critical"]%string ->
    severity_counts_loop detections counts = Throw KeyError.
Proof.
  induction 1 as [d rest Hd | d rest _ IH]; intros counts Hkeys; simpl.
  - rewrite dict_add_missing; [reflexivity|]. rewrite Hkeys. exact Hd.
  - destruct (dict_add S counts (severity d)) as [counts'|] eqn:E; simpl.
    + apply IH. rewrite <- Hkeys.
      apply (severity_counts_loop_keys [d] counts counts'). simpl. rewrite E.
      reflexivity.
    + assert (He : e = KeyError).
      { clear - E. revert e E.
        induction counts as [|[k v] r IHr]; intros e E; simpl in E.
        - congruence.
        - destruct (String.eqb k (severity d)); [discriminate|].
          destruct (dict_add S r (severity d)) eqn:E'; simpl in E; [discriminate|].
          injection E as <-. eapply IHr. reflexivity. }
      rewrite He. reflexivity.
Qed.

(** [_get_severity_summary] counts the detections level by level, the four
    counts adding up to the number of detections, when every severity is
    one of the four levels; a detection of any other severity makes it
    raise KeyError. *)
Theorem severity_summary_counts (detections : list ChangeDetection) :
  (Forall (fun d => change_level (severity d)) detections ->
   _get_severity_summary detections
   = Return [("low", severity_count "low" detections);
             ("medium", severity_count "medium" detections);
             ("high", severity_count "high" detections);
             ("critical", severity_count "critical" detections)]%string
   /\ (severity_count "low" detections + severity_count "medium" detections
       + severity_count "high" detections + severity_count "critical" detections
       = length detections)%nat)
  /\ (Exists (fun d => ~ change_level (severity d)) detections ->
      _get_severity_summary detections = Throw KeyError).
Proof.
  split.
  - intros Hall. split.
    + unfold _get_severity_summary.
      rewrite (severity_counts_loop_valid detections Hall). reflexivity.
    + unfold severity_count. induction Hall as [|d rest Hd _ IH]; [reflexivity|].
      cbn [filter length].
      destruct Hd as [Hd | [Hd | [Hd | [Hd | []]]]]; rewrite <- Hd; cbn; lia.
  - intros Hex. apply severity_counts_loop_invalid; [exact Hex | reflexivity].
Qed.

End SeveritySummary.

(** ** Regions: errors and confidence *)

Section RegionEdges.

Import MultiClassAnalyzer.

Lemma shape_eqb_neq (s t : nat * nat) : s <> t -> shape_eqb s t = false.
Proof.
  intros H. unfold shape_eqb. destruct s as [a b], t as [c d]. simpl.
  destruct (Nat.eqb_spec a c), (Nat.eqb_spec b d); try reflexivity.
  subst. contradiction.
Qed.

Lemma masked_all_false {A : Type} (l : list A) :
  forall m : list bool,
    ~ In true m -> map fst (filter snd (combine l m)) = [].
Proof.
  induction l as [|x l IH]; intros [|b m] H; simpl; try reflexivity.
  destruct b; simpl.
  - exfalso. apply H. left; reflexivity.
  - apply IH. intros Hin. apply H. right; exact Hin.
Qed.

(** A mask of another shape makes [_classify_region_change] and
    [_estimate_confidence] raise IndexError; a mask of the shape of the
    grids with no True cell makes them raise ValueError (the mode of no
    cell). *)
Theorem region_functions_errors
    (before_seg after_seg : ndarray nat) (region_mask : ndarray bool) :
  (shape before_seg <> shape region_mask ->
   _classify_region_change before_seg after_seg region_mask = Raise IndexError
   /\ _estimate_confidence before_seg after_seg region_mask = Raise IndexError)
  /\ (shape before_seg = shape region_mask ->
      shape after_seg = shape region_mask ->
      ~ In true (data region_mask) ->
      _classify_region_change before_seg after_seg region_mask = Raise ValueError
      /\ _estimate_confidence before_seg after_seg region_mask = Raise ValueError).
Proof.
  split.
  - intros Hs. unfold _classify_region_change, _estimate_confidence, select.
    rewrite (shape_eqb_neq _ _ Hs). split; reflexivity.
  - intros Hb Ha Hm.
    unfold _classify_region_change, _estimate_confidence.
    rewrite (select_same_shape before_seg region_mask Hb).
    rewrite (select_same_shape after_seg region_mask Ha).
    rewrite !(masked_all_false _ _ Hm). split; reflexivity.
Qed.

Lemma occurrences_positive_In (c : nat) (xs : list nat) :
  (0 < occurrences c xs)%nat -> In c xs.
Proof. unfold occurrences. apply count_occ_In. Qed.

Lemma dominant_uniform (xs : list nat) (c d : nat) :
  xs <> [] -> Forall (eq c) xs -> dominant xs d -> d = c.
Proof.
  intros Hne Hall (Hmax & _).
  assert (Hc : In c xs).
  { destruct xs as [|x xs]; [congruence|]. inversion Hall; subst. left; reflexivity. }
  assert (Hd : In d xs).
  { apply occurrences_positive_In.
    apply Nat.lt_le_trans with (occurrences c xs); [|apply Hmax].
    unfold occurrences. apply count_occ_In. exact Hc. }
  rewrite Forall_forall in Hall. symmetry. apply Hall. exact Hd.
Qed.

Lemma filter_uniform (xs : list nat) (c : nat) :
  Forall (eq c) xs -> filter (Nat.eqb c) xs = xs.
Proof.
  induction 1 as [|x xs Hx _ IH]; [reflexivity|].
  simpl. subst x. rewrite Nat.eqb_refl, IH. reflexivity.
Qed.

Lemma ratio_same (n : nat) : (0 < n)%nat -> ratio n n == 1.
Proof.
  intros H. unfold ratio. apply Qmult_inv_r.
  intros E. unfold Qeq in E. simpl in E. lia.
Qed.

(** On a non-empty region [_estimate_confidence] returns a value between
    0.3 and 0.95, and exactly 0.95 when the region holds one class before
    and one class after. *)
Theorem estimate_confidence_range
    (before_seg after_seg : ndarray nat) (region_mask : ndarray bool) :
  wf_array before_seg -> wf_array after_seg -> wf_array region_mask ->
  shape before_seg = shape region_mask ->
  shape after_seg = shape region_mask ->
  In true (data region_mask) ->
  exists c,
    _estimate_confidence before_seg after_seg region_mask = Ok c
    /\ 0.3 <= c /\ c <= 0.95
    /\ forall before_region after_region class_before class_after,
        select before_seg region_mask = Ok before_region ->
        select after_seg region_mask = Ok after_region ->
        Forall (eq class_before) before_region ->
        Forall (eq class_after) after_region ->
        c = 0.95.
Proof.
  intros Hb Ha Hm Hsb Hsa Hin.
  destruct (select_nonempty before_seg region_mask Hb Hm Hsb Hin)
    as (bc & Ebc & Hbc).
  destruct (select_nonempty after_seg region_mask Ha Hm Hsa Hin)
    as (ac & Eac & Hac).
  destruct (argmax_bincount_dominant bc Hbc) as (db & Edb & Hdb).
  destruct (argmax_bincount_dominant ac Hac) as (da & Eda & Hda).
  unfold _estimate_confidence.
  rewrite Ebc, Eac. cbv [Py.bind]. rewrite Edb, Eda.
  eexists. split; [reflexivity|].
  split; [apply clamp_bounds|]. split; [apply clamp_bounds|].
  intros br ar cb ca E1 E2 Hub Hua.
  injection E1 as <-. injection E2 as <-.
  rewrite (dominant_uniform bc cb db Hbc Hub Hdb).
  rewrite (dominant_uniform ac ca da Hac Hua Hda).
  rewrite (filter_uniform bc cb Hub), (filter_uniform ac ca Hua).
  assert (Hnb : (0 < length bc)%nat) by (destruct bc; [congruence | simpl; lia]).
  assert (Hna : (0 < length ac)%nat) by (destruct ac; [congruence | simpl; lia]).
  pose proof (ratio_same _ Hnb) as Rb. pose proof (ratio_same _ Hna) as Ra.
  set (conf := (ratio (length bc) (length bc) + ratio (length ac) (length ac)) / 2).
  assert (Hconf : conf == 1).
  { unfold conf. rewrite Rb, Ra. reflexivity. }
  unfold py_min, py_max.
  destruct (Qgtb conf 0.3) eqn:E3.
  - destruct (Qltb conf 0.95) eqn:E4; [|reflexivity].
    apply Qltb_true in E4. rewrite Hconf in E4. discriminate E4.
  - apply Qgtb_false in E3. rewrite Hconf in E3. exfalso. apply E3. reflexivity.
Qed.

Lemma estimate_confidence_range_witness :
  (wf_array forest_4x4 /\ wf_array urban_4x4 /\ wf_array whole_4x4
   /\ shape forest_4x4 = shape whole_4x4 /\ shape urban_4x4 = shape whole_4x4
   /\ In true (data whole_4x4))
  /\ exists c,
      _estimate_confidence forest_4x4 urban_4x4 whole_4x4 = Ok c
      /\ 0.3 <= c /\ c <= 0.95
      /\ forall before_region after_region class_before class_after,
          select forest_4x4 whole_4x4 = Ok before_region ->
          select urban_4x4 whole_4x4 = Ok after_region ->
          Forall (eq class_before) before_region ->
          Forall (eq class_after) after_region ->
          c = 0.95.
Proof.
  assert (H : wf_array forest_4x4 /\ wf_array urban_4x4 /\ wf_array whole_4x4
              /\ shape forest_4x4 = shape whole_4x4
              /\ shape urban_4x4 = shape whole_4x4
              /\ In true (data whole_4x4)).
  { repeat split; try reflexivity. left; reflexivity. }
  split; [exact H|].
  destruct H as (H1 & H2 & H3 & H4 & H5 & H6).
  exact (estimate_confidence_range forest_4x4 urban_4x4 whole_4x4
           H1 H2 H3 H4 H5 H6).
Defined.

Variable pixel_to_hectare_ratio : Q.
Variables before_seg after_seg : ndarray nat.
Variable labels : ndarray nat.
Variable stats : list cc_stat.
Variable confidence_scores : option (ndarray Q).

Lemma regions_loop_levels (label_ids : list nat) :
  forall detections result,
    regions_loop pixel_to_hectare_ratio before_seg after_seg labels stats
                 confidence_scores label_ids detections = Ok result ->
    Forall (fun d => change_level (severity d)) detections ->
    Forall (fun d => change_level (severity d)) result.
Proof.
  induction label_ids as [|label_id rest IH]; intros detections result E Hacc.
  - simpl in E. injection E as <-. exact Hacc.
  - simpl in E. destruct (nth_error stats label_id) as [st|]; [|discriminate].
    destruct (Qltb _ 0.1); [exact (IH _ _ E Hacc)|].
    destruct (_classify_region_change _ _ _) as [t|]; [|discriminate].
    cbv [Py.bind] in E.
    destruct (match confidence_scores with Some _ => _ | None => _ end)
      as [c|]; [|discriminate].
    apply (IH _ _ E). apply Forall_app. split; [exact Hacc|].
    constructor; [|constructor]. simpl.
    rewrite calculate_severity_score. apply level_of_score_valid.
Qed.

(** Whatever [_detect_change_regions] returns can be summarized: the
    severities it assigns are among the four levels, so
    [_get_severity_summary] finds its keys and returns counts that add up
    to the number of detections. *)
Theorem detected_regions_summarized (detections : list ChangeDetection) :
  _detect_change_regions pixel_to_hectare_ratio before_seg after_seg labels
                         stats confidence_scores = Ok detections ->
  Forall (fun d => change_level (severity d)) detections
  /\ exists counts,
      _get_severity_summary detections = PyExc.Return counts
      /\ map fst counts = ["low"; "medium"; "high"; "critical"]%string
      /\ fold_left Nat.add (map snd counts) 0%nat = length detections.
Proof.
  intros E. unfold _detect_change_regions in E.
  assert (Hall : Forall (fun d => change_level (severity d)) detections).
  { apply (regions_loop_levels _ _ _ E). constructor. }
  split; [exact Hall|].
  unfold _get_severity_summary.
  rewrite (severity_counts_loop_valid detections Hall).
  eexists. split; [reflexivity|]. split; [reflexivity|].
  simpl. clear E. unfold severity_count.
  induction Hall as [|d rest Hd _ IH]; [reflexivity|].
  cbn [filter length].
  destruct Hd as [Hd | [Hd | [Hd | [Hd | []]]]]; rewrite <- Hd; cbn; cbn in IH; lia.
Qed.

End RegionEdges.

(** ** KML styles *)

Section KmlStyles.

Import GeospatialProcessor.

Lemma dict_get_default_range {V : Type} (d : list (string * V)) (key : string)
      (default : V) :
  dict_get_default d key default = default
  \/ In (dict_get_default d key default) (map snd d).
Proof.
  unfold dict_get_default.
  induction d as [|[k v] rest IH]; simpl; [left; reflexivity|].
  destruct (String.eqb k key); [right; left; reflexivity|].
  destruct IH as [IH | IH]; [left; exact IH | right; right; exact IH].
Qed.

(** Whatever the change type, the style id of a placemark is the id of a
    style that [_add_kml_styles] defines; a type of the mapping keeps its
    own name and any other gets "default". *)
Theorem style_id_is_defined (change_type : string) :
  In (_get_style_id_for_change_type change_type) (map fst kml_styles)
  /\ (In change_type (map fst style_mapping) ->
      _get_style_id_for_change_type change_type = change_type)
  /\ (~ In change_type (map fst style_mapping) ->
      _get_style_id_for_change_type change_type = "default"%string).
Proof.
  split; [|split].
  - unfold _get_style_id_for_change_type.
    destruct (dict_get_default_range style_mapping change_type "default"%string)
      as [-> | H].
    + simpl. auto 10.
    + simpl in H. simpl. intuition.
  - intros H. simpl in H.
    repeat (destruct H as [<- | H]; [reflexivity|]). destruct H.
  - intros H. unfold _get_style_id_for_change_type, dict_get_default.
    assert (G : forall d : list (string * string),
               ~ In change_type (map fst d) ->
               PyExc.dict_get d change_type = PyExc.Throw PyExc.KeyError).
    { induction d as [|[k v] rest IH]; intros Hk; simpl; [reflexivity|].
      destruct (String.eqb_spec k change_type) as [-> | _].
      - exfalso. apply Hk. left; reflexivity.
      - apply IH. intros Hin. apply Hk. right; exact Hin. }
    rewrite (G _ H). reflexivity.
Qed.

End KmlStyles.

(** ** GeoJSON export *)

Section GeoJsonExport.

Import MultiClassAnalyzer GeospatialProcessor PyExc.

Lemma inject_Z_nonzero (n : Z) : n <> 0%Z -> ~ inject_Z n == 0.
Proof. intros Hn E. unfold Qeq in E. simpl in E. lia. Qed.

Lemma inject_Z_zero (n : Z) : n = 0%Z -> Qeq_bool (inject_Z n) 0 = true.
Proof. intros ->. reflexivity. Qed.

Variable image_shape : Z * Z.
Variable geo_bounds : GeoBounds.

Lemma lon_lat_nonzero (pixel : Z * Z) :
  fst image_shape <> 0%Z -> snd image_shape <> 0%Z ->
  exists c, lon_lat image_shape geo_bounds pixel = Return c.
Proof.
  intros HH HW. unfold lon_lat, _create_pixel_to_geo_transformer.
  destruct image_shape as [H W]. simpl in *.
  rewrite !truediv_nonzero by (apply inject_Z_nonzero; assumption).
  eexists. reflexivity.
Qed.

Lemma lon_lat_zero (pixel : Z * Z) :
  fst image_shape = 0%Z \/ snd image_shape = 0%Z ->
  lon_lat image_shape geo_bounds pixel = Throw (Builtin ZeroDivisionError).
Proof.
  intros Hz. unfold lon_lat, _create_pixel_to_geo_transformer.
  destruct image_shape as [H W]. simpl in *. unfold truediv.
  destruct (Z.eq_dec W 0) as [-> | HW]; [reflexivity|].
  destruct Hz as [-> | ->]; [|contradiction].
  destruct (Qeq_bool (inject_Z W) 0); reflexivity.
Qed.

Lemma lon_lat_all_nonzero (pixels : list (Z * Z)) :
  fst image_shape <> 0%Z -> snd image_shape <> 0%Z ->
  exists cs,
    lon_lat_all image_shape geo_bounds pixels = Return cs
    /\ length cs = length pixels.
Proof.
  intros HH HW. induction pixels as [|p rest (cs & E & Hlen)]; simpl.
  - exists []. split; reflexivity.
  - destruct (lon_lat_nonzero p HH HW) as (c & Ec). rewrite Ec, E. simpl.
    exists (c :: cs). split; [reflexivity | simpl; congruence].
Qed.

Lemma last_app_one {A : Type} (l : list A) (x d : A) : last (l ++ [x]) d = x.
Proof. apply last_last. Qed.

(** Every ring the export builds is closed, on the polygon path and on the
    bounding-box path. *)
Lemma geometry_ring_closed (o : detection_object) (r : list (Q * Q)) :
  geometry_ring image_shape geo_bounds o = Return r -> closed_ring r.
Proof.
  unfold geometry_ring. destruct (polygon_attr o) as [poly|].
  - destruct (lon_lat_all image_shape geo_bounds poly) as [cs|]; simpl;
      [|discriminate].
    destruct cs as [|first cs']; [discriminate|].
    destruct (coords_differ first (last (first :: cs') first)) eqn:Ed.
    + intros E. injection E as <-.
      change ((first :: cs') ++ [first]) with (first :: (cs' ++ [first])).
      unfold closed_ring.
      change (first :: cs' ++ [first]) with ((first :: cs') ++ [first]).
      rewrite last_app_one. split; reflexivity.
    + intros E. injection E as <-. unfold closed_ring.
      unfold coords_differ in Ed. apply negb_false_iff in Ed.
      apply andb_true_iff in Ed. destruct Ed as (E1 & E2).
      apply Qeq_bool_iff in E1. apply Qeq_bool_iff in E2.
      split; symmetry; assumption.
  - destruct (bbox_attr o) as [[[[x y] w] h]|]; simpl; [|discriminate].
    destruct (lon_lat image_shape geo_bounds (x, y)) as [c1|]; simpl; [|discriminate].
    destruct (lon_lat image_shape geo_bounds (x + w, y)%Z) as [c2|]; simpl;
      [|discriminate].
    destruct (lon_lat image_shape geo_bounds (x + w, y + h)%Z) as [c3|]; simpl;
      [|discriminate].
    destruct (lon_lat image_shape geo_bounds (x, y + h)%Z) as [c4|]; simpl;
      [|discriminate].
    intros E. injection E as <-. simpl. split; reflexivity.
Qed.

Lemma feature_of_change (i : nat) (d : ChangeDetection) :
  fst image_shape <> 0%Z -> snd image_shape <> 0%Z ->
  exists f,
    feature_of image_shape geo_bounds i (ChangeObject d) = Return f
    /\ feature_index f = i
    /\ length (ring f) = 5%nat
    /\ prop_change_type f = value (change_type d)
    /\ prop_bbox f = bbox d.
Proof.
  intros HH HW. unfold feature_of, geometry_ring.
  cbn [polygon_attr bbox_attr change_type_attr and_then].
  destruct (bbox d) as [[[x y] w] h] eqn:Eb.
  destruct (lon_lat_all_nonzero
              [(x, y); (x + w, y); (x + w, y + h); (x, y + h); (x, y)]%Z HH HW)
    as (cs & E & Hlen).
  rewrite E. cbn [and_then]. eexists. split; [reflexivity|]. simpl.
  repeat split; try reflexivity; assumption.
Qed.

Lemma feature_of_other (i : nat) (o : detection_object) :
  (forall d, o <> ChangeObject d) ->
  exists e, feature_of image_shape geo_bounds i o = Throw e.
Proof.
  intros Ho. unfold feature_of.
  destruct (geometry_ring image_shape geo_bounds o) as [g|e]; simpl.
  - destruct o as [d | z |]; simpl; [exfalso; apply (Ho d); reflexivity | |];
      eexists; reflexivity.
  - eexists; reflexivity.
Qed.

Lemma feature_of_zero (i : nat) (o : detection_object) :
  fst image_shape = 0%Z \/ snd image_shape = 0%Z ->
  exists e, feature_of image_shape geo_bounds i o = Throw e.
Proof.
  intros Hz. destruct o as [d | z |].
  - unfold feature_of, geometry_ring. simpl.
    destruct (bbox d) as [[[x y] w] h]. simpl.
    rewrite (lon_lat_zero _ Hz). simpl. eexists; reflexivity.
  - apply feature_of_other. intros d. discriminate.
  - apply feature_of_other. intros d. discriminate.
Qed.

Lemma features_loop_positions (objects : list detection_object) :
  fst image_shape <> 0%Z -> snd image_shape <> 0%Z ->
  forall i acc,
    map feature_index (features_loop image_shape geo_bounds i objects acc)
    = map feature_index acc ++ change_positions i objects.
Proof.
  intros HH HW. induction objects as [|o rest IH]; intros i acc; simpl.
  - rewrite app_nil_r. reflexivity.
  - destruct o as [d | z |].
    + destruct (feature_of_change i d HH HW) as (f & E & Hi & _).
      rewrite E, IH, map_app. simpl. rewrite Hi, <- app_assoc. reflexivity.
    + destruct (feature_of_other i (ZoneObject z)) as (e & E);
        [intros d; discriminate|].
      rewrite E. apply IH.
    + destruct (feature_of_other i JsonObject) as (e & E);
        [intros d; discriminate|].
      rewrite E. apply IH.
Qed.

Lemma features_loop_zero (objects : list detection_object) :
  fst image_shape = 0%Z \/ snd image_shape = 0%Z ->
  forall i acc, features_loop image_shape geo_bounds i objects acc = acc.
Proof.
  intros Hz. induction objects as [|o rest IH]; intros i acc; simpl; [reflexivity|].
  destruct (feature_of_zero i o Hz) as (e & E). rewrite E. apply IH.
Qed.

Lemma features_loop_closed (objects : list detection_object) :
  forall i acc,
    Forall (fun f => closed_ring (ring f)) acc ->
    Forall (fun f => closed_ring (ring f))
           (features_loop image_shape geo_bounds i objects acc).
Proof.
  induction objects as [|o rest IH]; intros i acc Hacc; simpl; [exact Hacc|].
  destruct (feature_of image_shape geo_bounds i o) as [f|e] eqn:E; [|apply IH; exact Hacc].
  apply IH. apply Forall_app. split; [exact Hacc|]. constructor; [|constructor].
  unfold feature_of in E.
  destruct (geometry_ring image_shape geo_bounds o) as [g|] eqn:Eg; simpl in E;
    [|discriminate].
  destruct (change_type_attr o) as [ct|]; simpl in E; [|discriminate].
  destruct o as [d | z |]; try discriminate.
  injection E as <-. simpl. apply (geometry_ring_closed _ _ Eg).
Qed.

End GeoJsonExport.

Section GeoJsonTheorems.

Import MultiClassAnalyzer GeospatialProcessor PyExc.

(** [convert_to_geojson] never fails: it keeps one feature per
    [ChangeDetection] object, numbered by its position in the input, and
    silently leaves out damage zones and JSON dicts (they lack an
    attribute it reads); its feature count is the number of features and
    every ring is closed.  With a zero height or width it keeps no
    feature at all. *)
Theorem geojson_features (objects : list detection_object)
        (image_shape : Z * Z) (geo_bounds : option GeoBounds) :
  let geojson := convert_to_geojson objects image_shape geo_bounds in
  feature_count geojson = length (features geojson)
  /\ Forall (fun f => closed_ring (ring f)) (features geojson)
  /\ (fst image_shape <> 0%Z -> snd image_shape <> 0%Z ->
      map feature_index (features geojson) = change_positions 0 objects)
  /\ (fst image_shape = 0%Z \/ snd image_shape = 0%Z ->
      features geojson = []).
Proof.
  unfold convert_to_geojson, feature_collection. simpl.
  split; [reflexivity|]. split; [|split].
  - apply features_loop_closed. constructor.
  - intros HH HW. rewrite features_loop_positions by assumption. reflexivity.
  - intros Hz. apply features_loop_zero. exact Hz.
Qed.

(** For a list of [ChangeDetection] objects and an image of non-zero
    height and width, the export has one feature per detection, in order,
    with the type and bounding box of the detection and a ring of five
    points. *)
Theorem geojson_of_change_detections (detections : list ChangeDetection)
        (image_shape : Z * Z) (geo_bounds : option GeoBounds) :
  fst image_shape <> 0%Z -> snd image_shape <> 0%Z ->
  let geojson :=
    convert_to_geojson (map ChangeObject detections) image_shape geo_bounds in
  feature_count geojson = length detections
  /\ map feature_index (features geojson) = seq 0 (length detections)
  /\ map prop_change_type (features geojson)
     = map (fun d => value (change_type d)) detections
  /\ map prop_bbox (features geojson) = map bbox detections
  /\ Forall (fun f => length (ring f) = 5%nat) (features geojson).
Proof.
  intros HH HW. unfold convert_to_geojson, feature_collection. simpl.
  set (b := match geo_bounds with Some b => b | None => default_bounds end).
  assert (G : forall i acc,
             exists fs,
               features_loop image_shape b i (map ChangeObject detections) acc
               = acc ++ fs
               /\ map feature_index fs = seq i (length detections)
               /\ map prop_change_type fs
                  = map (fun d => value (change_type d)) detections
               /\ map prop_bbox fs = map bbox detections
               /\ Forall (fun f => length (ring f) = 5%nat) fs).
  { induction detections as [|d rest IH]; intros i acc; simpl.
    - exists []. rewrite app_nil_r. repeat split; constructor.
    - destruct (feature_of_change image_shape b i d HH HW)
        as (f & E & Hi & Hr & Ht & Hb).
      rewrite E. destruct (IH (S i) (acc ++ [f])) as (fs & Efs & H1 & H2 & H3 & H4).
      exists (f :: fs). rewrite Efs, <- app_assoc. split; [reflexivity|].
      simpl. rewrite Hi, H1, Ht, H2, Hb, H3.
      repeat split. constructor; assumption. }
  destruct (G 0%nat []) as (fs & E & H1 & H2 & H3 & H4).
  rewrite E. simpl. rewrite <- (length_map feature_index fs), H1, length_seq.
  repeat split; assumption.
Qed.

End GeoJsonTheorems.

(** ** Damage zones of every detector *)

Section DamageZones.

Import DisasterAnalyzer.

Open Scope string_scope.

Lemma flood_severity_level (area : Q) : damage_level (_estimate_flood_severity area).
Proof.
  unfold _estimate_flood_severity, damage_level.
  destruct (Qgtb area 10000), (Qgtb area 1000); simpl; auto.
Qed.

Lemma collapse_severity_level (area : Q) :
  damage_level (_estimate_collapse_severity area).
Proof.
  unfold _estimate_collapse_severity, damage_level.
  destruct (Qgtb area 5000), (Qgtb area 1000), (Qgtb area 200); simpl; auto.
Qed.

Lemma burn_severity_level (pre_region post_region : list pixel) :
  damage_level (_estimate_burn_severity pre_region post_region).
Proof.
  unfold _estimate_burn_severity, damage_level.
  set (loss := vegetation_loss pre_region post_region).
  destruct (np_gt loss 0.8), (np_gt loss 0.6), (np_gt loss 0.4); simpl; auto.
Qed.

Variable pixel_to_meter_ratio : Q.
Variable _count_affected_structures : Z * Z * Z * Z -> Z.
Variables pre_img post_img : ndarray pixel.

(** What every zone of a detector of minimum area [least], zone type [t]
    and confidence [c] satisfies. *)
Let zone_of (t : DamageZoneType) (least c : Q) (contours : list Cv2.contour)
    (z : DamageZone) : Prop :=
  exists contour,
    In contour contours
    /\ zone_type z = t
    /\ area_sq_meters z = Cv2.contourArea contour * pixel_to_meter_ratio
    /\ least <= area_sq_meters z
    /\ confidence z = c
    /\ bbox z = Cv2.boundingRect contour
    /\ polygon_coords z = Some contour
    /\ damage_level (severity z).

Lemma zone_of_cons t least c contour contours z :
  zone_of t least c contours z -> zone_of t least c (contour :: contours) z.
Proof.
  intros (c0 & Hin & H). exists c0. split; [right; exact Hin | exact H].
Qed.

Lemma burn_zones_loop_In (contours : list Cv2.contour) :
  forall zones z,
    In z (burn_zones_loop pixel_to_meter_ratio pre_img post_img contours zones) ->
    In z zones \/ zone_of BURNED 500 0.75 contours z.
Proof.
  induction contours as [|c rest IH]; intros zones z Hz; simpl in Hz.
  - left; exact Hz.
  - destruct (Qltb (Cv2.contourArea c * pixel_to_meter_ratio) 500) eqn:E.
    + destruct (IH _ _ Hz) as [H | H]; [left; exact H|].
      right. apply zone_of_cons. exact H.
    + apply Qltb_false in E.
      destruct (Cv2.boundingRect c) as [[[x y] w] h] eqn:Er.
      destruct (IH _ _ Hz) as [H | H].
      * apply in_app_or in H. destruct H as [H | [H | []]]; [left; exact H|].
        right. exists c. subst z. simpl.
        split; [left; reflexivity|]. repeat split; try reflexivity; try assumption.
        -- rewrite Er. reflexivity.
        -- apply burn_severity_level.
      * right. apply zone_of_cons. exact H.
Qed.

Lemma collapse_zones_loop_In (contours : list Cv2.contour) :
  forall zones z,
    In z (collapse_zones_loop pixel_to_meter_ratio contours zones) ->
    In z zones \/ zone_of COLLAPSED 50 0.7 contours z.
Proof.
  induction contours as [|c rest IH]; intros zones z Hz; simpl in Hz.
  - left; exact Hz.
  - destruct (Qltb (Cv2.contourArea c * pixel_to_meter_ratio) 50) eqn:E.
    + destruct (IH _ _ Hz) as [H | H]; [left; exact H|].
      right. apply zone_of_cons. exact H.
    + apply Qltb_false in E.
      destruct (IH _ _ Hz) as [H | H].
      * apply in_app_or in H. destruct H as [H | [H | []]]; [left; exact H|].
        right. exists c. subst z. simpl.
        split; [left; reflexivity|]. repeat split; try reflexivity; try assumption.
        apply collapse_severity_level.
      * right. apply zone_of_cons. exact H.
Qed.

Lemma generic_zones_loop_In (contours : list Cv2.contour) :
  forall zones z,
    In z (generic_zones_loop pixel_to_meter_ratio contours zones) ->
    In z zones \/ (zone_of DEBRIS 100 0.6 contours z /\ severity z = "moderate").
Proof.
  induction contours as [|c rest IH]; intros zones z Hz; simpl in Hz.
  - left; exact Hz.
  - destruct (Qltb (Cv2.contourArea c * pixel_to_meter_ratio) 100) eqn:E.
    + destruct (IH _ _ Hz) as [H | (H & Hs)]; [left; exact H|].
      right. split; [apply zone_of_cons; exact H | exact Hs].
    + apply Qltb_false in E.
      destruct (IH _ _ Hz) as [H | (H & Hs)].
      * apply in_app_or in H. destruct H as [H | [H | []]]; [left; exact H|].
        right. subst z. simpl. split; [|reflexivity]. exists c. simpl.
        split; [left; reflexivity|]. repeat split; try reflexivity; try assumption.
        unfold damage_level. simpl. auto.
      * right. split; [apply zone_of_cons; exact H | exact Hs].
Qed.

Lemma flood_zone_of (contours : list Cv2.contour) (z : DamageZone) :
  In z (_detect_flood_zones pixel_to_meter_ratio _count_affected_structures contours) ->
  zone_of FLOODED 100 0.8 contours z.
Proof.
  intros Hz. apply flood_zones_loop_In in Hz.
  destruct Hz as [[] | (c & Hin & Ha & ->)].
  exists c. simpl. split; [exact Hin|].
  repeat split; try reflexivity; [lra | apply flood_severity_level].
Qed.

(** Every zone of [_detect_damage_zones] comes from one of the contours:
    it has the zone type of the disaster type (DEBRIS for every type but
    flood, fire and earthquake), the area of the contour times the ratio,
    at least 50 square meters (100 flooded or debris, 500 burned), a
    confidence of 0.6 to 0.8 fixed by its type, the contour as polygon, its
    bounding rectangle as bounding box, and one of the four damage levels
    as severity. *)
Theorem damage_zone_invariants (disaster_type : DisasterType)
        (contours : list Cv2.contour) (z : DamageZone) :
  In z (_detect_damage_zones pixel_to_meter_ratio _count_affected_structures
                             pre_img post_img disaster_type contours) ->
  zone_type z = zone_type_of disaster_type
  /\ (exists contour,
         In contour contours
         /\ area_sq_meters z = Cv2.contourArea contour * pixel_to_meter_ratio
         /\ bbox z = Cv2.boundingRect contour
         /\ polygon_coords z = Some contour)
  /\ 50 <= area_sq_meters z
  /\ (zone_type z = FLOODED -> 100 <= area_sq_meters z /\ confidence z = 0.8)
  /\ (zone_type z = BURNED -> 500 <= area_sq_meters z /\ confidence z = 0.75)
  /\ (zone_type z = COLLAPSED -> confidence z = 0.7)
  /\ (zone_type z = DEBRIS ->
      100 <= area_sq_meters z /\ confidence z = 0.6 /\ severity z = "moderate")
  /\ damage_level (severity z).
Proof.
  intros Hz.
  assert (H : exists least c,
             zone_of (zone_type_of disaster_type) least c contours z
             /\ 50 <= least
             /\ (zone_type_of disaster_type = FLOODED -> least = 100 /\ c = 0.8)
             /\ (zone_type_of disaster_type = BURNED -> least = 500 /\ c = 0.75)
             /\ (zone_type_of disaster_type = COLLAPSED -> c = 0.7)
             /\ (zone_type_of disaster_type = DEBRIS ->
                 least = 100 /\ c = 0.6 /\ severity z = "moderate")).
  { unfold _detect_damage_zones in Hz. simpl in Hz.
    destruct disaster_type; simpl.
    - exists 100, 0.8. split; [apply flood_zone_of; exact Hz|].
      repeat split; try discriminate.
    - apply burn_zones_loop_In in Hz. destruct Hz as [[] | Hz].
      exists 500, 0.75. split; [exact Hz|]. repeat split; try discriminate.
    - apply collapse_zones_loop_In in Hz. destruct Hz as [[] | Hz].
      exists 50, 0.7. split; [exact Hz|]. repeat split; try discriminate.
    - apply generic_zones_loop_In in Hz. destruct Hz as [[] | (Hz & Hs)].
      exists 100, 0.6. split; [exact Hz|]. repeat split; try discriminate; assumption.
    - apply generic_zones_loop_In in Hz. destruct Hz as [[] | (Hz & Hs)].
      exists 100, 0.6. split; [exact Hz|]. repeat split; try discriminate; assumption.
    - apply generic_zones_loop_In in Hz. destruct Hz as [[] | (Hz & Hs)].
      exists 100, 0.6. split; [exact Hz|]. repeat split; try discriminate; assumption.
    - apply generic_zones_loop_In in Hz. destruct Hz as [[] | (Hz & Hs)].
      exists 100, 0.6. split; [exact Hz|]. repeat split; try discriminate; assumption. }
  destruct H as (least & c & (contour & Hin & Ht & Ha & Hl & Hc & Hb & Hp & Hs)
                 & H50 & HF & HB & HC & HD).
  split; [exact Ht|]. split; [exists contour; auto|].
  split; [lra|]. rewrite Ht.
  split; [intros E; destruct (HF E) as (-> & ->); auto|].
  split; [intros E; destruct (HB E) as (-> & ->); auto|].
  split; [intros E; rewrite (HC E) in Hc; exact Hc|].
  split; [intros E; destruct (HD E) as (-> & -> & Hm); auto|].
  exact Hs.
Qed.

(** When no contour is empty, every zone of [_detect_damage_zones] carries
    a non-empty polygon: both priority rasters fill it with
    [cv2.fillPoly], and their [np.maximum] branch is not used. *)
Theorem detector_zones_use_polygon_fill (disaster_type : DisasterType)
        (contours : list Cv2.contour) (z : DamageZone) (raster : ndarray Z) :
  Forall (fun contour => contour <> []) contours ->
  In z (_detect_damage_zones pixel_to_meter_ratio _count_affected_structures
                             pre_img post_img disaster_type contours) ->
  exists points,
    polygon_of z = Some points
    /\ evacuation_step raster z = Cv2.fillPoly raster points (priority_value z)
    /\ relief_step raster z = Cv2.fillPoly raster points (difficulty z).
Proof.
  intros Hne Hz.
  assert (H : exists contour, In contour contours /\ polygon_coords z = Some contour).
  { unfold _detect_damage_zones in Hz. simpl in Hz.
    destruct disaster_type;
      [ apply flood_zone_of in Hz
      | apply burn_zones_loop_In in Hz; destruct Hz as [[] | Hz]
      | apply collapse_zones_loop_In in Hz; destruct Hz as [[] | Hz]
      | apply generic_zones_loop_In in Hz; destruct Hz as [[] | (Hz & _)] ..];
      destruct Hz as (c & Hin & _ & _ & _ & _ & _ & Hp & _); exists c; auto. }
  destruct H as (contour & Hin & Hp).
  rewrite Forall_forall in Hne. specialize (Hne contour Hin).
  destruct contour as [|p ps]; [congruence|].
  exists (p :: ps).
  assert (Hpoly : polygon_of z = Some (p :: ps)) by (unfold polygon_of; rewrite Hp; reflexivity).
  split; [exact Hpoly|].
  unfold evacuation_step, relief_step. destruct (bbox z) as [[[x y] w] h].
  rewrite Hpoly. split; reflexivity.
Qed.

End DamageZones.

(** ** Severity by area *)

Section SeverityByArea.

Import DisasterAnalyzer.

Lemma flood_rank (area : Q) :
  damage_rank (_estimate_flood_severity area)
  = if Qgtb area 10000 then 2%nat else if Qgtb area 1000 then 1%nat else 0%nat.
Proof.
  unfold _estimate_flood_severity.
  destruct (Qgtb area 10000), (Qgtb area 1000); reflexivity.
Qed.

Lemma collapse_rank (area : Q) :
  damage_rank (_estimate_collapse_severity area)
  = if Qgtb area 5000 then 3%nat
    else if Qgtb area 1000 then 2%nat
    else if Qgtb area 200 then 1%nat
    else 0%nat.
Proof.
  unfold _estimate_collapse_severity.
  destruct (Qgtb area 5000), (Qgtb area 1000), (Qgtb area 200); reflexivity.
Qed.

Lemma Qgtb_mono (a1 a2 c : Q) :
  a1 <= a2 -> Qgtb a1 c = true -> Qgtb a2 c = true.
Proof.
  intros H H1. apply Qgtb_true in H1. apply Qgtb_true. lra.
Qed.

(** A larger area never gets a lower severity, for flooded and for
    collapsed zones, in the order minor < moderate < severe <
    catastrophic; a flooded zone stays below "catastrophic", which a
    collapsed zone reaches above 5000 square meters. *)
Theorem severity_grows_with_area (a1 a2 : Q) :
  a1 <= a2 ->
  (damage_rank (_estimate_flood_severity a1)
   <= damage_rank (_estimate_flood_severity a2))%nat
  /\ (damage_rank (_estimate_collapse_severity a1)
      <= damage_rank (_estimate_collapse_severity a2))%nat
  /\ (damage_rank (_estimate_flood_severity a2) <= 2)%nat
  /\ (5000 < a2 -> _estimate_collapse_severity a2 = "catastrophic"%string).
Proof.
  intros H. rewrite !flood_rank, !collapse_rank.
  split; [|split; [|split]].
  - destruct (Qgtb a1 10000) eqn:E1.
    + rewrite (Qgtb_mono _ _ _ H E1). lia.
    + destruct (Qgtb a1 1000) eqn:E2.
      * rewrite (Qgtb_mono _ _ _ H E2). destruct (Qgtb a2 10000); lia.
      * lia.
  - destruct (Qgtb a1 5000) eqn:E1.
    + rewrite (Qgtb_mono _ _ _ H E1). lia.
    + destruct (Qgtb a1 1000) eqn:E2.
      * rewrite (Qgtb_mono _ _ _ H E2). destruct (Qgtb a2 5000); lia.
      * destruct (Qgtb a1 200) eqn:E3.
        -- rewrite (Qgtb_mono _ _ _ H E3).
           destruct (Qgtb a2 5000), (Qgtb a2 1000); lia.
        -- lia.
  - destruct (Qgtb a2 10000), (Qgtb a2 1000); lia.
  - intros H5. unfold _estimate_collapse_severity.
    rewrite (proj2 (Qgtb_true a2 5000) H5). reflexivity.
Qed.

Lemma severity_grows_with_area_witness :
  150 <= 6000
  /\ (damage_rank (_estimate_flood_severity 150)
      <= damage_rank (_estimate_flood_severity 6000))%nat
  /\ (damage_rank (_estimate_collapse_severity 150)
      <= damage_rank (_estimate_collapse_severity 6000))%nat
  /\ (damage_rank (_estimate_flood_severity 6000) <= 2)%nat
  /\ (5000 < 6000 -> _estimate_collapse_severity 6000 = "catastrophic"%string).
Proof.
  assert (H : 150 <= 6000) by discriminate.
  split; [exact H|]. exact (severity_grows_with_area 150 6000 H).
Defined.

End SeverityByArea.

(** ** Rasters: values and order of the zones *)

Section RasterInvariants.

Import DisasterAnalyzer.

Lemma map_cells_shape {A : Type} (f : Z -> Z -> A -> A) (a : ndarray A) :
  shape (map_cells f a) = shape a.
Proof. reflexivity. Qed.

Lemma combine_seq_length {A : Type} (l : list A) (start : nat) :
  length (combine (seq start (length l)) l) = length l.
Proof. rewrite length_combine, length_seq. lia. Qed.

Lemma map_cells_length {A : Type} (f : Z -> Z -> A -> A) (a : ndarray A) :
  length (data (map_cells f a)) = length (data a).
Proof.
  unfold map_cells. simpl. rewrite length_map. apply combine_seq_length.
Qed.

Lemma map_cells_wf {A : Type} (f : Z -> Z -> A -> A) (a : ndarray A) :
  wf_array a -> wf_array (map_cells f a).
Proof.
  unfold wf_array. rewrite map_cells_length, map_cells_shape. auto.
Qed.

Lemma map_cells_among (values : list Z) (f : Z -> Z -> Z -> Z) (a : ndarray Z) :
  (forall row col old, In old values -> In (f row col old) values) ->
  cells_among values a -> cells_among values (map_cells f a).
Proof.
  intros Hf Ha. unfold cells_among, map_cells in *. simpl.
  apply Forall_forall. intros v Hv. apply in_map_iff in Hv.
  destruct Hv as ([k old] & <- & Hin). apply Hf.
  apply in_combine_r in Hin. rewrite Forall_forall in Ha. apply Ha. exact Hin.
Qed.

Lemma full_wf {A : Type} (sh : nat * nat) (v : A) : wf_array (full sh v).
Proof. unfold wf_array, full. simpl. apply repeat_length. Qed.

Lemma full_among (values : list Z) (sh : nat * nat) (v : Z) :
  In v values -> cells_among values (full sh v).
Proof.
  intros Hv. unfold cells_among, full. simpl.
  apply Forall_forall. intros x Hx. apply repeat_spec in Hx. subst. exact Hv.
Qed.

Lemma priority_value_among (zone : DamageZone) :
  In (priority_value zone) [0; 100; 150; 200; 255]%Z.
Proof.
  unfold priority_value.
  destruct (String.eqb (severity zone) "catastrophic"),
    (String.eqb (severity zone) "severe"),
    (String.eqb (severity zone) "moderate"); simpl; auto 10.
Qed.

Lemma difficulty_among (zone : DamageZone) :
  In (difficulty zone) [100; 150; 200; 255]%Z.
Proof. unfold difficulty. destruct (zone_type zone); simpl; auto 10. Qed.

(** One turn of either loop keeps the shape, the number of cells and a set
    of values that holds the fill value. *)
Lemma step_keeps (values : list Z)
      (step : ndarray Z -> DamageZone -> ndarray Z) (fill : DamageZone -> Z) :
  (forall a zone,
      step a zone
      = let '(x, y, w, h) := bbox zone in
        match polygon_of zone with
        | Some points => Cv2.fillPoly a points (fill zone)
        | None => maximum_slice a x y w h (fill zone)
        end) ->
  (forall zone, In (fill zone) values) ->
  forall zones a,
    wf_array a -> cells_among values a ->
    let result := fold_left step zones a in
    shape result = shape a /\ wf_array result /\ cells_among values result.
Proof.
  intros Hstep Hfill. induction zones as [|zone rest IH]; intros a Hwf Ha; simpl.
  - auto.
  - assert (H : shape (step a zone) = shape a /\ wf_array (step a zone)
                /\ cells_among values (step a zone)).
    { rewrite Hstep. destruct (bbox zone) as [[[x y] w] h].
      destruct (polygon_of zone) as [points|].
      - unfold Cv2.fillPoly. split; [reflexivity|].
        split; [apply map_cells_wf; exact Hwf|].
        apply map_cells_among; [|exact Ha].
        intros row col old Hold. destruct (Cv2.poly_covers _ _ _); auto.
      - unfold maximum_slice. split; [reflexivity|].
        split; [apply map_cells_wf; exact Hwf|].
        apply map_cells_among; [|exact Ha].
        intros row col old Hold.
        destruct (in_slice _ _ _ _ && in_slice _ _ _ _); [|exact Hold].
        destruct (Z.max_spec old (fill zone)) as [(_ & ->) | (_ & ->)]; auto. }
    destruct H as (H1 & H2 & H3).
    destruct (IH (step a zone) H2 H3) as (I1 & I2 & I3).
    split; [congruence|]. split; assumption.
Qed.

(** Both priority rasters have the requested shape, one cell per pixel,
    and only hold the values of the code: 0, 100, 150, 200 or 255 for the
    evacuation raster; 100, 150, 200 or 255 for the relief raster, which
    therefore never falls below its background of 100. *)
Theorem raster_values (damage_zones : list DamageZone) (shape : nat * nat) :
  let evacuation := _generate_evacuation_priority_map damage_zones shape in
  let relief := _generate_relief_access_map damage_zones shape in
  Np.shape evacuation = shape /\ wf_array evacuation
  /\ cells_among [0; 100; 150; 200; 255]%Z evacuation
  /\ Np.shape relief = shape /\ wf_array relief
  /\ cells_among [100; 150; 200; 255]%Z relief
  /\ Forall (fun v => (100 <= v <= 255)%Z) (data relief).
Proof.
  unfold _generate_evacuation_priority_map, _generate_relief_access_map.
  destruct (step_keeps [0; 100; 150; 200; 255]%Z evacuation_step priority_value
              (fun a zone => eq_refl) priority_value_among damage_zones
              (full shape 0%Z) (full_wf _ _))
    as (E1 & E2 & E3); [apply full_among; simpl; auto|].
  destruct (step_keeps [100; 150; 200; 255]%Z relief_step difficulty
              (fun a zone => eq_refl) difficulty_among damage_zones
              (full shape 100%Z) (full_wf _ _))
    as (R1 & R2 & R3); [apply full_among; simpl; auto|].
  cbv zeta. repeat split; try assumption.
  unfold cells_among in R3. eapply Forall_impl; [|exact R3].
  intros v Hv. simpl in Hv. intuition; subst; lia.
Qed.

End RasterInvariants.

(** ** Zones without polygon: the order does not matter *)

Section BboxOrder.

Import DisasterAnalyzer.

Lemma map_combine_seq_twice {A : Type} (f g : nat -> A -> A) (l : list A) :
  forall start,
    map (fun kv => g (fst kv) (snd kv))
        (combine (seq start (length (map (fun kv => f (fst kv) (snd kv))
                                         (combine (seq start (length l)) l))))
                 (map (fun kv => f (fst kv) (snd kv))
                      (combine (seq start (length l)) l)))
    = map (fun kv => g (fst kv) (f (fst kv) (snd kv)))
          (combine (seq start (length l)) l).
Proof.
  induction l as [|v l IH]; intros start; simpl; [reflexivity|].
  f_equal. specialize (IH (S start)).
  rewrite length_map, combine_seq_length in IH |- *. exact IH.
Qed.

(** Two rewritings of the cells, one after the other. *)
Lemma map_cells_twice {A : Type} (f g : Z -> Z -> A -> A) (a : ndarray A) :
  map_cells g (map_cells f a)
  = map_cells (fun row col old => g row col (f row col old)) a.
Proof.
  unfold map_cells at 1 3. rewrite map_cells_shape. f_equal.
  unfold map_cells. cbn [data shape].
  set (w := Z.of_nat (snd (shape a))).
  apply (map_combine_seq_twice
           (fun k v => f (Z.of_nat k / w)%Z (Z.of_nat k mod w)%Z v)
           (fun k v => g (Z.of_nat k / w)%Z (Z.of_nat k mod w)%Z v)
           (data a) 0%nat).
Qed.

Lemma map_cells_ext {A : Type} (f g : Z -> Z -> A -> A) (a : ndarray A) :
  (forall row col old, f row col old = g row col old) ->
  map_cells f a = map_cells g a.
Proof.
  intros H. unfold map_cells. f_equal. apply map_ext. intros kv. apply H.
Qed.

Lemma maximum_slice_commute (a : ndarray Z) (x1 y1 w1 h1 v1 x2 y2 w2 h2 v2 : Z) :
  maximum_slice (maximum_slice a x1 y1 w1 h1 v1) x2 y2 w2 h2 v2
  = maximum_slice (maximum_slice a x2 y2 w2 h2 v2) x1 y1 w1 h1 v1.
Proof.
  unfold maximum_slice. rewrite !map_cells_shape, !map_cells_twice.
  apply map_cells_ext. intros row col old.
  destruct (in_slice (fst (shape a)) y1 (y1 + h1) row
            && in_slice (snd (shape a)) x1 (x1 + w1) col),
    (in_slice (fst (shape a)) y2 (y2 + h2) row
     && in_slice (snd (shape a)) x2 (x2 + w2) col); lia.
Qed.

Lemma fold_left_permutation {A B : Type} (step : A -> B -> A) (l l' : list B) :
  Permutation l l' ->
  (forall a x y, In x l -> In y l -> step (step a x) y = step (step a y) x) ->
  forall a, fold_left step l a = fold_left step l' a.
Proof.
  induction 1 as [| x l l' _ IH | x y l | l l' l'' H1 IH1 H2 IH2];
    intros Hc a; simpl.
  - reflexivity.
  - apply IH. intros b u v Hu Hv. apply Hc; right; assumption.
  - rewrite (Hc a y x); [reflexivity | left; reflexivity | right; left; reflexivity].
  - rewrite (IH1 Hc a). apply IH2.
    intros b u v Hu Hv. apply Hc; eapply Permutation_in;
      try (apply Permutation_sym; exact H1); assumption.
Qed.

(** For zones that carry no polygon both rasters combine by maximum, so
    that listing the zones in another order gives the same rasters. *)
Theorem bbox_zones_in_any_order (zones zones' : list DamageZone) (shape : nat * nat) :
  Permutation zones zones' ->
  Forall (fun zone => polygon_of zone = None) zones ->
  _generate_evacuation_priority_map zones shape
  = _generate_evacuation_priority_map zones' shape
  /\ _generate_relief_access_map zones shape
     = _generate_relief_access_map zones' shape.
Proof.
  intros Hperm Hnone. rewrite Forall_forall in Hnone.
  unfold _generate_evacuation_priority_map, _generate_relief_access_map.
  split; apply fold_left_permutation; try exact Hperm;
    intros a z1 z2 H1 H2; unfold evacuation_step, relief_step;
    destruct (bbox z1) as [[[x1 y1] w1] h1], (bbox z2) as [[[x2 y2] w2] h2];
    rewrite (Hnone z1 H1), (Hnone z2 H2); apply maximum_slice_commute.
Qed.

Lemma bbox_zones_in_any_order_witness :
  (Permutation
     [mkDamageZone FLOODED "catastrophic" (0, 0, 1, 2)%Z 2 0.8 0 None;
      mkDamageZone BURNED "minor" (0, 0, 2, 2)%Z 4 0.75 0 None]
     [mkDamageZone BURNED "minor" (0, 0, 2, 2)%Z 4 0.75 0 None;
      mkDamageZone FLOODED "catastrophic" (0, 0, 1, 2)%Z 2 0.8 0 None]
   /\ Forall (fun zone => polygon_of zone = None)
             [mkDamageZone FLOODED "catastrophic" (0, 0, 1, 2)%Z 2 0.8 0 None;
              mkDamageZone BURNED "minor" (0, 0, 2, 2)%Z 4 0.75 0 None])
  /\ _generate_evacuation_priority_map
       [mkDamageZone FLOODED "catastrophic" (0, 0, 1, 2)%Z 2 0.8 0 None;
        mkDamageZone BURNED "minor" (0, 0, 2, 2)%Z 4 0.75 0 None] (2, 2)%nat
     = _generate_evacuation_priority_map
         [mkDamageZone BURNED "minor" (0, 0, 2, 2)%Z 4 0.75 0 None;
          mkDamageZone FLOODED "catastrophic" (0, 0, 1, 2)%Z 2 0.8 0 None] (2, 2)%nat
  /\ _generate_relief_access_map
       [mkDamageZone FLOODED "catastrophic" (0, 0, 1, 2)%Z 2 0.8 0 None;
        mkDamageZone BURNED "minor" (0, 0, 2, 2)%Z 4 0.75 0 None] (2, 2)%nat
     = _generate_relief_access_map
         [mkDamageZone BURNED "minor" (0, 0, 2, 2)%Z 4 0.75 0 None;
          mkDamageZone FLOODED "catastrophic" (0, 0, 1, 2)%Z 2 0.8 0 None] (2, 2)%nat.
Proof.
  assert (H1 : Permutation
     [mkDamageZone FLOODED "catastrophic" (0, 0, 1, 2)%Z 2 0.8 0 None;
      mkDamageZone BURNED "minor" (0, 0, 2, 2)%Z 4 0.75 0 None]
     [mkDamageZone BURNED "minor" (0, 0, 2, 2)%Z 4 0.75 0 None;
      mkDamageZone FLOODED "catastrophic" (0, 0, 1, 2)%Z 2 0.8 0 None])
    by apply perm_swap.
  assert (H2 : Forall (fun zone => polygon_of zone = None)
             [mkDamageZone FLOODED "catastrophic" (0, 0, 1, 2)%Z 2 0.8 0 None;
              mkDamageZone BURNED "minor" (0, 0, 2, 2)%Z 4 0.75 0 None])
    by (repeat constructor).
  split; [split; assumption|].
  exact (bbox_zones_in_any_order _ _ (2, 2)%nat H1 H2).
Defined.

End BboxOrder.

(** ** Emergency priority *)

Section EmergencyPriority.

Import DisasterAnalyzer GeospatialProcessor.

Lemma priority_points_range (zone : DamageZone) : (1 <= priority_points zone <= 4)%Z.
Proof.
  unfold priority_points.
  destruct (String.eqb (severity zone) "catastrophic"),
    (String.eqb (severity zone) "severe"),
    (String.eqb (severity zone) "moderate"); lia.
Qed.

(** The score of a list of zones. *)
Lemma priority_score_from (zones : list DamageZone) :
  forall start,
    fold_left (fun score zone => (score + priority_points zone)%Z) zones start
    = (start + fold_left (fun score zone => (score + priority_points zone)%Z) zones 0)%Z.
Proof.
  induction zones as [|z zones IH]; intros start; cbn [fold_left]; [lia|].
  rewrite IH, (IH (0 + priority_points z)%Z). lia.
Qed.

Lemma priority_score_bounds (zones : list DamageZone) :
  (Z.of_nat (length zones)
   <= fold_left (fun score zone => (score + priority_points zone)%Z) zones 0
   <= 4 * Z.of_nat (length zones))%Z.
Proof.
  induction zones as [|z zones IH]; [simpl; lia|].
  cbn [fold_left]. rewrite priority_score_from.
  pose proof (priority_points_range z).
  change (length (z :: zones)) with (S (length zones)). lia.
Qed.

Lemma priority_score_app (zones extra : list DamageZone) :
  fold_left (fun score zone => (score + priority_points zone)%Z) (zones ++ extra) 0%Z
  = (fold_left (fun score zone => (score + priority_points zone)%Z) zones 0
     + fold_left (fun score zone => (score + priority_points zone)%Z) extra 0)%Z.
Proof. rewrite fold_left_app. apply priority_score_from. Qed.

Lemma priority_rank_of_score (zones : list DamageZone) :
  severity_rank (_calculate_emergency_priority zones)
  = let score :=
      fold_left (fun score zone => (score + priority_points zone)%Z) zones 0%Z in
    if (score >=? 10)%Z then 3%nat
    else if (score >=? 6)%Z then 2%nat
    else if (score >=? 3)%Z then 1%nat
    else 0%nat.
Proof.
  unfold _calculate_emergency_priority. cbv zeta.
  destruct (_ >=? 10)%Z; [reflexivity|].
  destruct (_ >=? 6)%Z; [reflexivity|].
  destruct (_ >=? 3)%Z; reflexivity.
Qed.

(** The emergency priority only rises when zones are added, does not
    depend on the order of the zones, is "low" for no zone, never "low"
    for three zones or more, and "critical" for ten zones or more,
    whatever their severities. *)
Theorem emergency_priority_grows (zones extra zones' : list DamageZone) :
  (severity_rank (_calculate_emergency_priority zones)
   <= severity_rank (_calculate_emergency_priority (zones ++ extra)))%nat
  /\ (Permutation zones zones' ->
      _calculate_emergency_priority zones = _calculate_emergency_priority zones')
  /\ _calculate_emergency_priority [] = "low"%string
  /\ ((10 <= length zones)%nat ->
      _calculate_emergency_priority zones = "critical"%string)
  /\ ((3 <= length zones)%nat ->
      _calculate_emergency_priority zones <> "low"%string).
Proof.
  split; [|split; [|split; [|split]]].
  - rewrite !priority_rank_of_score. cbv zeta. rewrite priority_score_app.
    pose proof (priority_score_bounds extra) as He.
    set (s := fold_left _ zones 0%Z). set (e := fold_left _ extra 0%Z) in *.
    destruct (Z.geb_spec s 10), (Z.geb_spec (s + e) 10),
      (Z.geb_spec s 6), (Z.geb_spec (s + e) 6),
      (Z.geb_spec s 3), (Z.geb_spec (s + e) 3); lia.
  - intros Hp. unfold _calculate_emergency_priority.
    rewrite (fold_left_permutation _ zones zones' Hp); [reflexivity|].
    intros a x y _ _. lia.
  - reflexivity.
  - intros Hlen. unfold _calculate_emergency_priority.
    pose proof (priority_score_bounds zones) as Hb.
    destruct (Z.geb_spec (fold_left (fun score zone => (score + priority_points zone)%Z)
                                    zones 0%Z) 10); [reflexivity | lia].
  - intros Hlen. unfold _calculate_emergency_priority.
    pose proof (priority_score_bounds zones) as Hb.
    set (s := fold_left _ zones 0%Z) in *.
    destruct (Z.geb_spec s 10); [discriminate|].
    destruct (Z.geb_spec s 6); [discriminate|].
    destruct (Z.geb_spec s 3); [discriminate | lia].
Qed.

End EmergencyPriority.

(** ** Overall damage assessment *)

Section OverallDamage.

Import DisasterAnalyzer PyExc.

Lemma dict_add_outcome {V : Type} (add : V -> V) (d : list (string * V))
      (key : string) :
  (In key (map fst d) ->
   exists d', dict_add add d key = Return d' /\ map fst d' = map fst d)
  /\ (~ In key (map fst d) -> dict_add add d key = Throw KeyError).
Proof.
  split; [|apply dict_add_missing].
  induction d as [|[k v] rest IH]; intros Hin; simpl in *; [destruct Hin|].
  destruct (String.eqb_spec k key) as [-> | Hne].
  - eexists. split; reflexivity.
  - destruct Hin as [Hin | Hin]; [contradiction|].
    destruct (IH Hin) as (d' & E & Hk). rewrite E. simpl.
    eexists. split; [reflexivity|]. simpl. congruence.
Qed.

Lemma fold_Qplus_from (l : list Q) :
  forall a, fold_left Qplus l a == a + Qsum l.
Proof.
  unfold Qsum. induction l as [|x l IH]; intros a; simpl; [ring|].
  rewrite IH, (IH (0 + x)). ring.
Qed.

Lemma Qsum_cons (x : Q) (l : list Q) : Qsum (x :: l) == x + Qsum l.
Proof. unfold Qsum. simpl. rewrite fold_Qplus_from. unfold Qsum. ring. Qed.

(** Sum of the values of [damage_by_severity] after one [+=]. *)
Lemma dict_add_sum (d : list (string * Q)) (key : string) (area : Q) :
  forall d',
    dict_add (fun v => v + area) d key = Return d' ->
    Qsum (map snd d') == Qsum (map snd d) + area.
Proof.
  induction d as [|[k v] rest IH]; intros d' E; simpl in E; [discriminate|].
  destruct (String.eqb k key).
  - injection E as <-. simpl. rewrite !Qsum_cons. simpl. ring.
  - destruct (dict_add (fun v0 => v0 + area) rest key) as [rest'|] eqn:Er;
      simpl in E; [|discriminate].
    injection E as <-. simpl. rewrite !Qsum_cons, (IH _ eq_refl). simpl. ring.
Qed.

Lemma type_stats_add_totals (by_type : list (string * type_stats))
      (key : string) (area conf : Q) :
  recorded_count (type_stats_add by_type key area conf)
  = (recorded_count by_type + 1)%Z
  /\ recorded_area (type_stats_add by_type key area conf)
     == recorded_area by_type + area.
Proof.
  unfold recorded_count, recorded_area.
  induction by_type as [|[k st] rest (IH1 & IH2)]; simpl.
  - split; [reflexivity | ring].
  - destruct (String.eqb k key); simpl.
    + split; [lia | ring].
    + split; [lia | rewrite IH2; ring].
Qed.

Lemma average_entries_keep (entries : list (string * type_stats)) :
  exists averaged,
    average_entries entries = Return averaged
    /\ recorded_count averaged = recorded_count entries
    /\ recorded_area averaged = recorded_area entries
    /\ map fst averaged = map fst entries.
Proof.
  unfold recorded_count, recorded_area.
  induction entries as [|[k st] rest (averaged & E & H1 & H2 & H3)]; simpl.
  - exists []. repeat split.
  - unfold average_entry. simpl.
    destruct (Z.gtb_spec (stats_count st) 0) as [Hpos | Hle].
    + rewrite truediv_nonzero by (apply inject_Z_pos_nonzero; exact Hpos).
      simpl. rewrite E. simpl. eexists. split; [reflexivity|]. simpl.
      rewrite H1, H2, H3. repeat split.
    + simpl. rewrite E. simpl. eexists. split; [reflexivity|]. simpl.
      rewrite H1, H2, H3. repeat split.
Qed.

Lemma assess_loop_valid (zones : list DamageZone) :
  Forall (fun z => damage_level (severity z)) zones ->
  forall st,
    map fst (damage_by_severity st)
    = ["minor"; "moderate"; "severe"; "catastrophic"]%string ->
    exists st',
      assess_loop zones st = Return st'
      /\ map fst (damage_by_severity st')
         = ["minor"; "moderate"; "severe"; "catastrophic"]%string
      /\ total_damaged_area st'
         = fold_left Qplus (map area_sq_meters zones) (total_damaged_area st)
      /\ Qsum (map snd (damage_by_severity st'))
         == Qsum (map snd (damage_by_severity st)) + Qsum (map area_sq_meters zones)
      /\ recorded_count (damage_by_type st')
         = (recorded_count (damage_by_type st) + Z.of_nat (length zones))%Z
      /\ recorded_area (damage_by_type st')
         == recorded_area (damage_by_type st) + Qsum (map area_sq_meters zones).
Proof.
  induction 1 as [|z zones Hz _ IH]; intros st Hkeys.
  - exists st. simpl. split; [reflexivity|]. split; [exact Hkeys|].
    split; [reflexivity|]. unfold Qsum. simpl.
    split; [ring|]. split; [lia | ring].
  - cbn [assess_loop].
    destruct (proj1 (dict_add_outcome (fun v => v + area_sq_meters z)
                       (damage_by_severity st) (severity z)))
      as (sev' & Esev & Hkeys').
    { rewrite Hkeys. exact Hz. }
    rewrite Esev. cbn [and_then].
    destruct (IH (mkAssessmentState
                    (type_stats_add (damage_by_type st)
                       (zone_type_value (zone_type z)) (area_sq_meters z)
                       (confidence z))
                    sev' (total_damaged_area st + area_sq_meters z)))
      as (st' & E & K & T & Sv & C & A).
    { simpl. rewrite Hkeys'. exact Hkeys. }
    exists st'. split; [exact E|]. split; [exact K|]. simpl in T, Sv, C, A.
    split; [exact T|].
    destruct (type_stats_add_totals (damage_by_type st)
                (zone_type_value (zone_type z)) (area_sq_meters z) (confidence z))
      as (C1 & A1).
    split; [|split].
    + rewrite Sv, (dict_add_sum _ _ _ _ Esev). simpl. rewrite Qsum_cons. ring.
    + rewrite C, C1. change (length (z :: zones)) with (S (length zones)). lia.
    + rewrite A, A1. simpl. rewrite Qsum_cons. ring.
Qed.



End OverallDamage.

(** ** Assessing the zones of the detectors *)

Section AssessDetected.

Import DisasterAnalyzer PyExc.

Variable pixel_to_meter_ratio : Q.
Variable _count_affected_structures : Z * Z * Z * Z -> Z.
Variables pre_img post_img : ndarray pixel.

Lemma detected_zone_level (disaster_type : DisasterType)
      (contours : list Cv2.contour) :
  Forall (fun z => damage_level (severity z)
                   /\ zone_type z = zone_type_of disaster_type)
         (_detect_damage_zones pixel_to_meter_ratio _count_affected_structures
                               pre_img post_img disaster_type contours).
Proof.
  apply Forall_forall. intros z Hz.
  unfold _detect_damage_zones in Hz. simpl in Hz.
  destruct disaster_type;
    [ apply (flood_zone_of pixel_to_meter_ratio _count_affected_structures
               contours z) in Hz
    | apply (burn_zones_loop_In pixel_to_meter_ratio pre_img post_img
               contours [] z) in Hz; destruct Hz as [[] | Hz]
    | apply (collapse_zones_loop_In pixel_to_meter_ratio contours [] z) in Hz;
      destruct Hz as [[] | Hz]
    | apply (generic_zones_loop_In pixel_to_meter_ratio contours [] z) in Hz;
      destruct Hz as [[] | (Hz & _)] ..];
    destruct Hz as (c & _ & Ht & _ & _ & _ & _ & _ & Hs); split; assumption.
Qed.

Lemma type_stats_add_keys (by_type : list (string * type_stats))
      (key : string) (area conf : Q) (k : string) :
  In k (map fst (type_stats_add by_type key area conf)) ->
  In k (map fst by_type) \/ k = key.
Proof.
  induction by_type as [|[k0 st] rest IH]; simpl.
  - intros [<- | []]. right; reflexivity.
  - destruct (String.eqb k0 key); simpl.
    + intros H; left; exact H.
    + intros [H | H]; [left; left; exact H|].
      destruct (IH H) as [H' | H']; [left; right; exact H' | right; exact H'].
Qed.

Lemma assess_loop_type_keys (t : DamageZoneType) (zones : list DamageZone) :
  Forall (fun z => zone_type z = t) zones ->
  forall st st',
    assess_loop zones st = Return st' ->
    (forall k, In k (map fst (damage_by_type st)) -> k = zone_type_value t) ->
    forall k, In k (map fst (damage_by_type st')) -> k = zone_type_value t.
Proof.
  induction 1 as [|z zones Hz _ IH]; intros st st' E Hk; cbn [assess_loop] in E.
  - injection E as <-. exact Hk.
  - destruct (dict_add (fun v => v + area_sq_meters z) (damage_by_severity st)
                       (severity z)) as [sev'|e] eqn:Es;
      cbn [and_then] in E; [|discriminate].
    apply (IH _ _ E). cbn [damage_by_type]. intros k Hin.
    apply type_stats_add_keys in Hin. destruct Hin as [Hin | ->].
    + apply Hk. exact Hin.
    + rewrite Hz. reflexivity.
Qed.

(** The zones of [_detect_damage_zones] never make [_assess_overall_damage]
    raise KeyError.  The assessment raises ZeroDivisionError when the image
    area times the ratio is zero, and otherwise returns: every zone is
    counted, under the one zone type of the disaster type. *)
Theorem detected_zones_assessed (disaster_type : DisasterType)
        (contours : list Cv2.contour) (image_shape : Z * Z) :
  let zones :=
    _detect_damage_zones pixel_to_meter_ratio _count_affected_structures
                         pre_img post_img disaster_type contours in
  let total_area :=
    inject_Z (fst image_shape * snd image_shape) * pixel_to_meter_ratio in
  (total_area == 0 ->
   _assess_overall_damage pixel_to_meter_ratio zones image_shape
   = Throw (Builtin ZeroDivisionError))
  /\ (~ total_area == 0 ->
      exists r,
        _assess_overall_damage pixel_to_meter_ratio zones image_shape = Return r
        /\ total_damage_zones r = length zones
        /\ emergency_priority r = _calculate_emergency_priority zones
        /\ recorded_count (assessed_by_type r) = Z.of_nat (length zones)
        /\ (forall k, In k (map fst (assessed_by_type r)) ->
                      k = zone_type_value (zone_type_of disaster_type))).
Proof.
  cbv zeta.
  set (zones := _detect_damage_zones pixel_to_meter_ratio _count_affected_structures
                                     pre_img post_img disaster_type contours).
  set (total_area := inject_Z (fst image_shape * snd image_shape) * pixel_to_meter_ratio).
  set (st0 := mkAssessmentState []
                [("minor", 0); ("moderate", 0); ("severe", 0); ("catastrophic", 0)]%string
                0).
  pose proof (detected_zone_level disaster_type contours) as Hall.
  fold zones in Hall.
  assert (Hlevel : Forall (fun z => damage_level (severity z)) zones).
  { eapply Forall_impl; [|exact Hall]. intros z (H & _). exact H. }
  assert (Htype : Forall (fun z => zone_type z = zone_type_of disaster_type) zones).
  { eapply Forall_impl; [|exact Hall]. intros z (_ & H). exact H. }
  destruct (assess_loop_valid _ Hlevel st0 eq_refl) as (st & E & _ & _ & _ & C & _).
  destruct (average_entries_keep (damage_by_type st)) as (avg & Ea & C' & _ & K').
  unfold _assess_overall_damage. fold total_area. fold st0.
  rewrite E. cbn [and_then]. rewrite Ea. cbn [and_then].
  split.
  - intros Hz. unfold truediv.
    rewrite (proj2 (Qeq_bool_iff total_area 0) Hz). reflexivity.
  - intros Hnz. rewrite (truediv_nonzero _ _ Hnz). cbn [lift and_then].
    eexists. split; [reflexivity|].
    cbn [total_damage_zones emergency_priority assessed_by_type].
    split; [reflexivity|]. split; [reflexivity|].
    split; [rewrite C', C; reflexivity|].
    rewrite K'.
    apply (assess_loop_type_keys _ _ Htype st0 st E).
    intros k [].
Qed.

End AssessDetected.

(** ** The centre of the map configurations *)

Section MapCentre.

Import GeospatialProcessor PyExc.

Lemma map_center_asdict (b : GeoBounds) :
  map_center (Some (asdict b)) None
  = Return (mkGeoCoordinate ((north b + south b) / 2) ((east b + west b) / 2) None).
Proof. reflexivity. Qed.

Lemma midpoint_between (lo hi : Q) :
  lo <= hi -> lo <= (hi + lo) / 2 /\ (hi + lo) / 2 <= hi.
Proof.
  intros H.
  assert (E : (hi + lo) / 2 == (hi + lo) * (1 # 2)) by (unfold Qdiv; reflexivity).
  rewrite E. split; lra.
Qed.

(** On the GeoJSON of [convert_to_geojson], with no centre given, both
    configurations find the four bounds and never raise KeyError: the
    centre is the middle of the bounds used for the conversion, Mapbox gets
    it as [lon, lat] and Leaflet as [lat, lon], it lies within bounds that
    are in order, and with the default bounds it is the fixed point
    (39.5, -73.5) of the fallback. *)
Theorem map_center_of_geojson (change_detections : list detection_object)
        (image_shape : Z * Z) (geo_bounds : option GeoBounds) :
  let b := match geo_bounds with None => default_bounds | Some b => b end in
  let geojson_data := convert_to_geojson change_detections image_shape geo_bounds in
  let lat := (north b + south b) / 2 in
  let lon := (east b + west b) / 2 in
  mapbox_center geojson_data None = Return [lon; lat]
  /\ leaflet_center geojson_data None = Return [lat; lon]
  /\ (south b <= north b -> south b <= lat /\ lat <= north b)
  /\ (west b <= east b -> west b <= lon /\ lon <= east b)
  /\ (geo_bounds = None -> lat == 39.5 /\ lon == -73.5).
Proof.
  cbv zeta. unfold mapbox_center, leaflet_center, convert_to_geojson,
              feature_collection.
  cbn [metadata_bounds]. rewrite map_center_asdict. cbn [and_then latitude longitude].
  split; [reflexivity|]. split; [reflexivity|].
  split; [apply midpoint_between|]. split; [apply midpoint_between|].
  intros ->. split; reflexivity.
Qed.

End MapCentre.

(** ** Instances of the further properties *)

Section MoreInstances.

Import DisasterAnalyzer MultiClassAnalyzer GeospatialProcessor.

Lemma transition_map_decodes_witness :
  shape forest_4x4 = shape urban_4x4
  /\ exists transition_map,
      _generate_class_transition_map forest_4x4 urban_4x4 = Ok transition_map
      /\ shape transition_map = shape forest_4x4
      /\ forall i j,
          (i < fst (shape forest_4x4))%nat -> (j < snd (shape forest_4x4))%nat ->
          (cell 0%nat forest_4x4 i j <= 654)%nat ->
          (cell 0%nat urban_4x4 i j < 100)%nat ->
          (cell 0 transition_map i j / 100)%Z = Z.of_nat (cell 0%nat forest_4x4 i j)
          /\ (cell 0 transition_map i j mod 100)%Z
             = Z.of_nat (cell 0%nat urban_4x4 i j).
Proof.
  split; [reflexivity|].
  exact (transition_map_decodes forest_4x4 urban_4x4 eq_refl).
Defined.

Lemma change_map_zero_iff_equal_witness :
  (wf_array forest_4x4 /\ wf_array urban_4x4 /\ shape forest_4x4 = shape urban_4x4)
  /\ exists change_map,
      _generate_change_map forest_4x4 urban_4x4 = Ok change_map
      /\ ((forall i j,
              (i < fst (shape forest_4x4))%nat -> (j < snd (shape forest_4x4))%nat ->
              cell 0%Z change_map i j = 0%Z)
          <-> data forest_4x4 = data urban_4x4).
Proof.
  split; [repeat split|].
  exact (change_map_zero_iff_equal forest_4x4 urban_4x4 eq_refl eq_refl eq_refl).
Defined.

Lemma detected_regions_summarized_witness :
  _detect_change_regions 0.01 forest_4x4 urban_4x4 labels_4x4 stats_4x4 None
  = Ok [urban_detection]
  /\ Forall (fun d => change_level (MultiClassAnalyzer.severity d)) [urban_detection]
  /\ exists counts,
      _get_severity_summary [urban_detection] = PyExc.Return counts
      /\ map fst counts = ["low"; "medium"; "high"; "critical"]%string
      /\ fold_left Nat.add (map snd counts) 0%nat = length [urban_detection].
Proof.
  assert (H : _detect_change_regions 0.01 forest_4x4 urban_4x4 labels_4x4
                                     stats_4x4 None = Ok [urban_detection])
    by (vm_compute; reflexivity).
  split; [exact H|].
  exact (detected_regions_summarized 0.01 forest_4x4 urban_4x4 labels_4x4
           stats_4x4 None [urban_detection] H).
Defined.

Lemma geojson_of_change_detections_witness :
  (fst (100, 100)%Z <> 0%Z /\ snd (100, 100)%Z <> 0%Z)
  /\ let geojson :=
       convert_to_geojson (map ChangeObject five_detections) (100, 100)%Z None in
     feature_count geojson = length five_detections
     /\ map feature_index (features geojson) = seq 0 (length five_detections)
     /\ map prop_change_type (features geojson)
        = map (fun d => value (change_type d)) five_detections
     /\ map prop_bbox (features geojson)
        = map MultiClassAnalyzer.bbox five_detections
     /\ Forall (fun f => length (ring f) = 5%nat) (features geojson).
Proof.
  assert (H1 : fst (100, 100)%Z <> 0%Z) by discriminate.
  assert (H2 : snd (100, 100)%Z <> 0%Z) by discriminate.
  split; [split; assumption|].
  exact (geojson_of_change_detections five_detections (100, 100)%Z None H1 H2).
Defined.

Lemma damage_zone_invariants_witness :
  In collapsed_square
     (_detect_damage_zones 1 (fun _ => 0%Z) blank_image blank_image EARTHQUAKE
                           [square_200])
  /\ zone_type collapsed_square = zone_type_of EARTHQUAKE
  /\ (exists contour,
         In contour [square_200]
         /\ area_sq_meters collapsed_square = Cv2.contourArea contour * 1
         /\ DisasterAnalyzer.bbox collapsed_square = Cv2.boundingRect contour
         /\ polygon_coords collapsed_square = Some contour)
  /\ 50 <= area_sq_meters collapsed_square
  /\ (zone_type collapsed_square = FLOODED ->
      100 <= area_sq_meters collapsed_square
      /\ DisasterAnalyzer.confidence collapsed_square = 0.8)
  /\ (zone_type collapsed_square = BURNED ->
      500 <= area_sq_meters collapsed_square
      /\ DisasterAnalyzer.confidence collapsed_square = 0.75)
  /\ (zone_type collapsed_square = COLLAPSED ->
      DisasterAnalyzer.confidence collapsed_square = 0.7)
  /\ (zone_type collapsed_square = DEBRIS ->
      100 <= area_sq_meters collapsed_square
      /\ DisasterAnalyzer.confidence collapsed_square = 0.6
      /\ DisasterAnalyzer.severity collapsed_square = "moderate"%string)
  /\ damage_level (DisasterAnalyzer.severity collapsed_square).
Proof.
  assert (H : In collapsed_square
                 (_detect_damage_zones 1 (fun _ => 0%Z) blank_image blank_image
                                       EARTHQUAKE [square_200]))
    by (left; reflexivity).
  split; [exact H|].
  exact (damage_zone_invariants 1 (fun _ => 0%Z) blank_image blank_image
           EARTHQUAKE [square_200] collapsed_square H).
Defined.

Lemma detector_zones_use_polygon_fill_witness :
  (Forall (fun contour : Cv2.contour => contour <> []) [square_200]
   /\ In collapsed_square
         (_detect_damage_zones 1 (fun _ => 0%Z) blank_image blank_image EARTHQUAKE
                               [square_200]))
  /\ exists points,
      polygon_of collapsed_square = Some points
      /\ evacuation_step (full (2, 2)%nat 0%Z) collapsed_square
         = Cv2.fillPoly (full (2, 2)%nat 0%Z) points (priority_value collapsed_square)
      /\ relief_step (full (2, 2)%nat 0%Z) collapsed_square
         = Cv2.fillPoly (full (2, 2)%nat 0%Z) points (difficulty collapsed_square).
Proof.
  assert (H1 : Forall (fun contour : Cv2.contour => contour <> []) [square_200])
    by (constructor; [discriminate | constructor]).
  assert (H2 : In collapsed_square
                  (_detect_damage_zones 1 (fun _ => 0%Z) blank_image blank_image
                                        EARTHQUAKE [square_200]))
    by (left; reflexivity).
  split; [split; assumption|].
  exact (detector_zones_use_polygon_fill 1 (fun _ => 0%Z) blank_image blank_image
           EARTHQUAKE [square_200] collapsed_square (full (2, 2)%nat 0%Z) H1 H2).
Defined.

End MoreInstances.

(** ** The clusters of DBSCAN are the chains of near points *)

Section DbscanComponents.

Import Sklearn.

Lemma chain_trans (step : nat -> nat -> Prop) (i j k : nat) :
  chain step i j -> chain step j k -> chain step i k.
Proof.
  intros Hij Hjk. induction Hjk as [|j k l _ IH Hs]; [exact Hij|].
  exact (chain_next step i k l (IH Hij) Hs).
Qed.

Lemma chain_sym (step : nat -> nat -> Prop) (i j : nat) :
  (forall a b, step a b -> step b a) ->
  chain step i j -> chain step j i.
Proof.
  intros Hsym H. induction H as [|i j k _ IH Hs]; [constructor|].
  apply chain_trans with j; [|exact IH].
  exact (chain_next step k k j (chain_here step k) (Hsym _ _ Hs)).
Qed.

Lemma chain_ext (step step' : nat -> nat -> Prop) (i j : nat) :
  (forall a b, step a b -> step' a b) ->
  chain step i j -> chain step' i j.
Proof.
  intros Hext H. induction H as [|i j k _ IH Hs]; [constructor|].
  exact (chain_next step' i j k IH (Hext _ _ Hs)).
Qed.

Lemma push_unlabelled_In (labels : list Z) (neighb : list nat) :
  forall stack v,
    In v (push_unlabelled labels neighb stack)
    <-> In v stack \/ (In v neighb /\ label_at labels v = (-1)%Z).
Proof.
  unfold push_unlabelled.
  induction neighb as [|w neighb IH]; intros stack v; cbn [fold_left].
  - split; [intros H; left; exact H | intros [H | ([] & _)]; exact H].
  - destruct (Z.eqb_spec (label_at labels w) (-1)) as [Ew | Ew]; rewrite IH.
    + split.
      * intros [[<- | H] | (H & Hl)].
        -- right. split; [left; reflexivity | exact Ew].
        -- left; exact H.
        -- right. split; [right; exact H | exact Hl].
      * intros [H | ([<- | H] & Hl)].
        -- left; right; exact H.
        -- left; left; reflexivity.
        -- right. split; assumption.
    + split.
      * intros [H | (H & Hl)]; [left; exact H|].
        right. split; [right; exact H | exact Hl].
      * intros [H | ([<- | H] & Hl)]; [left; exact H | contradiction |].
        right. split; assumption.
Qed.

Variable is_core : list bool.
Variable neighborhoods : list (list nat).
Variable n : nat.

Hypothesis all_points_core :
  forall i, (i < n)%nat -> nth i is_core false = true.
Hypothesis neighbours_in_range :
  forall i j, In j (nth i neighborhoods []) -> (j < n)%nat.
Hypothesis neighbours_symmetric :
  forall i j, In j (nth i neighborhoods []) -> In i (nth j neighborhoods []).

Let step (v w : nat) : Prop := In w (nth v neighborhoods []).

(** All the neighbours of [u] carry the label of [u]. *)
Let closed_at (labels : list Z) (u : nat) : Prop :=
  forall v, step u v -> label_at labels v = label_at labels u.

(** What holds while cluster [c] grows from [seed], the labels having been
    [labels0] before: the clusters before [c] are closed, the points of
    [c] are reached from the seed, and their neighbours are in [c] or wait
    on the stack. *)
Let growing (c : Z) (seed : nat) (labels0 labels : list Z) (pending : list nat)
  : Prop :=
  length labels = n
  /\ (forall u, (u < n)%nat -> (label_at labels u <= c)%Z)
  /\ (forall u, (u < n)%nat -> label_at labels u <> (-1)%Z ->
                 label_at labels u <> c -> closed_at labels u)
  /\ (forall u v, label_at labels u = c -> (u < n)%nat -> step u v ->
                   label_at labels v = c
                   \/ (label_at labels v = (-1)%Z /\ In v pending))
  /\ (forall u, (u < n)%nat -> label_at labels u = c -> chain step seed u)
  /\ (forall v, In v pending -> chain step seed v)
  /\ (forall u, label_at labels u = label_at labels0 u \/ label_at labels u = c).

(** What holds between two clusters: every labelled point is closed, and
    two points of one label are linked. *)
Let settled (c : Z) (labels : list Z) : Prop :=
  length labels = n
  /\ (forall u, (u < n)%nat -> (label_at labels u < c)%Z)
  /\ (forall u, (u < n)%nat -> label_at labels u <> (-1)%Z -> closed_at labels u)
  /\ (forall u v, (u < n)%nat -> (v < n)%nat -> label_at labels u <> (-1)%Z ->
                   label_at labels u = label_at labels v -> chain step u v).

Lemma growing_label (c : Z) (seed : nat) (labels0 labels : list Z)
      (stack : list nat) (i : nat) :
  c <> (-1)%Z ->
  label_at labels i = (-1)%Z ->
  growing c seed labels0 labels (i :: stack) ->
  growing c seed labels0 (set_label i c labels)
          (push_unlabelled (set_label i c labels) (nth i neighborhoods []) stack).
Proof.
  intros Hc Ei (Hlen & Hle & Hclosed & Hfront & Hreach & Hpend & Hold).
  assert (Hi : (i < length labels)%nat) by (apply label_at_in_range; exact Ei).
  pose proof (label_at_set_label_same i c labels Hi) as Hsame.
  assert (Hother : forall u, u <> i ->
             label_at (set_label i c labels) u = label_at labels u).
  { intros u Hu. apply label_at_set_label_other. congruence. }
  split; [rewrite set_label_length; exact Hlen|].
  split.
  { intros u Hu. destruct (Nat.eq_dec u i) as [-> | Hne].
    - rewrite Hsame. lia.
    - rewrite (Hother u Hne). apply Hle. exact Hu. }
  split.
  { intros u Hu H1 H2 v Hv.
    assert (Hne : u <> i) by (intros ->; apply H2; exact Hsame).
    rewrite (Hother u Hne) in *.
    pose proof (Hclosed u Hu H1 H2 v Hv) as Hv'.
    assert (Hvi : v <> i) by (intros ->; congruence).
    rewrite (Hother v Hvi). exact Hv'. }
  split.
  { intros u v Hu Hun Hv.
    destruct (Nat.eq_dec v i) as [-> | Hvi]; [left; exact Hsame|].
    rewrite (Hother v Hvi).
    destruct (Nat.eq_dec u i) as [-> | Hui].
    - destruct (Z.eq_dec (label_at labels v) c) as [Hvc | Hvc]; [left; exact Hvc|].
      destruct (Z.eq_dec (label_at labels v) (-1)) as [Hvn | Hvn].
      + right. split; [exact Hvn|]. apply push_unlabelled_In. right.
        split; [exact Hv|]. rewrite (Hother v Hvi). exact Hvn.
      + exfalso.
        pose proof (Hclosed v (neighbours_in_range _ _ Hv) Hvn Hvc i
                      (neighbours_symmetric _ _ Hv)) as Hiv.
        congruence.
    - rewrite (Hother u Hui) in Hu.
      destruct (Hfront u v Hu Hun Hv) as [H | (H & [<- | Hin])].
      + left; exact H.
      + contradiction.
      + right. split; [exact H|]. apply push_unlabelled_In. left; exact Hin. }
  split.
  { intros u Hu Hl. destruct (Nat.eq_dec u i) as [-> | Hne].
    - apply Hpend. left; reflexivity.
    - rewrite (Hother u Hne) in Hl. apply Hreach; assumption. }
  split.
  { intros v Hv. apply push_unlabelled_In in Hv. destruct Hv as [Hv | (Hv & _)].
    - apply Hpend. right; exact Hv.
    - apply chain_next with i; [apply Hpend; left; reflexivity | exact Hv]. }
  intros u. destruct (Nat.eq_dec u i) as [-> | Hne].
  - right; exact Hsame.
  - rewrite (Hother u Hne). apply Hold.
Qed.

Lemma growing_skip (c : Z) (seed : nat) (labels0 labels : list Z)
      (stack : list nat) (i : nat) :
  label_at labels i <> (-1)%Z ->
  growing c seed labels0 labels (i :: stack) ->
  growing c seed labels0 labels stack.
Proof.
  intros Ei (Hlen & Hle & Hclosed & Hfront & Hreach & Hpend & Hold).
  repeat (split; [assumption|]).
  split.
  { intros u v Hu Hun Hv.
    destruct (Hfront u v Hu Hun Hv) as [H | (H & [<- | Hin])].
    - left; exact H.
    - contradiction.
    - right. split; assumption. }
  split; [exact Hreach|]. split; [|exact Hold].
  intros v Hv. apply Hpend. right; exact Hv.
Qed.

(** The inner loop ends with an empty stack: cluster [c] is closed. *)
Lemma expand_growing (c : Z) (seed : nat) (labels0 : list Z) :
  c <> (-1)%Z ->
  forall fuel labels stack i labels',
    growing c seed labels0 labels (i :: stack) ->
    expand fuel is_core neighborhoods c labels stack i = Some labels' ->
    growing c seed labels0 labels' [].
Proof.
  intros Hc. induction fuel as [|fuel IH]; intros labels stack i labels' Hinv E;
    [discriminate|].
  cbn [expand] in E.
  destruct (Z.eqb_spec (label_at labels i) (-1)) as [Ei | Ei].
  - assert (Hi : (i < n)%nat).
    { destruct Hinv as (Hlen & _). rewrite <- Hlen.
      apply label_at_in_range. exact Ei. }
    rewrite (all_points_core i Hi) in E. cbv zeta in E.
    pose proof (growing_label c seed labels0 labels stack i Hc Ei Hinv) as Hinv1.
    destruct (push_unlabelled (set_label i c labels) (nth i neighborhoods []) stack)
      as [|top stack2].
    + injection E as <-. exact Hinv1.
    + exact (IH _ _ _ _ Hinv1 E).
  - pose proof (growing_skip c seed labels0 labels stack i Ei Hinv) as Hinv1.
    destruct stack as [|top stack2].
    + injection E as <-. exact Hinv1.
    + exact (IH _ _ _ _ Hinv1 E).
Qed.

Lemma settled_growing (c : Z) (labels : list Z) (i : nat) :
  settled c labels -> growing c i labels labels [i].
Proof.
  intros (Hlen & Hlt & Hclosed & Hlink).
  split; [exact Hlen|].
  split; [intros u Hu; specialize (Hlt u Hu); lia|].
  split; [intros u Hu H1 _; apply Hclosed; assumption|].
  split; [intros u v Hu Hun _; specialize (Hlt u Hun); lia|].
  split; [intros u Hu Hl; specialize (Hlt u Hu); lia|].
  split; [intros v [<- | []]; constructor|].
  intros u. left; reflexivity.
Qed.

Lemma growing_settled (c : Z) (seed : nat) (labels0 labels : list Z) :
  settled c labels0 -> growing c seed labels0 labels [] ->
  settled (c + 1) labels.
Proof.
  intros (Hlen0 & Hlt0 & Hclosed0 & Hlink0)
         (Hlen & Hle & Hclosed & Hfront & Hreach & Hpend & Hold).
  assert (Hsym : forall a b, step a b -> step b a)
    by (intros a b; apply neighbours_symmetric).
  split; [exact Hlen|].
  split; [intros u Hu; specialize (Hle u Hu); lia|].
  split.
  { intros u Hu Hl v Hv.
    destruct (Z.eq_dec (label_at labels u) c) as [Hc | Hc].
    - destruct (Hfront u v Hc Hu Hv) as [H | (_ & [])]. congruence.
    - apply (Hclosed u Hu Hl Hc v Hv). }
  intros u v Hu Hv Hl Heq.
  destruct (Z.eq_dec (label_at labels u) c) as [Hc | Hc].
  - apply chain_trans with seed.
    + apply chain_sym; [exact Hsym|]. apply Hreach; assumption.
    + apply Hreach; [exact Hv | congruence].
  - destruct (Hold u) as [Eu | Eu]; [|contradiction].
    destruct (Hold v) as [Ev | Ev]; [|congruence].
    apply Hlink0; try assumption; congruence.
Qed.

(** The outer loop keeps the labels settled. *)
Lemma dbscan_inner_settled (fuel : nat) (indices : list nat) :
  forall c labels labels',
    (0 <= c)%Z ->
    settled c labels ->
    dbscan_inner fuel is_core neighborhoods indices c labels = Some labels' ->
    exists c', settled c' labels'.
Proof.
  induction indices as [|i rest IH]; intros c labels labels' Hc Hs E;
    cbn [dbscan_inner] in E.
  - injection E as <-. exists c. exact Hs.
  - destruct (negb (label_at labels i =? -1)%Z || negb (nth i is_core false)).
    + exact (IH _ _ _ Hc Hs E).
    + destruct (expand fuel is_core neighborhoods c labels [] i)
        as [labels1|] eqn:Ee; [|discriminate].
      apply (IH (c + 1)%Z labels1 labels'); [lia | | exact E].
      apply (growing_settled c i labels labels1 Hs).
      apply (expand_growing c i labels ltac:(lia) fuel labels [] i labels1);
        [|exact Ee].
      apply settled_growing. exact Hs.
Qed.

(** Once every point is labelled, two points have the same label exactly
    when a chain of neighbours links them. *)
Lemma settled_components (c : Z) (labels : list Z) :
  settled c labels ->
  (forall u, (u < n)%nat -> label_at labels u <> (-1)%Z) ->
  forall i j, (i < n)%nat -> (j < n)%nat ->
              (label_at labels i = label_at labels j <-> chain step i j).
Proof.
  intros (Hlen & Hlt & Hclosed & Hlink) Hall i j Hi Hj. split.
  - intros Heq. apply Hlink; auto.
  - intros H. induction H as [|i j k Hij IH Hs]; [reflexivity|].
    assert (Hjn : (j < n)%nat)
      by (apply (neighbours_in_range k j); apply neighbours_symmetric; exact Hs).
    rewrite (IH Hi Hjn).
    symmetry. apply (Hclosed j Hjn (Hall j Hjn) k Hs).
Qed.

Lemma settled_start : settled 0 (repeat (-1)%Z n).
Proof.
  assert (Hl : forall u, (u < n)%nat -> label_at (repeat (-1)%Z n) u = (-1)%Z).
  { intros u Hu. unfold label_at. apply nth_repeat_lt. exact Hu. }
  split; [apply repeat_length|].
  split; [intros u Hu; rewrite (Hl u Hu); lia|].
  split; [intros u Hu H; rewrite (Hl u Hu) in H; congruence|].
  intros u v Hu Hv H. rewrite (Hl u Hu) in H. congruence.
Qed.

(** The labels of the two loops, started at no label and once every point
    has got one. *)
Lemma dbscan_inner_components (fuel : nat) (labels : list Z) :
  dbscan_inner fuel is_core neighborhoods (seq 0 n) 0%Z (repeat (-1)%Z n)
  = Some labels ->
  (forall u, (u < n)%nat -> label_at labels u <> (-1)%Z) ->
  forall i j, (i < n)%nat -> (j < n)%nat ->
              (label_at labels i = label_at labels j
               <-> chain (fun v w => In w (nth v neighborhoods [])) i j).
Proof.
  intros E Hall.
  destruct (dbscan_inner_settled fuel (seq 0 n) 0%Z _ labels (Z.le_refl 0)
              settled_start E) as (c & Hs).
  exact (settled_components c labels Hs Hall).
Qed.

End DbscanComponents.

(** ** The groups of nearby changes *)

Section NearbyClusters.

Import Sklearn MultiClassAnalyzer GeospatialProcessor.

Let origin : point := (0, 0).

Lemma In_combine_seq_nth {A : Type} (d : A) (l : list A) :
  forall start k x,
    In (k, x) (combine (seq start (length l)) l)
    <-> (start <= k < start + length l)%nat /\ nth (k - start) l d = x.
Proof.
  induction l as [|y l IH]; intros start k x; cbn [length seq combine In].
  - split; [intros [] | intros (H & _); lia].
  - rewrite IH. split.
    + intros [E | (Hk & Hx)].
      * injection E as <- <-. rewrite Nat.sub_diag. split; [lia | reflexivity].
      * split; [lia|]. replace (k - start)%nat with (S (k - S start)) by lia.
        exact Hx.
    + intros (Hk & Hx). destruct (Nat.eq_dec k start) as [-> | Hne].
      * left. rewrite Nat.sub_diag in Hx. simpl in Hx. congruence.
      * right. split; [lia|].
        replace (k - start)%nat with (S (k - S start)) in Hx by lia. exact Hx.
Qed.

Lemma neighborhood_In (eps : Q) (points : list point) (p : point) (j : nat) :
  In j (neighborhood eps points p)
  <-> (j < length points)%nat /\ sq_dist p (nth j points origin) <= eps * eps.
Proof.
  unfold neighborhood. rewrite in_map_iff. split.
  - intros ([k q] & E & H). cbn [fst] in E. subst k.
    apply filter_In in H. destruct H as (Hin & Hle). cbn [snd] in Hle.
    apply (In_combine_seq_nth origin) in Hin. destruct Hin as (Hk & <-).
    rewrite Nat.sub_0_r in Hle. split; [lia|]. apply Qle_bool_iff. exact Hle.
  - intros (Hj & Hle). exists (j, nth j points origin). split; [reflexivity|].
    apply filter_In. split.
    + apply (In_combine_seq_nth origin). split; [lia|]. rewrite Nat.sub_0_r.
      reflexivity.
    + cbn [snd]. apply Qle_bool_iff. exact Hle.
Qed.

Lemma nth_neighborhoods (eps : Q) (points : list point) (i j : nat) :
  In j (nth i (map (neighborhood eps points) points) []) <-> near eps points i j.
Proof.
  unfold near. fold origin.
  destruct (Nat.lt_ge_cases i (length points)) as [Hi | Hi].
  - rewrite (nth_indep _ [] (neighborhood eps points origin))
      by (rewrite length_map; exact Hi).
    rewrite map_nth, neighborhood_In. tauto.
  - rewrite nth_overflow by (rewrite length_map; exact Hi).
    split; [intros [] | intros (H & _); lia].
Qed.

Lemma near_sym (eps : Q) (points : list point) (i j : nat) :
  near eps points i j -> near eps points j i.
Proof.
  unfold near. intros (Hi & Hj & Hd). split; [exact Hj|]. split; [exact Hi|].
  assert (E : sq_dist (nth j points (0, 0)) (nth i points (0, 0))
              == sq_dist (nth i points (0, 0)) (nth j points (0, 0)))
    by (unfold sq_dist; ring).
  rewrite E. exact Hd.
Qed.

(** The labels of DBSCAN with [min_samples = 1]: none is -1, and two
    points have the same label exactly when a chain of near points links
    them. *)
Lemma DBSCAN_fit_components (eps : Q) (points : list point) :
  0 < eps ->
  exists labels,
    DBSCAN_fit eps 1 points = Ok labels
    /\ length labels = length points
    /\ Forall (fun label => label <> (-1)%Z) labels
    /\ forall i j, (i < length points)%nat -> (j < length points)%nat ->
                   (label_at labels i = label_at labels j
                    <-> chain (near eps points) i j).
Proof.
  intros Heps.
  destruct (DBSCAN_fit_no_noise eps points Heps) as (labels & E & Hlen & Hnoise).
  exists labels. split; [exact E|]. split; [exact Hlen|]. split; [exact Hnoise|].
  unfold DBSCAN_fit in E. destruct (Qle_bool eps 0); [discriminate|].
  cbv zeta in E.
  destruct (dbscan_inner _ _ _ _ _ _) as [labels'|] eqn:Ed; [|discriminate].
  injection E as ->.
  assert (Hall : forall u, (u < length points)%nat -> label_at labels u <> (-1)%Z).
  { intros u Hu. rewrite Forall_forall in Hnoise. apply Hnoise.
    unfold label_at. apply nth_In. rewrite Hlen. exact Hu. }
  pose proof (dbscan_inner_components _ (map (neighborhood eps points) points)
                (length points) (all_core eps points)
                (fun i j H => proj1 (proj2 (proj1 (nth_neighborhoods eps points i j) H)))
                (fun i j H => proj2 (nth_neighborhoods eps points j i)
                                (near_sym eps points i j
                                   (proj1 (nth_neighborhoods eps points i j) H)))
                _ labels Ed Hall) as H.
  intros i j Hi Hj. rewrite (H i j Hi Hj).
  split; apply chain_ext; intros a b; apply nth_neighborhoods.
Qed.

Lemma members_of_snoc (k : Z) (pairs : list (Z * ChangeDetection))
      (l : Z) (d : ChangeDetection) :
  members_of k (pairs ++ [(l, d)])
  = members_of k pairs ++ (if (l =? k)%Z then [d] else []).
Proof.
  unfold members_of. rewrite filter_app, map_app. cbn [filter fst].
  destruct (l =? k)%Z; reflexivity.
Qed.

Lemma dict_append_keys (clusters : list (Z * list ChangeDetection))
      (l : Z) (d : ChangeDetection) (k : Z) :
  In k (map fst (dict_append clusters l d)) <-> k = l \/ In k (map fst clusters).
Proof.
  induction clusters as [|[k0 ds0] rest IH]; cbn [dict_append].
  - simpl. split; [intros [<- | []]; left; reflexivity|].
    intros [-> | []]; left; reflexivity.
  - destruct (Z.eqb_spec k0 l) as [-> | Hne]; cbn [map fst In].
    + split; [intros H; right; exact H|].
      intros [-> | H]; [left; reflexivity | exact H].
    + rewrite IH. tauto.
Qed.

Lemma dict_append_members (pairs : list (Z * ChangeDetection))
      (l : Z) (d : ChangeDetection) :
  forall clusters,
    NoDup (map fst clusters) ->
    Forall (fun item => snd item = members_of (fst item) pairs) clusters ->
    (~ In l (map fst clusters) -> members_of l pairs = []) ->
    NoDup (map fst (dict_append clusters l d))
    /\ Forall (fun item => snd item = members_of (fst item) (pairs ++ [(l, d)]))
              (dict_append clusters l d).
Proof.
  induction clusters as [|[k0 ds0] rest IH]; intros Hnd Hall Hnew;
    cbn [dict_append].
  - split; [constructor; [intros [] | constructor]|].
    constructor; [|constructor]. cbn [fst snd].
    rewrite members_of_snoc, Z.eqb_refl, Hnew; [reflexivity | intros []].
  - cbn [map fst] in Hnd. inversion Hnd as [|? ? Hk0 Hnd']; subst.
    inversion Hall as [|? ? H0 Hall']; subst. cbn [fst snd] in H0.
    destruct (Z.eqb_spec k0 l) as [-> | Hne].
    + split; [exact Hnd|]. constructor.
      * cbn [fst snd]. rewrite members_of_snoc, Z.eqb_refl, H0. reflexivity.
      * rewrite Forall_forall in *. intros [k ds] Hin. cbn [fst snd].
        rewrite members_of_snoc.
        destruct (Z.eqb_spec l k) as [<- | _].
        -- exfalso. apply Hk0. apply (in_map fst) in Hin. exact Hin.
        -- rewrite app_nil_r. apply (Hall' _ Hin).
    + destruct (IH Hnd' Hall') as (I1 & I2).
      { intros Hl. apply Hnew. cbn [map fst In].
        intros [E | H]; [congruence | contradiction]. }
      split.
      * cbn [map fst]. constructor; [|exact I1]. rewrite dict_append_keys.
        intros [E | H]; [congruence | contradiction].
      * constructor; [|exact I2]. cbn [fst snd]. rewrite members_of_snoc.
        destruct (Z.eqb_spec l k0) as [E | _]; [congruence|].
        rewrite app_nil_r. exact H0.
Qed.

Lemma group_fold_members (pairs' : list (Z * ChangeDetection)) :
  forall clusters pairs,
    NoDup (map fst clusters) ->
    Forall (fun item => snd item = members_of (fst item) pairs) clusters ->
    (forall l, ~ In l (map fst clusters) -> members_of l pairs = []) ->
    NoDup (map fst (fold_left (fun cl ld => dict_append cl (fst ld) (snd ld))
                              pairs' clusters))
    /\ Forall (fun item => snd item = members_of (fst item) (pairs ++ pairs'))
              (fold_left (fun cl ld => dict_append cl (fst ld) (snd ld))
                         pairs' clusters)
    /\ (forall l,
           ~ In l (map fst (fold_left (fun cl ld => dict_append cl (fst ld) (snd ld))
                                      pairs' clusters)) ->
           members_of l (pairs ++ pairs') = []).
Proof.
  induction pairs' as [|[l d] pairs' IH]; intros clusters pairs Hnd Hall Hnew;
    cbn [fold_left fst snd].
  - rewrite app_nil_r. auto.
  - destruct (dict_append_members pairs l d clusters Hnd Hall (Hnew l)) as (H1 & H2).
    specialize (IH (dict_append clusters l d) (pairs ++ [(l, d)]) H1 H2).
    rewrite <- app_assoc in IH. cbn [app] in IH. apply IH.
    intros k Hk. rewrite dict_append_keys in Hk. rewrite members_of_snoc.
    destruct (Z.eqb_spec l k) as [-> | Hne]; [exfalso; apply Hk; left; reflexivity|].
    rewrite app_nil_r. apply Hnew. intros H. apply Hk. right; exact H.
Qed.

Lemma In_labels_pair (labels : list Z) (change_detections : list ChangeDetection)
      (l : Z) :
  length labels = length change_detections ->
  In l labels -> exists d, In (l, d) (combine labels change_detections).
Proof.
  revert change_detections.
  induction labels as [|l0 labels IH]; intros [|d0 ds] Hlen Hin;
    simpl in *; try discriminate; [destruct Hin|].
  destruct Hin as [-> | Hin].
  - exists d0. left; reflexivity.
  - destruct (IH ds ltac:(lia) Hin) as (d & Hd). exists d. right; exact Hd.
Qed.

(** The dict of clusters has one entry per label; the entry of a label
    holds the detections of that label, in order. *)
Lemma group_by_label_members (labels : list Z)
      (change_detections : list ChangeDetection) :
  length labels = length change_detections ->
  let clusters := group_by_label labels change_detections in
  NoDup (map fst clusters)
  /\ (forall l, In l (map fst clusters) <-> In l labels)
  /\ map snd clusters
     = map (fun k => members_of k (combine labels change_detections))
           (map fst clusters).
Proof.
  intros Hlen clusters.
  destruct (group_fold_members (combine labels change_detections) [] []
              (NoDup_nil _) (Forall_nil _) (fun _ _ => eq_refl))
    as (H1 & H2 & H3).
  cbn [app] in H2, H3. fold (group_by_label labels change_detections) in H1, H2, H3.
  fold clusters in H1, H2, H3.
  split; [exact H1|]. split.
  - intros l. split.
    + apply (group_by_label_spec labels change_detections Hlen).
    + intros Hl.
      destruct (in_dec Z.eq_dec l (map fst clusters)) as [Hin | Hout]; [exact Hin|].
      exfalso. destruct (In_labels_pair labels change_detections l Hlen Hl) as (d & Hd).
      specialize (H3 l Hout). unfold members_of in H3.
      assert (Hm : In d (map snd (filter (fun ld => (fst ld =? l)%Z)
                                         (combine labels change_detections)))).
      { apply in_map_iff. exists (l, d). split; [reflexivity|].
        apply filter_In. split; [exact Hd|]. apply Z.eqb_refl. }
      rewrite H3 in Hm. destruct Hm.
  - clear - H2. induction H2 as [|[k ds] rest Hk _ IH]; [reflexivity|].
    cbn [map fst snd] in *. rewrite IH, Hk. reflexivity.
Qed.

Variable set_order : list string -> list string.
Hypothesis set_order_elements : forall l x, In x (set_order l) <-> In x l.

(** On a non-empty list and with a positive distance,
    [cluster_nearby_changes] returns one entry per label of DBSCAN, whose
    members are the detections of that label, in order; and two detections
    have the same label exactly when a chain of detections links them,
    each centre at most [max_distance_meters / 10] pixels from the next. *)
Theorem nearby_changes_grouped
        (change_detections : list ChangeDetection) (max_distance_meters : Q) :
  change_detections <> [] ->
  0 < max_distance_meters ->
  let points := map center change_detections in
  exists labels keys groups,
    DBSCAN_fit (max_distance_meters / 10) 1 points = Ok labels
    /\ length labels = length change_detections
    /\ (forall i j,
           (i < length change_detections)%nat ->
           (j < length change_detections)%nat ->
           (label_at labels i = label_at labels j
            <-> chain (near (max_distance_meters / 10) points) i j))
    /\ cluster_nearby_changes set_order change_detections max_distance_meters
       = Ok groups
    /\ NoDup keys
    /\ (forall l, In l keys <-> In l labels)
    /\ map detections groups
       = map (fun k => members_of k (combine labels change_detections)) keys.
Proof.
  intros Hne Hpos points.
  destruct (DBSCAN_fit_components (max_distance_meters / 10) points)
    as (labels & El & Hlen & Hnoise & Hlink).
  { apply Qlt_shift_div_l; lra. }
  unfold points in Hlen, Hlink. rewrite length_map in Hlen, Hlink.
  destruct (group_by_label_members labels change_detections Hlen)
    as (Hnd & Hkeys & Hmembers).
  destruct (group_by_label_spec labels change_detections Hlen) as (Hds & _ & _).
  destruct (summarize_clusters set_order set_order_elements
              (group_by_label labels change_detections))
    with (acc := @nil ClusterGroup) as (groups & Es & Hmap & _).
  { rewrite Forall_forall in *. intros item Hitem. split.
    - apply Hnoise. apply Hkeys. apply in_map. exact Hitem.
    - apply Hds. exact Hitem. }
  exists labels, (map fst (group_by_label labels change_detections)), groups.
  split; [exact El|]. split; [exact Hlen|]. split; [exact Hlink|].
  split.
  { unfold cluster_nearby_changes.
    destruct change_detections as [|d ds]; [congruence|].
    fold points. rewrite El. cbv [Py.bind]. exact Es. }
  split; [exact Hnd|]. split; [exact Hkeys|].
  rewrite Hmap. exact Hmembers.
Qed.

End NearbyClusters.

Section NearbyInstances.

Import Sklearn MultiClassAnalyzer GeospatialProcessor.

Lemma nearby_changes_grouped_witness :
  (five_detections <> [] /\ 0 < 1000)
  /\ let points := map center five_detections in
     exists labels keys groups,
       DBSCAN_fit (1000 / 10) 1 points = Ok labels
       /\ length labels = length five_detections
       /\ (forall i j,
              (i < length five_detections)%nat ->
              (j < length five_detections)%nat ->
              (label_at labels i = label_at labels j
               <-> chain (near (1000 / 10) points) i j))
       /\ cluster_nearby_changes first_seen five_detections 1000 = Ok groups
       /\ NoDup keys
       /\ (forall l, In l keys <-> In l labels)
       /\ map detections groups
          = map (fun k => members_of k (combine labels five_detections)) keys.
Proof.
  assert (H1 : five_detections <> []) by discriminate.
  assert (H2 : 0 < 1000) by reflexivity.
  split; [split; assumption|].
  exact (nearby_changes_grouped first_seen first_seen_elements
           five_detections 1000 H1 H2).
Defined.

End NearbyInstances.
